(** * NucleoRTOS task subsystem: a shallow embedding of [rtos/sys/task/task.c]

    The C functions of [task.c] are transcribed as state transformers over a
    record [machine] that holds the file's static variables, the memory the
    task control blocks and task stacks live in, the allocator's book-keeping
    and the system-control registers the code writes.  Undefined behaviour of
    the C program (a null or dangling dereference, an array index out of
    bounds, a division by zero) is an outcome of its own, [Undefined]. *)

From stdpp Require Import base numbers list gmap strings.
From Stdlib Require Import ZArith Lia.

Local Open Scope Z_scope.

(** ** Data model *)

(** Pointers are 32-bit addresses; [NULL] is address 0. *)
Definition NULL : Z := 0.

Definition wrap32 (x : Z) : Z := x mod 2 ^ 32.

(** [task_state_t] (task.c, lines 30-35). *)
Inductive task_state_t : Type :=
| TASK_EXITED
| TASK_BLOCKED
| TASK_READY
| TASK_ACTIVE.

#[global] Instance task_state_eq_dec : EqDecision task_state_t.
Proof. solve_decision. Defined.

(** [block_reason_t] is an enum of [task.h]; its values are C integers. *)
Abbreviation block_reason_t := Z (only parsing).

(** The two [syserr_t] codes (of [sys/err.h]) that task.c passes to [exit]. *)
Inductive syserr_t : Type :=
| ERR_SCHEDULER
| ERR_BADPARAM.

#[global] Instance syserr_eq_dec : EqDecision syserr_t.
Proof. solve_decision. Defined.

(** [task_status_t] (task.c, lines 40-52).  The intrusive [list_state] node
    carries no data of its own here: which list a block is chained into is
    read off the lists of the [machine]. *)
Record task_status_t : Type := mk_task_status {
  stack_ptr : Z;
  stack_start : Z;
  stack_end : Z;
  entry : Z;
  arg : Z;
  state : task_state_t;
  name : string;
  stack_allocated : bool;
  blockcause : block_reason_t;
  priority : nat
}.

Definition set_state (s : task_state_t) (t : task_status_t) : task_status_t :=
  mk_task_status (stack_ptr t) (stack_start t) (stack_end t) (entry t) (arg t)
    s (name t) (stack_allocated t) (blockcause t) (priority t).

Definition set_blockcause (c : block_reason_t) (t : task_status_t)
  : task_status_t :=
  mk_task_status (stack_ptr t) (stack_start t) (stack_end t) (entry t) (arg t)
    (state t) (name t) (stack_allocated t) c (priority t).

(** [task_config_t] of [task.h], with the four fields task.c reads. *)
Record task_config_t : Type := mk_task_config {
  task_stack : Z;
  task_stacksize : Z;
  task_name : option string;
  task_priority : nat
}.

(** Log levels of config.h (lines 46-49). *)
Inductive loglevel : Type :=
| SYSLOGLEVEL_DEBUG
| SYSLOGLEVEL_INFO
| SYSLOGLEVEL_WARNING
| SYSLOGLEVEL_ERROR.

(** What the logging facility is handed: level, tag and message. *)
Inductive event : Type :=
| EvLog (lvl : loglevel) (tag msg : string).

(** A list handle of the list primitive: the chained items in order, head
    first.  The null handle is the empty list. *)
Abbreviation list_t := (list Z) (only parsing).

Record machine : Type := mk_machine {
  tcbs : gmap Z task_status_t;    (* task control blocks, by address *)
  ram : gmap Z Z;                 (* words written to task stacks *)
  heap_live : list Z;             (* blocks malloc returned and free has not seen *)
  malloc_oracle : list Z;         (* what the next calls of malloc return *)
  active_task : Z;
  ready_tasks : list list_t;
  blocked_tasks : list_t;
  exited_tasks : list_t;
  SCB_ICSR : Z;
  SysTick_LOAD : Z;
  SysTick_CTRL : Z;
  hclk_freq : Z;                  (* the AHB clock in Hz, as the clock driver reports it *)
  trace : list event              (* log output, oldest first *)
}.

Definition with_tcbs (f : gmap Z task_status_t → gmap Z task_status_t)
  (m : machine) : machine :=
  mk_machine (f (tcbs m)) (ram m) (heap_live m) (malloc_oracle m)
    (active_task m) (ready_tasks m) (blocked_tasks m) (exited_tasks m)
    (SCB_ICSR m) (SysTick_LOAD m) (SysTick_CTRL m) (hclk_freq m) (trace m).

Definition with_ram (f : gmap Z Z → gmap Z Z) (m : machine) : machine :=
  mk_machine (tcbs m) (f (ram m)) (heap_live m) (malloc_oracle m)
    (active_task m) (ready_tasks m) (blocked_tasks m) (exited_tasks m)
    (SCB_ICSR m) (SysTick_LOAD m) (SysTick_CTRL m) (hclk_freq m) (trace m).

Definition with_heap (live oracle : list Z) (m : machine) : machine :=
  mk_machine (tcbs m) (ram m) live oracle
    (active_task m) (ready_tasks m) (blocked_tasks m) (exited_tasks m)
    (SCB_ICSR m) (SysTick_LOAD m) (SysTick_CTRL m) (hclk_freq m) (trace m).

Definition with_active (a : Z) (m : machine) : machine :=
  mk_machine (tcbs m) (ram m) (heap_live m) (malloc_oracle m)
    a (ready_tasks m) (blocked_tasks m) (exited_tasks m)
    (SCB_ICSR m) (SysTick_LOAD m) (SysTick_CTRL m) (hclk_freq m) (trace m).

Definition with_ready (r : list list_t) (m : machine) : machine :=
  mk_machine (tcbs m) (ram m) (heap_live m) (malloc_oracle m)
    (active_task m) r (blocked_tasks m) (exited_tasks m)
    (SCB_ICSR m) (SysTick_LOAD m) (SysTick_CTRL m) (hclk_freq m) (trace m).

Definition with_blocked (b : list_t) (m : machine) : machine :=
  mk_machine (tcbs m) (ram m) (heap_live m) (malloc_oracle m)
    (active_task m) (ready_tasks m) b (exited_tasks m)
    (SCB_ICSR m) (SysTick_LOAD m) (SysTick_CTRL m) (hclk_freq m) (trace m).

Definition with_exited (e : list_t) (m : machine) : machine :=
  mk_machine (tcbs m) (ram m) (heap_live m) (malloc_oracle m)
    (active_task m) (ready_tasks m) (blocked_tasks m) e
    (SCB_ICSR m) (SysTick_LOAD m) (SysTick_CTRL m) (hclk_freq m) (trace m).

Definition with_ICSR (v : Z) (m : machine) : machine :=
  mk_machine (tcbs m) (ram m) (heap_live m) (malloc_oracle m)
    (active_task m) (ready_tasks m) (blocked_tasks m) (exited_tasks m)
    v (SysTick_LOAD m) (SysTick_CTRL m) (hclk_freq m) (trace m).

Definition with_SysTick (load ctrl : Z) (m : machine) : machine :=
  mk_machine (tcbs m) (ram m) (heap_live m) (malloc_oracle m)
    (active_task m) (ready_tasks m) (blocked_tasks m) (exited_tasks m)
    (SCB_ICSR m) load ctrl (hclk_freq m) (trace m).

Definition with_trace (t : list event) (m : machine) : machine :=
  mk_machine (tcbs m) (ram m) (heap_live m) (malloc_oracle m)
    (active_task m) (ready_tasks m) (blocked_tasks m) (exited_tasks m)
    (SCB_ICSR m) (SysTick_LOAD m) (SysTick_CTRL m) (hclk_freq m) t.

(** ** Outcomes and the monad of C functions *)

(** A call either returns, or ends in [exit], or leaves through an exception
    return into the active task (its caller is never resumed), or has
    undefined behaviour. *)
Inductive result (A : Type) : Type :=
| Ret (a : A) (m : machine)
| Exit (code : syserr_t) (m : machine)
| Dispatched (m : machine)
| Undefined.

Arguments Ret {A} a m.
Arguments Exit {A} code m.
Arguments Dispatched {A} m.
Arguments Undefined {A}.

Definition M (A : Type) : Type := machine → result A.

Definition ret {A : Type} (a : A) : M A := λ m, Ret a m.

Definition bind {A B : Type} (c : M A) (k : A → M B) : M B :=
  λ m, match c m with
       | Ret a m' => k a m'
       | Exit code m' => Exit code m'
       | Dispatched m' => Dispatched m'
       | Undefined => Undefined
       end.

Notation "'do' x <- c ; k" := (bind c (λ x, k))
  (at level 10, x name, c at level 100, k at level 200).
Notation "c ;; k" := (bind c (λ _, k))
  (at level 100, k at level 200, right associativity).

Definition get : M machine := λ m, Ret m m.
Definition modify (f : machine → machine) : M unit := λ m, Ret tt (f m).
Definition undefined {A : Type} : M A := λ _, Undefined.

(** [exit(code)] does not return. *)
Definition exit {A : Type} (code : syserr_t) : M A := λ m, Exit code m.

(** [p->field] for a task control block at [p]. *)
Definition load_tcb (p : Z) : M task_status_t :=
  λ m, match tcbs m !! p with
       | Some t => Ret t m
       | None => Undefined
       end.

(** [p->field = v] for a task control block at [p]. *)
Definition store_tcb (p : Z) (f : task_status_t → task_status_t) : M unit :=
  λ m, match tcbs m !! p with
       | Some t => Ret tt (with_tcbs (λ h, <[p := f t]> h) m)
       | None => Undefined
       end.

(** [ready_tasks[i]] as an rvalue. *)
Definition load_ready (i : nat) : M list_t :=
  λ m, match ready_tasks m !! i with
       | Some q => Ret q m
       | None => Undefined
       end.

(** [ready_tasks[i] = q]. *)
Definition store_ready (i : nat) (q : list_t) : M unit :=
  λ m, if decide (i < length (ready_tasks m))%nat
       then Ret tt (with_ready (<[i := q]> (ready_tasks m)) m)
       else Undefined.

Definition log (lvl : loglevel) (tag msg : string) : M unit :=
  modify (λ m, with_trace (trace m ++ [EvLog lvl tag msg]) m).

(** The logging tag of task.c (line 61). *)
Definition TAG : string := "task.c".
Definition IDLE_TASK_NAME : string := "Idle Task".

Definition LOG_E (tag msg : string) : M unit := log SYSLOGLEVEL_ERROR tag msg.
Definition LOG_W (tag msg : string) : M unit := log SYSLOGLEVEL_WARNING tag msg.
Definition LOG_I (tag msg : string) : M unit := log SYSLOGLEVEL_INFO tag msg.

(** ** External collaborators *)

(** Modelled from the spec: the allocator ([malloc] and [free] of the C
    library) is outside the sources.  [malloc] returns what the oracle says,
    null when it has nothing left; a block it hands out is live until freed. *)
Definition malloc (size : Z) : M Z :=
  λ m, match malloc_oracle m with
       | [] => Ret NULL m
       | p :: rest =>
           Ret p (with_heap (if decide (p = NULL) then heap_live m
                             else heap_live m ++ [p]) rest m)
       end.

(** Modelled from the spec: [free p] ends the life of block [p]; a task
    control block stored in it is gone with it. *)
Definition free (p : Z) : M unit :=
  modify (λ m, with_tcbs (delete p)
                 (with_heap (filter (λ q, q ≠ p) (heap_live m))
                            (malloc_oracle m) m)).

(** Modelled from the spec: the list primitive ([util/list/list.h]) is outside
    the sources.  Section 4.A: [append] chains an item at the tail and
    returns the updated handle, [remove] unchains a node and returns the
    updated handle, [head] returns the first item without removing it.  A
    node sits in one list at most, so removing a node takes out its item. *)
Definition list_append (l : list_t) (item : Z) : list_t := l ++ [item].

Definition list_remove (l : list_t) (item : Z) : list_t :=
  filter (λ x, x ≠ item) l.

Definition list_get_head (l : list_t) : Z := hd NULL l.

(** Modelled from the spec: the device header is outside the sources.  The
    reload field of the system tick timer is 24 bits wide; the other masks
    are single bits of the ARMv7-M system control space. *)
Definition SysTick_LOAD_RELOAD_Msk : Z := 0xFFFFFF.
Definition SysTick_CTRL_ENABLE_Msk : Z := 1.
Definition SysTick_CTRL_TICKINT_Msk : Z := 2.
Definition SCB_ICSR_PENDSVSET_Msk : Z := 2 ^ 28.

(** [SETBITS(reg, mask)] of [util/bitmask.h]. *)
Definition SETBITS (reg mask : Z) : Z := Z.lor reg mask.

(** Initial task register states (task.c, lines 24-25). *)
Definition INITIAL_xPSR : Z := 0x01000000.
Definition INITIAL_EXEC_RETURN : Z := 0xFFFFFFFD.

(** The configuration macros and link-time addresses task.c refers to and
    the sources do not define. *)
Record config : Type := mk_config {
  RTOS_PRIORITY_COUNT : nat;
  DEFAULT_PRIORITY : nat;
  DEFAULT_STACKSIZE : Z;
  IDLE_TASK_PRIORITY : nat;
  IDLE_TASK_STACK_SIZE : Z;
  SYSTICK_FREQ : Z;
  DEFAULT_TASK_CONFIG : task_config_t;
  BLOCK_NONE : block_reason_t;
  sizeof_task_status_t : Z;
  task_exithandler : Z;           (* address of the exit trampoline *)
  idle_entry : Z                  (* address of the idle task's entry *)
}.

(** ** The stack initializer (task.c, lines 448-485) *)

(** The alignment loop, [n] iterations at most:
    [while (((uint32_t)stack_ptr) % 4 != 0) stack_ptr = (uint8_t * )stack_ptr - 1]. *)
Fixpoint align_loop (n : nat) (stack_ptr : Z) : Z :=
  match n with
  | O => stack_ptr
  | S n' =>
      if decide (stack_ptr mod 4 ≠ 0) then align_loop n' (stack_ptr - 1)
      else stack_ptr
  end.

(** A [uint32_t * ] stepped down by one word. *)
Definition ptr_dec (p : Z) : Z := wrap32 (p - 4).

(** The stack pointer and the stores done so far, oldest first. *)
Definition frame : Type := (Z * list (Z * Z))%type.

(** [*stack_ptr-- = v]. *)
Definition store_dec (v : Z) (s : frame) : frame :=
  let '(p, w) := s in (ptr_dec p, w ++ [(p, v)]).

(** [*stack_ptr = v]. *)
Definition store_keep (v : Z) (s : frame) : frame :=
  let '(p, w) := s in (p, w ++ [(p, v)]).

Definition initialize_task_stack (exithandler stack_ptr return_pc arg0 : Z)
  : frame :=
  let s := (align_loop 3 stack_ptr, []) in
  let s := store_dec INITIAL_xPSR s in
  let s := store_dec return_pc s in
  let s := store_dec exithandler s in
  let s := store_dec 0x12121212 s in
  let s := store_dec 0x03030303 s in
  let s := store_dec 0x02020202 s in
  let s := store_dec 0x01010101 s in
  let s := store_dec arg0 s in
  let s := store_dec INITIAL_EXEC_RETURN s in
  let s := store_dec 0x11111111 s in
  let s := store_dec 0x10101010 s in
  let s := store_dec 0x09090909 s in
  let s := store_dec 0x08080808 s in
  let s := store_dec 0x07070707 s in
  let s := store_dec 0x06060606 s in
  let s := store_dec 0x05050505 s in
  store_keep 0x04040404 s.

Arguments initialize_task_stack : simpl never.

(** The stores of a frame carried out on memory, in program order. *)
Definition write_words (ws : list (Z * Z)) (r : gmap Z Z) : gmap Z Z :=
  foldl (λ r w, <[w.1 := w.2]> r) r ws.

(** A store of the frame writes the four bytes from its address.  They lie
    in the stack when they lie between [stack_end] and [stack_start], the
    last byte of the region; they are clear of the control block of [sz]
    bytes at [t] when the two do not overlap. *)
Definition word_in_stack (s_end s_start p : Z) : Prop :=
  s_end ≤ p ∧ p + 3 ≤ s_start.

Definition word_off_block (sz t p : Z) : Prop := p + 3 < t ∨ t + sz ≤ p.

(** The stores [ws] of a frame stay where a stack may be written: the stack
    region lies in the 32-bit address space, and every store lies in it and
    is clear of every control block of [tc]. *)
Definition frame_ok (sz : Z) (tc : gmap Z task_status_t) (s_end s_start : Z)
    (ws : list (Z * Z)) : Prop :=
  0 ≤ s_end ∧ s_start < 2 ^ 32 ∧
  Forall (λ w, word_in_stack s_end s_start w.1 ∧
               map_Forall (λ t _, word_off_block sz t w.1) tc) ws.

#[global] Instance frame_ok_dec (sz : Z) (tc : gmap Z task_status_t)
    (s_end s_start : Z) (ws : list (Z * Z)) :
  Decision (frame_ok sz tc s_end s_start ws).
Proof. unfold frame_ok, word_in_stack, word_off_block. apply _. Defined.

(** ** The scheduler and the task API *)

Section Task.

Context (K : config).

Local Abbreviation P := (RTOS_PRIORITY_COUNT K).

(** [set_pendsv] (line 525). *)
Definition set_pendsv : M unit :=
  modify (λ m, with_ICSR (SETBITS (SCB_ICSR m) SCB_ICSR_PENDSVSET_Msk) m).

(** The scan of [select_active_task] (lines 383-387), entered with [i]:
    [for (; i > 0; i--) if (ready_tasks[i] != NULL) break;]
    and the value of [i] it leaves. *)
Fixpoint scan_ready (rt : list list_t) (i : nat) : option nat :=
  match i with
  | O => Some O
  | S j =>
      match rt !! i with
      | None => None
      | Some [] => scan_ready rt j
      | Some (_ :: _) => Some i
      end
  end.

Definition scan_ready_tasks (i : nat) : M nat :=
  λ m, match scan_ready (ready_tasks m) i with
       | Some j => Ret j m
       | None => Undefined
       end.

(** [select_active_task] (lines 376-416). *)
Definition select_active_task : M unit :=
  do i <- scan_ready_tasks (P - 1);
  do q <- load_ready i;
  if decide (q = []) then ret tt
  else
    let new_active := list_get_head q in
    store_ready i (list_remove q new_active) ;;
    do m <- get;
    (if decide (active_task m ≠ NULL) then
       do a <- load_tcb (active_task m);
       if decide (state a = TASK_BLOCKED) then
         modify (λ m, with_blocked
                        (list_append (blocked_tasks m) (active_task m)) m)
       else
         do r <- load_ready (priority a);
         store_ready (priority a) (list_append r (active_task m))
     else ret tt) ;;
    modify (with_active new_active) ;;
    store_tcb new_active (set_state TASK_ACTIVE).

(** [enable_systick] (lines 422-438).  The quotient is the one of C for a
    clock frequency and a tick frequency that are not negative. *)
Definition enable_systick : M unit :=
  do m <- get;
  if decide (SYSTICK_FREQ K = 0) then undefined
  else
    let reload_val :=
      wrap32 (Z.quot (Z.shiftr (hclk_freq m) 3) (SYSTICK_FREQ K)) in
    (if decide (reload_val > SysTick_LOAD_RELOAD_Msk) then
       LOG_E TAG "Oversized systick reload value" ;;
       exit ERR_BADPARAM
     else ret tt) ;;
    modify (λ m, with_SysTick
                   (wrap32 (reload_val - 1))
                   (SETBITS (SysTick_CTRL m)
                      (Z.lor SysTick_CTRL_TICKINT_Msk SysTick_CTRL_ENABLE_Msk))
                   m).

(** The fields lines 95-132 of [task_create] settle: priority, name,
    [stack_end], [stack_allocated] and [stack_start]. *)
Definition tcb_fields : Type := (nat * string * Z * bool * Z)%type.

(** The stores of [initialize_task_stack] carried out on memory (lines
    464-483), for the stack from [s_end] to [s_start].  A store outside the
    stack is a write outside the object the pointer was made from, and a
    store into a control block overwrites fields this model keeps apart
    from memory: both are undefined here. *)
Definition store_frame (s_end s_start : Z) (ws : list (Z * Z)) : M unit :=
  λ m, if decide (frame_ok (sizeof_task_status_t K) (tcbs m) s_end s_start ws)
       then Ret tt (with_ram (write_words ws) m)
       else Undefined.

(** [task_create] (lines 83-154).  The block [malloc] returns is
    uninitialised; the control block appears in [tcbs] once line 137 has
    assigned its last field. *)
Definition task_create (entry arg : Z) (cfg : option task_config_t) : M Z :=
  if decide (entry = NULL) then ret NULL
  else
    do task <- malloc (sizeof_task_status_t K);
    if decide (task = NULL) then ret NULL
    else
      do fields <-
        match cfg return M (option tcb_fields) with
        | None =>
            do s_end <- malloc (DEFAULT_STACKSIZE K);
            if decide (s_end = NULL) then free task ;; ret None
            else
              ret (Some (DEFAULT_PRIORITY K, EmptyString, s_end, true,
                         s_end + (DEFAULT_STACKSIZE K - 1)))
        | Some cfg =>
            (* cfg->task_priority > RTOS_PRIORITY_COUNT *)
            if decide (P < task_priority cfg)%nat then ret None
            else
              do stack <-
                (if decide (task_stack cfg ≠ NULL) then
                   ret (Some (task_stack cfg, false))
                 else
                   do s_end <- malloc (task_stacksize cfg);
                   if decide (s_end = NULL) then free task ;; ret None
                   else ret (Some (s_end, true)));
              match stack return M (option tcb_fields) with
              | None => ret None
              | Some (s_end, allocated) =>
                  ret (Some (task_priority cfg,
                             default EmptyString (task_name cfg),
                             s_end, allocated,
                             s_end + (task_stacksize cfg - 1)))
              end
        end;
      match fields with
      | None => ret NULL
      | Some (prio, nm, s_end, allocated, s_start) =>
          let s := initialize_task_stack (task_exithandler K)
                     s_start entry arg in
          modify (with_tcbs
            (<[task := mk_task_status s.1 s_start s_end entry arg
                         TASK_READY nm allocated (BLOCK_NONE K) prio]>)) ;;
          store_frame s_end s_start s.2 ;;
          do r <- load_ready prio;
          store_ready prio (list_append r task) ;;
          do r <- load_ready prio;
          if decide (r = []) then
            LOG_E TAG "Could not append new task to ready list" ;;
            free task ;;
            do t <- load_tcb task;
            (if stack_allocated t then free (stack_start t) else ret tt) ;;
            ret NULL
          else ret task
      end.

(** [task_yield] (lines 185-190). *)
Definition task_yield : M unit :=
  do m <- get;
  store_tcb (active_task m) (set_state TASK_READY) ;;
  set_pendsv.

(** [get_active_task] (line 231). *)
Definition get_active_task : M Z :=
  do m <- get; ret (active_task m).

(** [block_active_task] (lines 238-246). *)
Definition block_active_task (reason : block_reason_t) : M unit :=
  do m <- get;
  store_tcb (active_task m) (set_state TASK_BLOCKED) ;;
  store_tcb (active_task m) (set_blockcause reason) ;;
  set_pendsv.

(** [unblock_task] (lines 256-271). *)
Definition unblock_task (task : Z) (reason : block_reason_t) : M unit :=
  do tsk <- load_tcb task;
  if decide (state tsk ≠ TASK_BLOCKED ∨ blockcause tsk ≠ reason) then ret tt
  else
    store_tcb task (set_state TASK_READY) ;;
    store_tcb task (set_blockcause (BLOCK_NONE K)) ;;
    modify (λ m, with_blocked (list_remove (blocked_tasks m) task) m) ;;
    do r <- load_ready (priority tsk);
    store_ready (priority tsk) (list_append r task).

(** The exception return that ends the handler: the stack pointer saved in
    the active control block is loaded and thread mode resumes there. *)
Definition exception_return : M unit :=
  λ m, match tcbs m !! active_task m with
       | Some _ => Dispatched m
       | None => Undefined
       end.

(** The C calls of [SVCallHandler] (lines 280-309), in order; the register
    moves of its assembly are left out. *)
Definition SVCallHandler : M unit :=
  select_active_task ;;
  enable_systick ;;
  exception_return.

(** What the instruction [svc 0] of [trigger_svcall] (line 531) does is
    decided by the vector table and the handler installed there; the two
    functions that execute it take it as [trigger_svcall]. *)
Section Svc.

Variable trigger_svcall : M unit.

(** [rtos_start] (lines 163-179). *)
Definition rtos_start : M unit :=
  let idle_task_cfg :=
    mk_task_config (task_stack (DEFAULT_TASK_CONFIG K))
      (IDLE_TASK_STACK_SIZE K) (Some IDLE_TASK_NAME) (IDLE_TASK_PRIORITY K) in
  do idle_task <- task_create (idle_entry K) NULL (Some idle_task_cfg);
  (if decide (idle_task = NULL) then
     LOG_E TAG "Could not create idle task" ;;
     exit ERR_SCHEDULER
   else ret tt) ;;
  trigger_svcall ;;
  LOG_E TAG "Scheduler returned without starting RTOS" ;;
  exit ERR_SCHEDULER.

(** [task_destroy] (lines 196-225).  [list_append] at line 204 links the
    node [tsk->list_state], a field of the control block, into the exited
    list: the control block is accessed. *)
Definition task_destroy (task : Z) : M unit :=
  do m <- get;
  if decide (task = active_task m) then
    load_tcb task ;;
    modify (λ m, with_exited (list_append (exited_tasks m) task) m) ;;
    modify (with_active NULL) ;;
    trigger_svcall
  else
    do tsk <- load_tcb task;
    (if decide (state tsk = TASK_BLOCKED) then
       modify (λ m, with_blocked (list_remove (blocked_tasks m) task) m)
     else if decide (state tsk = TASK_READY) then
       do r <- load_ready (priority tsk);
       store_ready (priority tsk) (list_remove r task)
     else
       LOG_W TAG "Inactive destroyed task is not in blocked or ready list") ;;
    (if stack_allocated tsk then free (stack_end tsk) else ret tt) ;;
    free task.

End Svc.

End Task.

(** ** The rest of task.c *)

Section TaskRest.

Context (K : config).

(** [LOG_MIN(level, tag, msg)] of [util/logging/logging.h]. *)
Definition LOG_MIN (lvl : loglevel) (tag msg : string) : M unit :=
  log lvl tag msg.

(** [SysTickHandler] (lines 361-367): its body is a comment. *)
Definition SysTickHandler : M unit := ret tt.

(** The body of the reaping loop of [idle_entry] (lines 507-514). *)
Definition reap_task : M unit :=
  do m <- get;
  let task := list_get_head (exited_tasks m) in
  modify (λ m, with_exited (list_remove (exited_tasks m) task) m) ;;
  LOG_MIN SYSLOGLEVEL_DEBUG TAG "Reaping task" ;;
  do t <- load_tcb task;
  (if stack_allocated t then free (stack_end t) else ret tt) ;;
  free task.

(** The loop [while (exited_tasks != NULL)] of lines 506-515, [fuel]
    iterations at most; [None] when they do not suffice. *)
Fixpoint reap_exited_tasks (fuel : nat) (m : machine) : option (result unit) :=
  if decide (exited_tasks m ≠ []) then
    match fuel with
    | O => None
    | S fuel' =>
        match reap_task m with
        | Ret _ m' => reap_exited_tasks fuel' m'
        | Exit code m' => Some (Exit code m')
        | Dispatched m' => Some (Dispatched m')
        | Undefined => Some Undefined
        end
    end
  else Some (Ret tt m).



End TaskRest.

(** ** The restore sequence of the handlers *)

(** A [uint32_t * ] stepped up by one word. *)
Definition ptr_inc (p : Z) : Z := wrap32 (p + 4).

(** [n] words read upwards from [p], lowest address first: what a load
    multiple with write-back reads. *)
Fixpoint load_words (r : gmap Z Z) (p : Z) (n : nat) : option (list Z) :=
  match n with
  | O => Some []
  | S n' =>
      match r !! p with
      | Some w =>
          match load_words r (ptr_inc p) n' with
          | Some ws => Some (w :: ws)
          | None => None
          end
      | None => None
      end
  end.

(** The registers a task resumes with. *)
Record cpu_context : Type := mk_cpu_context {
  R4 : Z; R5 : Z; R6 : Z; R7 : Z; R8 : Z; R9 : Z; R10 : Z; R11 : Z;
  EXC_RETURN : Z;
  R0 : Z; R1 : Z; R2 : Z; R3 : Z; R12 : Z; LR : Z; PC : Z; xPSR : Z
}.

(** The end of [SVCallHandler] and [PendSVHandler] (lines 299-306 and
    342-348): [ldmfd rN!, {r4-r11, lr}] pops nine words from the saved stack
    pointer, the pointer so advanced becomes the process stack pointer, and
    [bx lr] with the value 0xFFFFFFFD returns to thread mode, where the
    exception return pops the eight words of the order given at lines
    459-463 from the process stack. *)
Definition restore_context (r : gmap Z Z) (stack_ptr : Z)
  : option cpu_context :=
  match load_words r stack_ptr 17 with
  | Some [r4; r5; r6; r7; r8; r9; r10; r11; lr;
          r0; r1; r2; r3; r12; lr'; pc; psr] =>
      if decide (lr = INITIAL_EXEC_RETURN) then
        Some (mk_cpu_context r4 r5 r6 r7 r8 r9 r10 r11 lr
                r0 r1 r2 r3 r12 lr' pc psr)
      else None
  | _ => None
  end.

(** ** The program break ([drivers/sys/syscalls.c], lines 30 and 50-62) *)

Module Syscalls.

(** [(void * )-1]. *)
Definition SBRK_FAILED : Z := wrap32 (-1).

(** [_sbrk] with the break [current_sbrk] as explicit state: the result and
    the break it leaves.  [SYSHEAPSIZE] is the macro of config.h
    (lines 62-64). *)
Definition _sbrk (SYSHEAPSIZE : Z) (incr : Z) (current_sbrk : Z) : Z * Z :=
  if decide (SYSHEAPSIZE ≠ 0) then
    let old_brk := current_sbrk in
    (old_brk, wrap32 (current_sbrk + incr))
  else (SBRK_FAILED, current_sbrk).

(** Calls of [_sbrk] in a row: the results, and the break at the end. *)
Fixpoint sbrk_calls (SYSHEAPSIZE : Z) (incrs : list Z) (current_sbrk : Z)
  : list Z * Z :=
  match incrs with
  | [] => ([], current_sbrk)
  | incr :: rest =>
      let '(p, b) := _sbrk SYSHEAPSIZE incr current_sbrk in
      let '(ps, b') := sbrk_calls SYSHEAPSIZE rest b in
      (p :: ps, b')
  end.

End Syscalls.

(** ** Specification vocabulary *)

(** The address of the [k]-th word below the aligned stack pointer [a]. *)
Definition frame_slot (a k : Z) : Z := wrap32 (a - 4 * k).

(** ** Concrete configurations and machine states *)

(** Four priority levels; the idle task at priority 0, a tick of 200 Hz. *)
Definition K4 : config :=
  mk_config 4 1 256 0 128 200 (mk_task_config NULL 256 None 1) 0 44
    0x08000101 0x08000201.

(** A control block with a caller-supplied stack. *)
Definition tcb_demo (st : task_state_t) (cause : block_reason_t) (prio : nat)
  : task_status_t :=
  mk_task_status 0x20000FC0 0x20000FFF 0x20000F00 0x08000301 0 st EmptyString
    false cause prio.

(** Nothing created yet; an 80 MHz clock. *)
Definition m_boot : machine :=
  mk_machine ∅ ∅ [] [] NULL [[]; []; []; []] [] [] 0 0 0 80000000 [].

(** The lists a control block can be chained into. *)
Inductive list_id : Type :=
| Ready (p : nat)
| Blocked
| Exited.

Definition list_of (m : machine) (l : list_id) : list_t :=
  match l with
  | Ready p => default [] (ready_tasks m !! p)
  | Blocked => blocked_tasks m
  | Exited => exited_tasks m
  end.

(** Every item chained into some list, queue by queue. *)
Definition members (m : machine) : list Z :=
  concat (ready_tasks m) ++ blocked_tasks m ++ exited_tasks m.

(** The state the scheduler keeps between calls: one ready queue per
    priority level and at least one level; no block chained twice; a block
    in the ready queue at [p] is a control block of priority [p]; the active
    task, if there is one, is a control block of a priority in range that is
    chained nowhere. *)
Record sched_wf (K : config) (m : machine) : Prop := mk_sched_wf {
  wf_count : length (ready_tasks m) = RTOS_PRIORITY_COUNT K;
  wf_positive : (0 < RTOS_PRIORITY_COUNT K)%nat;
  wf_nodup : NoDup (members m);
  wf_ready : ∀ p q t, ready_tasks m !! p = Some q → t ∈ q →
    ∃ tcb, tcbs m !! t = Some tcb ∧ priority tcb = p;
  wf_active : active_task m ≠ NULL →
    (active_task m ∉ members m) ∧
    ∃ a, tcbs m !! active_task m = Some a ∧
         (priority a < RTOS_PRIORITY_COUNT K)%nat
}.

(** No ready queue above the active task's priority holds a task. *)
Definition higher_queues_empty (m : machine) : Prop :=
  ∀ a p q, tcbs m !! active_task m = Some a → (priority a < p)%nat →
           ready_tasks m !! p = Some q → q = [].

(** The previous active task goes to the blocked list. *)
Definition prev_blocked (m : machine) : bool :=
  bool_decide (active_task m ≠ NULL) &&
  match tcbs m !! active_task m with
  | Some a => bool_decide (state a = TASK_BLOCKED)
  | None => false
  end.

(** The previous active task goes to the ready queue at [p]. *)
Definition prev_requeued_at (m : machine) (p : nat) : bool :=
  bool_decide (active_task m ≠ NULL) &&
  match tcbs m !! active_task m with
  | Some a => bool_decide (state a ≠ TASK_BLOCKED ∧ priority a = p)
  | None => false
  end.

Arguments prev_blocked : simpl never.
Arguments prev_requeued_at : simpl never.

(** Tasks 100 (priority 3, running), 200 (priority 1, ready), 300 (the idle
    task, ready) and 400 (priority 2, blocked for cause 7). *)
Definition m_run : machine :=
  mk_machine
    (<[100 := tcb_demo TASK_ACTIVE 0 3]>
       (<[200 := tcb_demo TASK_READY 0 1]>
          (<[300 := tcb_demo TASK_READY 0 0]>
             (<[400 := tcb_demo TASK_BLOCKED 7 2]> ∅))))
    ∅ [100; 200; 300; 400] [] 100 [[300]; [200]; []; []] [400] []
    0 0 0 80000000 [].

(** [m_run] once task 100 has called [task_yield]. *)
Definition m_yield : machine :=
  with_ICSR (SETBITS 0 SCB_ICSR_PENDSVSET_Msk)
    (with_tcbs (<[100 := tcb_demo TASK_READY 0 3]>) m_run).

(** The idle task alone, having called [task_yield]. *)
Definition m_idle : machine :=
  mk_machine (<[300 := tcb_demo TASK_READY 0 0]> ∅)
    ∅ [300] [] 300 [[]; []; []; []] [] []
    (SETBITS 0 SCB_ICSR_PENDSVSET_Msk) 0 0 80000000 [].

(** A tick of 1 Hz, and a clock of 160 MHz. *)
Definition K1 : config :=
  mk_config 4 1 256 0 128 1 (mk_task_config NULL 256 None 1) 0 44
    0x08000101 0x08000201.

Definition m_fast : machine :=
  mk_machine ∅ ∅ [] [] NULL [[]; []; []; []] [] [] 0 0 0 160000000 [].

(** ** Comparing control blocks and machines *)

(** Control blocks that differ in the state and the block cause at most. *)
Definition same_but_state_cause (x y : task_status_t) : Prop :=
  stack_ptr y = stack_ptr x ∧ stack_start y = stack_start x ∧
  stack_end y = stack_end x ∧ entry y = entry x ∧ arg y = arg x ∧
  name y = name x ∧ stack_allocated y = stack_allocated x ∧
  priority y = priority x.

(** Control blocks that differ in the state at most. *)
Definition same_but_state (x y : task_status_t) : Prop :=
  same_but_state_cause x y ∧ blockcause y = blockcause x.

(** Machines that differ in the control blocks and the pending-interrupt
    register at most. *)
Definition same_but_tcbs_ICSR (m m' : machine) : Prop :=
  active_task m' = active_task m ∧ ready_tasks m' = ready_tasks m ∧
  blocked_tasks m' = blocked_tasks m ∧ exited_tasks m' = exited_tasks m ∧
  heap_live m' = heap_live m ∧ malloc_oracle m' = malloc_oracle m ∧
  ram m' = ram m ∧ SysTick_LOAD m' = SysTick_LOAD m ∧
  SysTick_CTRL m' = SysTick_CTRL m ∧ hclk_freq m' = hclk_freq m ∧
  trace m' = trace m.

(** ** Invariants of the scheduler state *)

(** What holds of the control blocks and the allocator, whatever the lists:
    no block at the null address; priorities in range; a control block, and
    the stack allocated for it, are live blocks; a stack is not a control
    block, and two control blocks do not share an allocated stack. *)
Record tcbs_inv (K : config) (m : machine) : Prop := mk_tcbs_inv {
  inv_null : tcbs m !! NULL = None;
  inv_prio : ∀ t tcb, tcbs m !! t = Some tcb →
    (priority tcb < RTOS_PRIORITY_COUNT K)%nat;
  inv_live : ∀ t tcb, tcbs m !! t = Some tcb → t ∈ heap_live m;
  inv_stack : ∀ t tcb, tcbs m !! t = Some tcb → stack_allocated tcb = true →
    stack_end tcb ∈ heap_live m ∧ tcbs m !! stack_end tcb = None;
  inv_stack_inj : ∀ t u tcb tcb',
    tcbs m !! t = Some tcb → tcbs m !! u = Some tcb' →
    stack_allocated tcb = true → stack_allocated tcb' = true →
    stack_end tcb = stack_end tcb' → t = u
}.

(** The state of the scheduler between two operations: it is well formed;
    every chained block is a control block; a control block other than the
    active task's is READY exactly when it is chained into the ready queue
    at its priority, and BLOCKED exactly when it is chained into the blocked
    list. *)
Record sched_inv (K : config) (m : machine) : Prop := mk_sched_inv {
  inv_wf : sched_wf K m;
  inv_tcbs : tcbs_inv K m;
  inv_tcb : ∀ t, t ∈ members m → is_Some (tcbs m !! t);
  inv_ready : ∀ t tcb, tcbs m !! t = Some tcb → t ≠ active_task m →
    (state tcb = TASK_READY ↔ t ∈ list_of m (Ready (priority tcb)));
  inv_blocked : ∀ t tcb, tcbs m !! t = Some tcb → t ≠ active_task m →
    (state tcb = TASK_BLOCKED ↔ t ∈ blocked_tasks m)
}.

#[global] Instance list_id_eq_dec : EqDecision list_id.
Proof. solve_decision. Defined.

(** How one operation changes the lists: the block [rem], if any, leaves
    every list, and the block of [add], if any, joins the tail of the list
    named with it. *)
Definition lists_moved (m m' : machine) (rem : option Z)
    (add : option (Z * list_id)) : Prop :=
  ∀ L, list_of m' L =
         filter (λ x, Some x ≠ rem) (list_of m L) ++
         match add with
         | Some (y, tgt) => if decide (L = tgt) then [y] else []
         | None => []
         end.

(** Where [select_active_task] chains the previous active task when it
    dispatches another: into the blocked list when its state is BLOCKED,
    into the ready queue at its priority otherwise. *)
Definition reparented (m : machine) : option (Z * list_id) :=
  match tcbs m !! active_task m with
  | Some a =>
      if decide (active_task m ≠ NULL) then
        Some (active_task m,
              if decide (state a = TASK_BLOCKED) then Blocked
              else Ready (priority a))
      else None
  | None => None
  end.

(** Control blocks that differ in state and block cause at most. *)
Definition same_static (x y : task_status_t) : Prop :=
  priority x = priority y ∧ stack_end x = stack_end y ∧
  stack_allocated x = stack_allocated y.

(** Two machines with the same control blocks up to state and block cause. *)
Definition tcbs_agree (m m' : machine) : Prop :=
  ∀ u, option_Forall2 same_static (tcbs m !! u) (tcbs m' !! u).

(** The allocator's side of the contract for one call of [task_create]: the
    blocks its next two calls return, when not null, are not live and are
    two blocks. *)
Definition malloc_fresh (m : machine) : Prop :=
  let next := filter (λ p, p ≠ NULL) (take 2 (malloc_oracle m)) in
  NoDup next ∧ Forall (λ p, p ∉ heap_live m) next.

(** The state of the active task's control block, if there is one. *)
Definition active_state (m : machine) : option task_state_t :=
  state <$> tcbs m !! active_task m.

(** One operation of the task subsystem that returns, with the scheduler
    pass it causes: creating a task, the allocator handing out fresh blocks;
    yielding or blocking, then the context switch; unblocking a task other
    than the active one; destroying a READY or BLOCKED task other than the
    active one; leaving (the active task, its state ACTIVE, destroys itself
    and the scheduler pass picks a successor); the idle task's reaping loop
    run to its end. *)
Inductive sched_step (K : config) : machine → machine → Prop :=
| step_create (entry arg : Z) (cfg : option task_config_t) (m m' : machine)
    (task : Z) :
    malloc_fresh m →
    task_create K entry arg cfg m = Ret task m' →
    sched_step K m m'
| step_yield (m m' : machine) :
    (task_yield ;; select_active_task K) m = Ret tt m' →
    sched_step K m m'
| step_block (reason : Z) (m m' : machine) :
    (block_active_task reason ;; select_active_task K) m = Ret tt m' →
    sched_step K m m'
| step_unblock (task reason : Z) (m m' : machine) :
    task ≠ active_task m →
    unblock_task K task reason m = Ret tt m' →
    sched_step K m m'
| step_destroy (task : Z) (tsk : task_status_t) (m m' : machine) :
    task ≠ active_task m →
    tcbs m !! task = Some tsk →
    state tsk = TASK_READY ∨ state tsk = TASK_BLOCKED →
    task_destroy (ret tt) task m = Ret tt m' →
    sched_step K m m'
| step_leave (m m' : machine) :
    active_state m = Some TASK_ACTIVE →
    task_destroy (select_active_task K) (active_task m) m = Ret tt m' →
    sched_step K m m'
| step_reap (fuel : nat) (m m' : machine) :
    reap_exited_tasks fuel m = Some (Ret tt m') →
    sched_step K m m'.

(** Operations in a row. *)
Inductive sched_steps (K : config) : machine → machine → Prop :=
| steps_refl (m : machine) : sched_steps K m m
| steps_step (m1 m2 m3 : machine) :
    sched_step K m1 m2 → sched_steps K m2 m3 → sched_steps K m1 m3.

(** The blocks the reaping loop of [idle_entry] frees: the control blocks on
    the exited list and the stacks allocated for them. *)
Definition reaped (m : machine) (p : Z) : Prop :=
  p ∈ exited_tasks m ∨
  ∃ t tsk, t ∈ exited_tasks m ∧ tcbs m !! t = Some tsk ∧
           stack_allocated tsk = true ∧ stack_end tsk = p.

(** A computation keeps the component [f] of the machine: however it ends,
    [f] reads as before. *)
Definition keeps {A B : Type} (f : machine → B) (c : M A) : Prop :=
  ∀ m, match c m with
       | Ret _ m' | Exit _ m' | Dispatched m' => f m' = f m
       | Undefined => True
       end.

(** ** More concrete machine states *)

(** The machine a computation leaves. *)
Definition after {A : Type} (c : M A) (m : machine) : machine :=
  match c m with
  | Ret _ m' | Exit _ m' | Dispatched m' => m'
  | Undefined => m
  end.

(** [m_run] with two blocks, 500 and 600, for the allocator to hand out. *)
Definition m_alloc : machine := with_heap (heap_live m_run) [500; 600] m_run.

(** [m_alloc] once a task has been created with the default configuration. *)
Definition m_created : machine :=
  after (task_create K4 0x08000401 7 None) m_alloc.

(** [m_run] once task 100 has destroyed itself and the scheduler has picked
    a successor. *)
Definition m_left : machine :=
  after (task_destroy (select_active_task K4) 100) m_run.

(** The idle task alone, running. *)
Definition m_last : machine :=
  with_tcbs (<[300 := tcb_demo TASK_ACTIVE 0 0]>) m_idle.

(** Before [rtos_start]: nothing created, two blocks for the allocator. *)
Definition m_cold : machine := with_heap [] [100; 200] m_boot.

(** [m_cold] once [rtos_start] has created the idle task. *)
Definition m_cold_idle : machine :=
  after (task_create K4 (idle_entry K4) NULL
           (Some (mk_task_config (task_stack (DEFAULT_TASK_CONFIG K4))
                    (IDLE_TASK_STACK_SIZE K4) (Some IDLE_TASK_NAME)
                    (IDLE_TASK_PRIORITY K4)))) m_cold.

(** * Properties *)

(** Membership hypotheses over literal lists, case by case. *)
Ltac solve_elem :=
  repeat first
    [ progress simplify_eq
    | match goal with
      | H : _ ∈ [] |- _ => by apply elem_of_nil in H
      | H : _ ∈ _ :: _ |- _ => apply elem_of_cons in H as [H|H]
      end ].


(** ** The stack initializer *)

Lemma align_loop_enough (n : nat) (sp : Z) :
  (3 ≤ n)%nat → align_loop n sp = sp - sp mod 4.
Proof.
  intros Hn.
  destruct n as [|[|[|n]]]; [lia..|].
  simpl.
  repeat case_decide; try (destruct n; simpl; repeat case_decide);
    Z.div_mod_to_equations; lia.
Qed.

Lemma ptr_dec_wrap32 (a : Z) : ptr_dec (wrap32 a) = wrap32 (a - 4).
Proof. unfold ptr_dec, wrap32. by rewrite Zminus_mod_idemp_l. Qed.

Lemma store_dec_pair (v p : Z) (w : list (Z * Z)) :
  store_dec v (p, w) = (ptr_dec p, w ++ [(p, v)]).
Proof. reflexivity. Qed.

Lemma frame_slot_0 (sp : Z) :
  0 ≤ sp < 2 ^ 32 → frame_slot (sp - sp mod 4) 0 = sp - sp mod 4.
Proof.
  intros Hsp. unfold frame_slot, wrap32.
  change (2 ^ 32) with 4294967296 in *.
  rewrite (Z.mod_small (_ - 4 * 0)); [lia|]. Z.div_mod_to_equations; lia.
Qed.

Lemma frame_slot_no_wrap (a k : Z) :
  0 ≤ k → 4 * k ≤ a < 2 ^ 32 → frame_slot a k = a - 4 * k.
Proof.
  intros Hk Ha. unfold frame_slot, wrap32.
  change (2 ^ 32) with 4294967296 in *. apply Z.mod_small. lia.
Qed.

(** C8, as amended.  For every 32-bit initial stack pointer the initializer
    rounds it down to a 4-byte boundary [a] (the loop is over after three
    steps at most) and then stores a frame of 17 words, at [a], [a - 4], ...,
    [a - 64]: the status word with the Thumb bit (bit 24) set, the entry
    function as return address, the exit trampoline in the link-register
    slot, four scratch sentinels, the argument in the register-0 slot, the
    exception-return value 0xFFFFFFFD, and eight callee-saved sentinels.  The
    pointer returned is the address of the last store, the lowest of the
    frame. *)
Theorem initialize_task_stack_frame (exithandler sp pc a0 : Z) :
  0 ≤ sp < 2 ^ 32 →
  let a := sp - sp mod 4 in
  let slot := frame_slot a in
  (a mod 4 = 0 ∧ sp - 3 ≤ a ≤ sp ∧ ∀ n, (3 ≤ n)%nat → align_loop n sp = a) ∧
  initialize_task_stack exithandler sp pc a0 =
    (slot 16,
     [ (slot 0, 0x01000000); (slot 1, pc); (slot 2, exithandler);
       (slot 3, 0x12121212); (slot 4, 0x03030303); (slot 5, 0x02020202);
       (slot 6, 0x01010101); (slot 7, a0); (slot 8, 0xFFFFFFFD);
       (slot 9, 0x11111111); (slot 10, 0x10101010); (slot 11, 0x09090909);
       (slot 12, 0x08080808); (slot 13, 0x07070707); (slot 14, 0x06060606);
       (slot 15, 0x05050505); (slot 16, 0x04040404) ]) ∧
  Z.testbit 0x01000000 24 = true ∧
  (64 ≤ a → ∀ k, 0 ≤ k ≤ 16 → slot k = a - 4 * k).
Proof.
  intros Hsp a slot.
  assert (Hs : ∀ k, ptr_dec (slot k) = slot (k + 1)).
  { intros k. unfold slot, frame_slot. rewrite ptr_dec_wrap32. f_equal. lia. }
  split; [|split; [|split]].
  - subst a. split; [|split].
    + Z.div_mod_to_equations; lia.
    + Z.div_mod_to_equations; lia.
    + intros n Hn. by apply align_loop_enough.
  - unfold initialize_task_stack. cbv zeta.
    rewrite align_loop_enough by lia.
    fold a. replace a with (slot 0) by (by apply frame_slot_0).
    rewrite !store_dec_pair, !Hs. reflexivity.
  - reflexivity.
  - intros Ha k Hk. apply frame_slot_no_wrap; [lia|].
    subst a. change (2 ^ 32) with 4294967296 in *.
    Z.div_mod_to_equations; lia.
Qed.

Lemma initialize_task_stack_frame_witness :
  0 ≤ 0x20000FFF < 2 ^ 32 ∧
  initialize_task_stack 0x08000101 0x20000FFF 0x08000301 7 =
    (0x20000FBC,
     [ (0x20000FFC, 0x01000000); (0x20000FF8, 0x08000301);
       (0x20000FF4, 0x08000101); (0x20000FF0, 0x12121212);
       (0x20000FEC, 0x03030303); (0x20000FE8, 0x02020202);
       (0x20000FE4, 0x01010101); (0x20000FE0, 7);
       (0x20000FDC, 0xFFFFFFFD); (0x20000FD8, 0x11111111);
       (0x20000FD4, 0x10101010); (0x20000FD0, 0x09090909);
       (0x20000FCC, 0x08080808); (0x20000FC8, 0x07070707);
       (0x20000FC4, 0x06060606); (0x20000FC0, 0x05050505);
       (0x20000FBC, 0x04040404) ]).
Proof.
  assert (H : 0 ≤ 0x20000FFF < 2 ^ 32) by (change (2 ^ 32) with 4294967296; lia).
  split; [exact H|].
  exact (proj1 (proj2
    (initialize_task_stack_frame 0x08000101 0x20000FFF 0x08000301 7 H))).
Defined.

(** C8, as stated, fails: the frame the initializer writes has 17 words,
    not 16. *)
Lemma initialize_task_stack_frame_not_16_words :
  length (initialize_task_stack 0x08000101 0x20001000 0x08000301 7).2
    ≠ 16%nat.
Proof. vm_compute. discriminate. Qed.

(** ** Yielding, blocking and unblocking *)

Lemma testbit_pendsv (x : Z) :
  Z.testbit (SETBITS x SCB_ICSR_PENDSVSET_Msk) 28 = true.
Proof.
  unfold SETBITS, SCB_ICSR_PENDSVSET_Msk.
  rewrite Z.lor_spec, Z.pow2_bits_true by lia. apply orb_true_r.
Qed.

Lemma testbit_pendsv_other (x n : Z) :
  0 ≤ n → n ≠ 28 →
  Z.testbit (SETBITS x SCB_ICSR_PENDSVSET_Msk) n = Z.testbit x n.
Proof.
  intros Hn Hne. unfold SETBITS, SCB_ICSR_PENDSVSET_Msk.
  rewrite Z.lor_spec, Z.pow2_bits_false by lia. apply orb_false_r.
Qed.

(** C10.  [task_yield] and [block_active_task] read and write the active
    task's control block without a test.  When the active pointer refers to
    a control block both return.  In the machine [task_yield] returns the
    active task's control block has the state READY and every other field as
    before; in the one [block_active_task] returns it has the state BLOCKED,
    the cause given, and every other field as before.  In both, bit 28 of
    ICSR (the pendable-service bit) is set and every other bit is as
    before, every other control block is as before, and so are the active
    pointer, the lists, memory, the allocator, the tick timer and the log.
    When the active pointer refers to no control block (the null pointer
    before [rtos_start] or after a self-destruction) the dereference is
    undefined behaviour. *)
Theorem task_yield_block_active_task (m : machine) (reason : block_reason_t) :
  match tcbs m !! active_task m with
  | Some t =>
      task_yield m =
        Ret tt (with_ICSR (SETBITS (SCB_ICSR m) SCB_ICSR_PENDSVSET_Msk)
                  (with_tcbs (λ _, <[active_task m := set_state TASK_READY t]>
                                     (tcbs m)) m)) ∧
      block_active_task reason m =
        Ret tt (with_ICSR (SETBITS (SCB_ICSR m) SCB_ICSR_PENDSVSET_Msk)
                  (with_tcbs (λ _, <[active_task m :=
                                       set_blockcause reason
                                         (set_state TASK_BLOCKED t)]>
                                     (tcbs m)) m)) ∧
      state (set_state TASK_READY t) = TASK_READY ∧
      state (set_blockcause reason (set_state TASK_BLOCKED t)) = TASK_BLOCKED ∧
      blockcause (set_blockcause reason (set_state TASK_BLOCKED t)) = reason ∧
      Z.testbit (SETBITS (SCB_ICSR m) SCB_ICSR_PENDSVSET_Msk) 28 = true ∧
      (∃ m' t', task_yield m = Ret tt m' ∧
         tcbs m' !! active_task m = Some t' ∧
         state t' = TASK_READY ∧ same_but_state t t' ∧
         (∀ u, u ≠ active_task m → tcbs m' !! u = tcbs m !! u) ∧
         Z.testbit (SCB_ICSR m') 28 = true ∧
         (∀ n, 0 ≤ n → n ≠ 28 →
               Z.testbit (SCB_ICSR m') n = Z.testbit (SCB_ICSR m) n) ∧
         same_but_tcbs_ICSR m m') ∧
      (∃ m' t', block_active_task reason m = Ret tt m' ∧
         tcbs m' !! active_task m = Some t' ∧
         state t' = TASK_BLOCKED ∧ blockcause t' = reason ∧
         same_but_state_cause t t' ∧
         (∀ u, u ≠ active_task m → tcbs m' !! u = tcbs m !! u) ∧
         Z.testbit (SCB_ICSR m') 28 = true ∧
         (∀ n, 0 ≤ n → n ≠ 28 →
               Z.testbit (SCB_ICSR m') n = Z.testbit (SCB_ICSR m) n) ∧
         same_but_tcbs_ICSR m m')
  | None =>
      task_yield m = Undefined ∧ block_active_task reason m = Undefined
  end.
Proof.
  destruct (tcbs m !! active_task m) as [t|] eqn:Ht.
  - assert (Hy : task_yield m =
        Ret tt (with_ICSR (SETBITS (SCB_ICSR m) SCB_ICSR_PENDSVSET_Msk)
                  (with_tcbs (λ _, <[active_task m := set_state TASK_READY t]>
                                     (tcbs m)) m))).
    { unfold task_yield, bind, get, store_tcb, set_pendsv, modify.
      rewrite Ht. reflexivity. }
    assert (Hb : block_active_task reason m =
        Ret tt (with_ICSR (SETBITS (SCB_ICSR m) SCB_ICSR_PENDSVSET_Msk)
                  (with_tcbs (λ _, <[active_task m :=
                                       set_blockcause reason
                                         (set_state TASK_BLOCKED t)]>
                                     (tcbs m)) m))).
    { unfold block_active_task, bind, get, store_tcb, set_pendsv, modify.
      rewrite Ht. simpl. rewrite lookup_insert_eq. simpl.
      unfold with_ICSR, with_tcbs. simpl. by rewrite insert_insert_eq. }
    split; [exact Hy|]. split; [exact Hb|]. do 3 (split; [reflexivity|]).
    split; [apply testbit_pendsv|]. split.
    + eexists _, _. split; [exact Hy|].
      cbn [tcbs SCB_ICSR with_ICSR with_tcbs].
      split; [apply lookup_insert_eq|]. split; [reflexivity|].
      split; [by repeat split|]. split.
      { intros u Hu. by apply lookup_insert_ne. }
      split; [apply testbit_pendsv|]. split.
      { intros n Hn Hne. by apply testbit_pendsv_other. }
      by repeat split.
    + eexists _, _. split; [exact Hb|].
      cbn [tcbs SCB_ICSR with_ICSR with_tcbs].
      split; [apply lookup_insert_eq|]. split; [reflexivity|].
      split; [reflexivity|]. split; [by repeat split|]. split.
      { intros u Hu. by apply lookup_insert_ne. }
      split; [apply testbit_pendsv|]. split.
      { intros n Hn Hne. by apply testbit_pendsv_other. }
      by repeat split.
  - unfold task_yield, block_active_task, bind, get, store_tcb.
    rewrite Ht. done.
Qed.

Lemma list_remove_not_elem (l : list_t) (x : Z) : x ∉ list_remove l x.
Proof. unfold list_remove. rewrite list_elem_of_filter. tauto. Qed.

Lemma list_remove_elem_ne (l : list_t) (x y : Z) :
  y ≠ x → y ∈ list_remove l x ↔ y ∈ l.
Proof. intros Hne. unfold list_remove. rewrite list_elem_of_filter. tauto. Qed.

(** C7.  [unblock_task] returns the machine exactly as it found it unless the
    target is BLOCKED and its recorded cause is the one given.  When the
    guard holds (and the target's priority indexes a ready queue), then in
    the machine returned the target's control block has the state READY, the
    cause [BLOCK_NONE] and every other field as before; the target has left
    the blocked list and joined the tail of the ready queue at its priority;
    the active pointer, the exited list, every other control block and every
    other task's membership are as they were. *)
Theorem unblock_task_guard (K : config) (m : machine) (task : Z)
    (reason : block_reason_t) (tsk : task_status_t) :
  tcbs m !! task = Some tsk →
  if decide (state tsk = TASK_BLOCKED ∧ blockcause tsk = reason) then
    ∀ q, ready_tasks m !! priority tsk = Some q →
      ∃ m', unblock_task K task reason m = Ret tt m' ∧
        tcbs m' = <[task := set_blockcause (BLOCK_NONE K)
                              (set_state TASK_READY tsk)]> (tcbs m) ∧
        blocked_tasks m' = list_remove (blocked_tasks m) task ∧
        (task ∉ blocked_tasks m') ∧
        (∀ u, u ≠ task → u ∈ blocked_tasks m' ↔ u ∈ blocked_tasks m) ∧
        ready_tasks m' = <[priority tsk := q ++ [task]]> (ready_tasks m) ∧
        ready_tasks m' !! priority tsk = Some (q ++ [task]) ∧
        active_task m' = active_task m ∧
        exited_tasks m' = exited_tasks m ∧
        SCB_ICSR m' = SCB_ICSR m ∧
        heap_live m' = heap_live m ∧
        (∃ tsk', tcbs m' !! task = Some tsk' ∧
           state tsk' = TASK_READY ∧ blockcause tsk' = BLOCK_NONE K ∧
           same_but_state_cause tsk tsk') ∧
        (∀ u, u ≠ task → tcbs m' !! u = tcbs m !! u)
  else unblock_task K task reason m = Ret tt m.
Proof.
  intros Ht. case_decide as Hg.
  - destruct Hg as [Hst Hc]. intros q Hq.
    assert (Hlt : (priority tsk < length (ready_tasks m))%nat)
      by (by eapply lookup_lt_Some).
    eexists. split.
    + unfold unblock_task, bind, load_tcb, store_tcb, modify, load_ready,
        store_ready. rewrite Ht.
      rewrite decide_False by (intros [?|?]; congruence).
      rewrite Ht. simpl. rewrite lookup_insert_eq. simpl. rewrite Hq.
      rewrite decide_True by done. reflexivity.
    + simpl. split; [by rewrite insert_insert_eq|]. split; [done|].
      split; [apply list_remove_not_elem|]. split.
      { intros u Hu. by apply list_remove_elem_ne. }
      split; [done|]. split; [by apply list_lookup_insert_eq|].
      do 4 (split; [done|]). split.
      * eexists. split; [apply lookup_insert_eq|].
        split; [reflexivity|]. split; [reflexivity|]. by repeat split.
      * intros u Hu. by rewrite !lookup_insert_ne.
  - unfold unblock_task, bind, load_tcb. rewrite Ht.
    rewrite decide_True; [done|].
    destruct (decide (state tsk = TASK_BLOCKED)); [|by left].
    destruct (decide (blockcause tsk = reason)); [|by right].
    exfalso. by apply Hg.
Qed.

(** ** Destroying a task *)

(** [task_destroy] on the active pointer when it refers to no control block
    (the null pointer, or a block freed since): the list node handed to
    [list_append] at line 204 lies in no live block, and the access is
    undefined behaviour. *)
Lemma task_destroy_active_no_block (trigger_svcall : M unit) (m : machine) :
  tcbs m !! active_task m = None →
  task_destroy trigger_svcall (active_task m) m = Undefined.
Proof.
  intros Hn. unfold task_destroy, bind, get, load_tcb.
  rewrite decide_True by done. by rewrite Hn.
Qed.

(** C3, as amended.  [task_destroy] on the active task, when the active
    pointer refers to a control block, appends it to the exited list, clears
    the active pointer and raises the start handler on the machine so
    changed; it writes no control block (the target's state field keeps its
    value) and frees nothing. *)
Theorem task_destroy_active (trigger_svcall : M unit) (m : machine) :
  is_Some (tcbs m !! active_task m) →
  let m1 := with_active NULL
              (with_exited (exited_tasks m ++ [active_task m]) m) in
  task_destroy trigger_svcall (active_task m) m = trigger_svcall m1 ∧
  exited_tasks m1 = exited_tasks m ++ [active_task m] ∧
  active_task m1 = NULL ∧
  tcbs m1 = tcbs m ∧
  ram m1 = ram m ∧
  heap_live m1 = heap_live m ∧
  ready_tasks m1 = ready_tasks m ∧
  blocked_tasks m1 = blocked_tasks m.
Proof.
  intros [a Ha] m1. repeat split.
  unfold task_destroy, bind, get, load_tcb, modify.
  rewrite decide_True by done. by rewrite Ha.
Qed.

(** C4.  [task_destroy] on a task other than the active one takes the target
    out of the blocked list if it is BLOCKED and out of the ready queue at
    its priority if it is READY, frees its stack exactly when the stack was
    allocated by [task_create], and frees the control block.  The active
    pointer, the exited list and every other task's membership of every list
    are unchanged. *)
Theorem task_destroy_inactive (trigger_svcall : M unit) (m : machine)
    (task : Z) (tsk : task_status_t) :
  task ≠ active_task m →
  tcbs m !! task = Some tsk →
  (state tsk = TASK_READY → priority tsk < length (ready_tasks m))%nat →
  ∃ m', task_destroy trigger_svcall task m = Ret tt m' ∧
    (* removal from the list its state names *)
    blocked_tasks m' =
      (if decide (state tsk = TASK_BLOCKED)
       then list_remove (blocked_tasks m) task else blocked_tasks m) ∧
    ready_tasks m' =
      (if decide (state tsk = TASK_READY)
       then <[priority tsk :=
                list_remove (default [] (ready_tasks m !! priority tsk)) task]>
              (ready_tasks m)
       else ready_tasks m) ∧
    (state tsk = TASK_BLOCKED → task ∉ blocked_tasks m') ∧
    (state tsk = TASK_READY →
       ∃ q, ready_tasks m' !! priority tsk = Some q ∧ task ∉ q) ∧
    (* the stack is freed exactly when it was allocated *)
    heap_live m' =
      filter (λ p, p ≠ task)
        (if stack_allocated tsk
         then filter (λ p, p ≠ stack_end tsk) (heap_live m)
         else heap_live m) ∧
    (stack_allocated tsk = true → stack_end tsk ∉ heap_live m') ∧
    (stack_allocated tsk = false →
       ∀ p, p ≠ task → p ∈ heap_live m' ↔ p ∈ heap_live m) ∧
    (* the control block is freed *)
    (task ∉ heap_live m') ∧
    tcbs m' !! task = None ∧
    (* the rest of the scheduler state *)
    active_task m' = active_task m ∧
    exited_tasks m' = exited_tasks m ∧
    (∀ u, u ≠ task → u ∈ blocked_tasks m' ↔ u ∈ blocked_tasks m) ∧
    (∀ u i, u ≠ task →
       u ∈ default [] (ready_tasks m' !! i) ↔
       u ∈ default [] (ready_tasks m !! i)).
Proof.
  intros Hna Ht Hprio.
  assert (Hrun : ∃ m', task_destroy trigger_svcall task m = Ret tt m' ∧
    blocked_tasks m' =
      (if decide (state tsk = TASK_BLOCKED)
       then list_remove (blocked_tasks m) task else blocked_tasks m) ∧
    ready_tasks m' =
      (if decide (state tsk = TASK_READY)
       then <[priority tsk :=
                list_remove (default [] (ready_tasks m !! priority tsk)) task]>
              (ready_tasks m)
       else ready_tasks m) ∧
    heap_live m' =
      filter (λ p, p ≠ task)
        (if stack_allocated tsk
         then filter (λ p, p ≠ stack_end tsk) (heap_live m)
         else heap_live m) ∧
    tcbs m' =
      delete task
        (if stack_allocated tsk then delete (stack_end tsk) (tcbs m)
         else tcbs m) ∧
    active_task m' = active_task m ∧
    exited_tasks m' = exited_tasks m).
  { unfold task_destroy, bind, get, load_tcb, modify, load_ready, store_ready,
      free, LOG_W, log, modify, ret.
    rewrite decide_False by done. rewrite Ht.
    destruct (decide (state tsk = TASK_BLOCKED)) as [Hb|Hb].
    - rewrite decide_False by congruence.
      destruct (stack_allocated tsk); eexists; simpl; repeat split.
    - destruct (decide (state tsk = TASK_READY)) as [Hr|Hr].
      + specialize (Hprio Hr).
        destruct (lookup_lt_is_Some_2 _ _ Hprio) as [q Hq].
        rewrite Hq. simpl. rewrite decide_True by done.
        destruct (stack_allocated tsk); eexists; simpl; repeat split.
      + destruct (stack_allocated tsk); eexists; simpl; repeat split. }
  destruct Hrun as (m' & Hrun & Hb & Hr & Hh & Htc & Ha & He).
  exists m'. split; [exact Hrun|].
  split; [exact Hb|]. split; [exact Hr|].
  split.
  { intros Hs. rewrite Hb, decide_True by done. apply list_remove_not_elem. }
  split.
  { intros Hs. specialize (Hprio Hs). rewrite Hr, decide_True by done.
    eexists. split; [by apply list_lookup_insert_eq|].
    apply list_remove_not_elem. }
  split; [exact Hh|].
  split.
  { intros Hs. rewrite Hh, Hs. rewrite !list_elem_of_filter. tauto. }
  split.
  { intros Hs p Hp. rewrite Hh, Hs. rewrite list_elem_of_filter. tauto. }
  split.
  { rewrite Hh. rewrite list_elem_of_filter. tauto. }
  split.
  { rewrite Htc. apply lookup_delete_eq. }
  split; [exact Ha|]. split; [exact He|].
  split.
  { intros u Hu. rewrite Hb.
    destruct (decide (state tsk = TASK_BLOCKED)); [|reflexivity].
    by apply list_remove_elem_ne. }
  intros u i Hu. rewrite Hr.
  destruct (decide (state tsk = TASK_READY)) as [Hs|]; [|reflexivity].
  specialize (Hprio Hs).
  destruct (decide (i = priority tsk)) as [->|Hi].
  - rewrite list_lookup_insert_eq by done. simpl.
    by apply list_remove_elem_ne.
  - by rewrite list_lookup_insert_ne.
Qed.

(** ** The scheduler core *)

Lemma elem_of_concat (x : Z) (ls : list (list Z)) :
  x ∈ concat ls ↔ ∃ l, x ∈ l ∧ l ∈ ls.
Proof.
  induction ls as [|a ls IH]; simpl.
  - split; [by intros ?%elem_of_nil|]. by intros (l & _ & ?%elem_of_nil).
  - rewrite elem_of_app, IH. split.
    + intros [Hx|(l & Hx & Hl)].
      * exists a. split; [done|]. by left.
      * exists l. split; [done|]. by right.
    + intros (l & Hx & [->|Hl]%elem_of_cons); [by left|].
      right. by exists l.
Qed.

Lemma elem_of_members (m : machine) (x : Z) :
  x ∈ members m ↔ ∃ L, x ∈ list_of m L.
Proof.
  unfold members. rewrite !elem_of_app, elem_of_concat. split.
  - intros [(q & Hx & Hq)|[Hx|Hx]].
    + apply list_elem_of_lookup in Hq as [p Hp].
      exists (Ready p). simpl. by rewrite Hp.
    + by exists Blocked.
    + by exists Exited.
  - intros [[p| |] Hx]; simpl in Hx; [|tauto..].
    destruct (ready_tasks m !! p) as [q|] eqn:Hp; simpl in Hx.
    + left. exists q. split; [done|]. by eapply list_elem_of_lookup_2.
    + by apply elem_of_nil in Hx.
Qed.

Lemma NoDup_concat_lookup (l : list (list Z)) (i : nat) (q : list Z) :
  NoDup (concat l) → l !! i = Some q → NoDup q.
Proof.
  revert i. induction l as [|a l IH]; intros i Hnd Hi; [done|].
  simpl in Hnd. apply NoDup_app in Hnd as (Ha & _ & Hl).
  destruct i as [|i]; simpl in Hi.
  - by simplify_eq.
  - by eapply IH.
Qed.

Lemma NoDup_concat_disjoint (l : list (list Z)) (i j : nat) (q r : list Z)
    (x : Z) :
  NoDup (concat l) → l !! i = Some q → l !! j = Some r →
  x ∈ q → x ∈ r → i = j.
Proof.
  revert i j. induction l as [|a l IH]; intros i j Hnd Hi Hj Hq Hr; [done|].
  simpl in Hnd. apply NoDup_app in Hnd as (Ha & Hdis & Hl).
  destruct i as [|i], j as [|j]; simpl in Hi, Hj; simplify_eq; [done|..].
  - exfalso. apply (Hdis x Hq). apply elem_of_concat. exists r.
    split; [done|]. by eapply list_elem_of_lookup_2.
  - exfalso. apply (Hdis x Hr). apply elem_of_concat. exists q.
    split; [done|]. by eapply list_elem_of_lookup_2.
  - f_equal. by eapply IH.
Qed.

Lemma list_remove_head (t : Z) (q : list Z) :
  NoDup (t :: q) → list_remove (t :: q) t = q.
Proof.
  intros Hnd. apply NoDup_cons in Hnd as [Ht _].
  unfold list_remove. rewrite filter_cons_False by (intros H; by apply H).
  induction q as [|x q IH]; [done|].
  apply not_elem_of_cons in Ht as [Hx Hq].
  rewrite filter_cons_True by done. f_equal. by apply IH.
Qed.

Lemma scan_ready_spec (rt : list (list Z)) (n : nat) :
  (n < length rt)%nat →
  ∃ i, scan_ready rt n = Some i ∧ (i ≤ n)%nat ∧
       (∀ j, (i < j ≤ n)%nat → rt !! j = Some []) ∧
       (i ≠ 0%nat → ∃ t q, rt !! i = Some (t :: q)).
Proof.
  induction n as [|n IH]; intros Hn.
  - exists 0%nat. simpl. split; [done|]. split; [lia|].
    split; [intros; lia | done].
  - destruct (lookup_lt_is_Some_2 rt (S n) Hn) as [q Hq].
    simpl. rewrite Hq.
    destruct q as [|t q].
    + destruct IH as (i & Hs & Hi & Hab & Hne); [lia|].
      exists i. split; [done|]. split; [lia|]. split; [|done].
      intros j Hj. destruct (decide (j = S n)) as [->|]; [done|].
      apply Hab. lia.
    + exists (S n). split; [done|]. split; [lia|].
      split; [intros; lia | eauto].
Qed.

(** The scan stops at the highest non-empty ready queue. *)
Lemma scan_ready_highest (rt : list (list Z)) (i : nat) (t : Z) (q : list Z) :
  (0 < length rt)%nat →
  rt !! i = Some (t :: q) →
  (∀ j, (i < j < length rt)%nat → rt !! j = Some []) →
  scan_ready rt (length rt - 1) = Some i.
Proof.
  intros Hlen Hi Hab.
  destruct (scan_ready_spec rt (length rt - 1)) as (k & Hs & Hk & Hkab & Hkne);
    [lia|].
  rewrite Hs. f_equal.
  pose proof (lookup_lt_Some _ _ _ Hi) as Hilt.
  destruct (lt_eq_lt_dec k i) as [[Hlt|Heq]|Hgt]; [|done|].
  - rewrite Hkab in Hi by lia. done.
  - destruct Hkne as (t' & q' & Hk'); [lia|].
    rewrite Hab in Hk' by lia. done.
Qed.

(** With every ready queue empty the scan ends at index 0. *)
Lemma scan_ready_all_empty (rt : list (list Z)) :
  (0 < length rt)%nat →
  Forall (λ q, q = []) rt →
  scan_ready rt (length rt - 1) = Some 0%nat ∧ rt !! 0%nat = Some [].
Proof.
  intros Hlen Hall.
  destruct (scan_ready_spec rt (length rt - 1)) as (k & Hs & Hk & Hkab & Hkne);
    [lia|].
  assert (Hq : ∀ j q, rt !! j = Some q → q = []).
  { intros j q Hj. by eapply (Forall_lookup_1 _ _ _ _ Hall). }
  destruct (decide (k = 0%nat)) as [->|Hne].
  - split; [done|].
    destruct (lookup_lt_is_Some_2 rt 0 Hlen) as [q Hq0].
    by rewrite Hq0, (Hq _ _ Hq0).
  - destruct (Hkne Hne) as (t & q & Hk'). by apply Hq in Hk'.
Qed.

Section Select.

Context (K : config).

Local Abbreviation P := (RTOS_PRIORITY_COUNT K).

Lemma select_active_task_idle (m : machine) :
  sched_wf K m →
  Forall (λ q, q = []) (ready_tasks m) →
  select_active_task K m = Ret tt m.
Proof.
  intros [Hcount Hpos _ _ _] Hall.
  destruct (scan_ready_all_empty (ready_tasks m)) as [Hs H0]; [lia|done|].
  unfold select_active_task, bind, scan_ready_tasks, load_ready.
  rewrite <- Hcount, Hs, H0. by rewrite decide_True.
Qed.

Lemma ready_lookup_wf (m : machine) (p : nat) :
  sched_wf K m → (p < P)%nat → ∃ q, ready_tasks m !! p = Some q.
Proof.
  intros Hwf Hp. apply lookup_lt_is_Some_2. by rewrite (wf_count _ _ Hwf).
Qed.

Lemma select_active_task_run (m : machine) (i : nat) (t : Z) (q : list Z) :
  sched_wf K m →
  ready_tasks m !! i = Some (t :: q) →
  (∀ j, (i < j < P)%nat → ready_tasks m !! j = Some []) →
  ∃ tcb m',
    tcbs m !! t = Some tcb ∧ priority tcb = i ∧
    select_active_task K m = Ret tt m' ∧
    active_task m' = t ∧
    tcbs m' = <[t := set_state TASK_ACTIVE tcb]> (tcbs m) ∧
    exited_tasks m' = exited_tasks m ∧
    blocked_tasks m' =
      blocked_tasks m ++ (if prev_blocked m then [active_task m] else []) ∧
    length (ready_tasks m') = P ∧
    (∀ p, (p < P)%nat →
       ready_tasks m' !! p =
         Some ((if decide (p = i) then q
                else default [] (ready_tasks m !! p)) ++
               (if prev_requeued_at m p then [active_task m] else []))) ∧
    heap_live m' = heap_live m ∧ ram m' = ram m ∧ SCB_ICSR m' = SCB_ICSR m.
Proof.
  intros Hwf Hi Hab.
  pose proof (wf_count _ _ Hwf) as Hcount.
  pose proof (wf_positive _ _ Hwf) as Hpos.
  pose proof (lookup_lt_Some _ _ _ Hi) as Hilt.
  destruct (wf_ready _ _ Hwf i (t :: q) t Hi) as (tcb & Htcb & Hprio);
    [by left|].
  assert (Hrm : list_remove (t :: q) t = q).
  { apply list_remove_head. eapply NoDup_concat_lookup; [|exact Hi].
    pose proof (wf_nodup _ _ Hwf) as Hnd. unfold members in Hnd.
    by apply NoDup_app in Hnd as (? & _ & _). }
  assert (Hscan : scan_ready (ready_tasks m) (P - 1) = Some i).
  { rewrite <- Hcount. eapply scan_ready_highest; [lia|exact Hi|].
    intros j Hj. apply Hab. lia. }
  exists tcb.
  unfold select_active_task, bind, scan_ready_tasks, load_ready, store_ready,
    get, modify, load_tcb, store_tcb, ret.
  rewrite Hscan, Hi. rewrite decide_False by done.
  rewrite decide_True by done. simpl list_get_head. rewrite Hrm.
  cbn [active_task with_ready].
  destruct (decide (active_task m ≠ NULL)) as [Hact|Hact].
  - destruct (wf_active _ _ Hwf Hact) as (Hfree & a & Ha & Hpa).
    cbn [tcbs with_ready]. rewrite Ha.
    destruct (decide (state a = TASK_BLOCKED)) as [Hb|Hb].
    + assert (Hpb : prev_blocked m = true).
      { unfold prev_blocked. rewrite Ha, bool_decide_eq_true_2 by done.
        by rewrite bool_decide_eq_true_2. }
      assert (Hrq : ∀ p, prev_requeued_at m p = false).
      { intros p. unfold prev_requeued_at. rewrite Ha.
        rewrite (bool_decide_eq_false_2 (_ ∧ _)) by tauto.
        apply andb_false_r. }
      rewrite Hpb. cbn. rewrite Htcb. eexists. repeat split; simpl; try done.
      * by rewrite length_insert.
      * intros p Hp. rewrite Hrq, app_nil_r.
        destruct (decide (p = i)) as [->|Hne].
        -- by rewrite list_lookup_insert_eq.
        -- rewrite list_lookup_insert_ne by done.
           destruct (ready_lookup_wf m p Hwf Hp) as [r ->]. done.
    + assert (Hpb : prev_blocked m = false).
      { unfold prev_blocked. rewrite Ha.
        rewrite (bool_decide_eq_false_2 (state a = _)) by done.
        apply andb_false_r. }
      assert (Hrq : ∀ p, prev_requeued_at m p = bool_decide (priority a = p)).
      { intros p. unfold prev_requeued_at. rewrite Ha.
        rewrite bool_decide_eq_true_2 by done. simpl.
        apply bool_decide_ext. tauto. }
      rewrite Hpb, app_nil_r.
      cbn [ready_tasks with_ready].
      destruct (ready_lookup_wf m (priority a) Hwf Hpa) as [r Hr].
      assert (Hr1 : <[i := q]> (ready_tasks m) !! priority a
                    = Some (if decide (priority a = i) then q else r)).
      { destruct (decide (priority a = i)) as [->|Hne].
        - by rewrite list_lookup_insert_eq.
        - by rewrite list_lookup_insert_ne. }
      rewrite Hr1. cbn [ready_tasks with_ready].
      rewrite decide_True by (rewrite length_insert; lia).
      cbn. rewrite Htcb. eexists. repeat split; simpl; try done.
      * by rewrite !length_insert.
      * intros p Hp. rewrite Hrq.
        destruct (decide (p = priority a)) as [->|Hne].
        -- rewrite list_lookup_insert_eq by (rewrite length_insert; lia).
           rewrite bool_decide_eq_true_2 by done. unfold list_append.
           destruct (decide (priority a = i)); [done|]. by rewrite Hr.
        -- rewrite list_lookup_insert_ne by done.
           rewrite bool_decide_eq_false_2 by congruence.
           rewrite app_nil_r.
           destruct (decide (p = i)) as [->|Hne'].
           ++ by rewrite list_lookup_insert_eq.
           ++ rewrite list_lookup_insert_ne by done.
              destruct (ready_lookup_wf m p Hwf Hp) as [r' ->]. done.
  - assert (Hpb : prev_blocked m = false).
    { unfold prev_blocked. by rewrite bool_decide_eq_false_2. }
    assert (Hrq : ∀ p, prev_requeued_at m p = false).
    { intros p. unfold prev_requeued_at. by rewrite bool_decide_eq_false_2. }
    rewrite Hpb, app_nil_r.
    cbn. rewrite Htcb. eexists. repeat split; simpl; try done.
    + by rewrite length_insert.
    + intros p Hp. rewrite Hrq, app_nil_r.
      destruct (decide (p = i)) as [->|Hne].
      * by rewrite list_lookup_insert_eq.
      * rewrite list_lookup_insert_ne by done.
        destruct (ready_lookup_wf m p Hwf Hp) as [r ->]. done.
Qed.


Lemma highest_nonempty_exists (rt : list (list Z)) :
  (0 < length rt)%nat →
  ¬ Forall (λ q, q = []) rt →
  ∃ i t q, rt !! i = Some (t :: q) ∧
           ∀ j, (i < j < length rt)%nat → rt !! j = Some [].
Proof.
  intros Hlen Hne.
  destruct (scan_ready_spec rt (length rt - 1)) as (k & Hs & Hk & Hkab & Hkne);
    [lia|].
  destruct (decide (k = 0%nat)) as [->|Hk0].
  - destruct (lookup_lt_is_Some_2 rt 0 Hlen) as [[|t q] Hq0].
    + exfalso. apply Hne. apply Forall_lookup_2. intros j r Hj.
      destruct (decide (j = 0%nat)) as [->|Hj0]; [congruence|].
      pose proof (lookup_lt_Some _ _ _ Hj).
      rewrite Hkab in Hj by lia. congruence.
    + exists 0%nat, t, q. split; [done|]. intros j Hj. apply Hkab. lia.
  - destruct (Hkne Hk0) as (t & q & Hq).
    exists k, t, q. split; [done|]. intros j Hj. apply Hkab. lia.
Qed.

(** A block chained into a ready queue is chained nowhere else, and is not
    the active task. *)
Lemma ready_member_unique (m : machine) (i : nat) (r : list Z) (t : Z) :
  sched_wf K m → ready_tasks m !! i = Some r → t ∈ r →
  (t ∉ blocked_tasks m) ∧ (t ∉ exited_tasks m) ∧
  (∀ p r', ready_tasks m !! p = Some r' → t ∈ r' → p = i) ∧
  (active_task m ≠ NULL → t ≠ active_task m).
Proof.
  intros Hwf Hi Ht.
  pose proof (wf_nodup _ _ Hwf) as Hnd. unfold members in Hnd.
  apply NoDup_app in Hnd as (Hrd & Hdis & Hrest).
  assert (Hc : t ∈ concat (ready_tasks m)).
  { apply elem_of_concat. exists r. split; [done|].
    by eapply list_elem_of_lookup_2. }
  specialize (Hdis t Hc). rewrite not_elem_of_app in Hdis.
  destruct Hdis as [Hb He].
  split; [done|]. split; [done|]. split.
  - intros p r' Hp Ht'. eapply NoDup_concat_disjoint; eauto.
  - intros Hact ->. destruct (wf_active _ _ Hwf Hact) as [Hfree _].
    apply Hfree. unfold members. rewrite elem_of_app. by left.
Qed.

(** C1, as amended.  From a well-formed scheduler state
    [select_active_task] returns.  With every ready queue empty it returns
    the machine unchanged.  Otherwise the head [t] of the highest-priority
    non-empty ready queue becomes the active task: its state is ACTIVE, it is
    chained into no list any more, and its queue keeps the rest.  After the
    dispatch a ready queue at a priority above that of the new active task
    holds the previous active task alone, when that task was not BLOCKED and
    has that priority, and is empty otherwise. *)
Theorem select_active_task_highest_priority (m : machine) :
  sched_wf K m →
  if decide (Forall (λ q, q = []) (ready_tasks m)) then
    select_active_task K m = Ret tt m
  else
    ∃ i t q tcb m',
      ready_tasks m !! i = Some (t :: q) ∧
      (∀ j, (i < j < P)%nat → ready_tasks m !! j = Some []) ∧
      select_active_task K m = Ret tt m' ∧
      active_task m' = t ∧
      tcbs m' !! t = Some tcb ∧
      state tcb = TASK_ACTIVE ∧
      priority tcb = i ∧
      (∀ L, t ∉ list_of m' L) ∧
      ready_tasks m' !! i =
        Some (q ++ if prev_requeued_at m i then [active_task m] else []) ∧
      (∀ p, (i < p < P)%nat →
         ready_tasks m' !! p =
           Some (if prev_requeued_at m p then [active_task m] else [])).
Proof.
  intros Hwf. case_decide as Hall; [by apply select_active_task_idle|].
  pose proof (wf_count _ _ Hwf) as Hcount.
  pose proof (wf_positive _ _ Hwf) as Hpos.
  destruct (highest_nonempty_exists (ready_tasks m)) as (i & t & q & Hi & Hab);
    [lia|done|].
  rewrite Hcount in Hab.
  pose proof (lookup_lt_Some _ _ _ Hi) as Hilt. rewrite Hcount in Hilt.
  destruct (select_active_task_run m i t q Hwf Hi Hab)
    as (tcb & m' & Htcb & Hprio & Hrun & Hact & Htcbs & Hex & Hbl & Hlen &
        Hrd & _).
  destruct (ready_member_unique m i (t :: q) t Hwf Hi) as (Hnb & Hne & Hu & Hna);
    [by left|].
  assert (Hnq : t ∉ q).
  { assert (Hnd : NoDup (t :: q)).
    { eapply NoDup_concat_lookup; [|exact Hi].
      pose proof (wf_nodup _ _ Hwf) as Hnd. unfold members in Hnd.
      by apply NoDup_app in Hnd as (? & _ & _). }
    by apply NoDup_cons in Hnd as [? _]. }
  assert (Hprev : ∀ p, t ∉ (if prev_requeued_at m p
                             then [active_task m] else [])).
  { intros p. destruct (prev_requeued_at m p) eqn:Hrq;
      [|by apply not_elem_of_nil].
    rewrite list_elem_of_singleton. apply Hna.
    unfold prev_requeued_at in Hrq. apply andb_true_iff in Hrq as [Hrq _].
    by apply bool_decide_eq_true in Hrq. }
  exists i, t, q, (set_state TASK_ACTIVE tcb), m'.
  split; [done|]. split; [done|]. split; [done|]. split; [done|].
  split; [by rewrite Htcbs, lookup_insert_eq|].
  split; [done|]. split; [done|].
  split.
  { intros [p| |]; simpl.
    - destruct (decide (p < P)%nat) as [Hp|Hp].
      + rewrite (Hrd p Hp). simpl. rewrite not_elem_of_app. split; [|done].
        destruct (decide (p = i)) as [->|Hpi]; [done|].
        destruct (ready_lookup_wf m p Hwf Hp) as [r Hr]. rewrite Hr. simpl.
        intros Hin. apply Hpi. by eapply Hu.
      + rewrite lookup_ge_None_2 by lia. simpl. apply not_elem_of_nil.
    - rewrite Hbl, not_elem_of_app. split; [done|].
      destruct (prev_blocked m) eqn:Hpb; [|by apply not_elem_of_nil].
      rewrite list_elem_of_singleton. apply Hna.
      unfold prev_blocked in Hpb. apply andb_true_iff in Hpb as [Hpb _].
      by apply bool_decide_eq_true in Hpb.
    - by rewrite Hex. }
  split.
  { rewrite (Hrd i Hilt). by rewrite decide_True. }
  intros p Hp. rewrite (Hrd p) by lia.
  rewrite decide_False by lia. rewrite Hab by lia. done.
Qed.


Lemma task_destroy_self_wf (m : machine) :
  sched_wf K m → active_task m ≠ NULL →
  sched_wf K (with_active NULL
                (with_exited (exited_tasks m ++ [active_task m]) m)).
Proof.
  intros Hwf Hact. destruct (wf_active _ _ Hwf Hact) as [Hfree _].
  split; simpl.
  - apply (wf_count _ _ Hwf).
  - apply (wf_positive _ _ Hwf).
  - pose proof (wf_nodup _ _ Hwf) as Hnd. unfold members in *. simpl.
    rewrite !(assoc_L (++)). apply NoDup_app. split; [|split].
    + by rewrite <- (assoc_L (++)).
    + intros x Hx ->%list_elem_of_singleton. apply Hfree.
      by rewrite (assoc_L (++)).
    + apply NoDup_singleton.
  - apply (wf_ready _ _ Hwf).
  - done.
Qed.

(** C2, as amended.  Take a well-formed state with an active task.  (1) If
    that task destroys itself, [task_destroy] raises the start handler in a
    state from which [select_active_task] returns with the task chained into
    the exited list, once, and into no other list: nothing is appended
    again.  (2) If instead [select_active_task] runs with the task present
    and some ready queue non-empty, it returns with the previous active task
    at the tail of exactly one list, the blocked list if its state is BLOCKED
    and the ready queue at its own priority otherwise, and with the new
    active task chained into no list.  (3) With every ready queue empty
    nothing is moved: the active task stays active and is chained nowhere. *)
Theorem select_active_task_reparents (m : machine) :
  sched_wf K m →
  active_task m ≠ NULL →
  (∃ m1,
     (∀ trigger_svcall, task_destroy trigger_svcall (active_task m) m
                        = trigger_svcall m1) ∧
     ∃ m2, select_active_task K m1 = Ret tt m2 ∧
       exited_tasks m2 = exited_tasks m ++ [active_task m] ∧
       (active_task m ∉ exited_tasks m) ∧
       ∀ L, active_task m ∈ list_of m2 L ↔ L = Exited) ∧
  (¬ Forall (λ q, q = []) (ready_tasks m) →
   ∃ a m', tcbs m !! active_task m = Some a ∧
     select_active_task K m = Ret tt m' ∧
     let target := if decide (state a = TASK_BLOCKED)
                   then Blocked else Ready (priority a) in
     (∃ l, list_of m' target = l ++ [active_task m] ∧ active_task m ∉ l) ∧
     (∀ L, active_task m ∈ list_of m' L → L = target) ∧
     (∀ L, active_task m' ∉ list_of m' L)) ∧
  (Forall (λ q, q = []) (ready_tasks m) →
   select_active_task K m = Ret tt m ∧
   ∀ L, active_task m ∉ list_of m L).
Proof.
  intros Hwf Hact.
  pose proof (wf_count _ _ Hwf) as Hcount.
  pose proof (wf_positive _ _ Hwf) as Hpos.
  destruct (wf_active _ _ Hwf Hact) as (Hfree & a & Ha & Hpa).
  assert (Hnone : ∀ L, active_task m ∉ list_of m L).
  { intros L HL. apply Hfree. apply elem_of_members. by exists L. }
  split; [|split].
  - (* self-destruction *)
    set (m1 := with_active NULL
                 (with_exited (exited_tasks m ++ [active_task m]) m)).
    pose proof (task_destroy_self_wf m Hwf Hact) as Hwf1. fold m1 in Hwf1.
    exists m1. split.
    { intros h. unfold task_destroy, bind, get, load_tcb, modify.
      rewrite decide_True by done. by rewrite Ha. }
    assert (Hex1 : exited_tasks m1 = exited_tasks m ++ [active_task m])
      by done.
    assert (Hin1 : ∀ L, active_task m ∈ list_of m1 L ↔ L = Exited).
    { intros L. split.
      - destruct L as [p| |]; [| |done]; intros HL; exfalso.
        + by apply (Hnone (Ready p)).
        + by apply (Hnone Blocked).
      - intros ->. simpl. rewrite elem_of_app, list_elem_of_singleton.
        by right. }
    destruct (decide (Forall (λ q, q = []) (ready_tasks m1))) as [Hall|Hsome].
    + exists m1. split; [by apply select_active_task_idle|].
      split; [done|]. split; [apply (Hnone Exited)|done].
    + destruct (highest_nonempty_exists (ready_tasks m1))
        as (i & t & q & Hi & Hab); [simpl; lia|done|].
      change (length (ready_tasks m1)) with (length (ready_tasks m)) in Hab.
      rewrite Hcount in Hab.
      destruct (select_active_task_run m1 i t q Hwf1 Hi Hab)
        as (tcb & m2 & _ & _ & Hrun & _ & _ & Hex & Hbl & Hlen & Hrd & _).
      assert (Hpb : prev_blocked m1 = false) by done.
      assert (Hrq : ∀ p, prev_requeued_at m1 p = false) by done.
      rewrite Hpb, app_nil_r in Hbl.
      exists m2. split; [done|]. split; [by rewrite Hex|].
      split; [apply (Hnone Exited)|].
      intros L. split.
      * destruct L as [p| |]; [| |done]; simpl; intros HL; exfalso.
        -- destruct (decide (p < P)%nat) as [Hp|Hp].
           ++ rewrite (Hrd p Hp), Hrq, app_nil_r in HL. simpl in HL.
              destruct (decide (p = i)) as [->|Hpi].
              ** apply (Hnone (Ready i)). simpl.
                 change (ready_tasks m1) with (ready_tasks m) in Hi.
                 rewrite Hi. simpl. by right.
              ** by apply (Hnone (Ready p)).
           ++ rewrite lookup_ge_None_2 in HL by lia.
              by apply elem_of_nil in HL.
        -- rewrite Hbl in HL. by apply (Hnone Blocked).
      * intros ->. simpl. rewrite Hex, Hex1, elem_of_app,
          list_elem_of_singleton. by right.
  - (* a dispatch with the previous active task present *)
    intros Hsome.
    destruct (highest_nonempty_exists (ready_tasks m))
      as (i & t & q & Hi & Hab); [lia|done|].
    rewrite Hcount in Hab.
    destruct (select_active_task_run m i t q Hwf Hi Hab)
      as (tcb & m' & Htcb & Hprio & Hrun & Hact' & Htcbs & Hex & Hbl & Hlen &
          Hrd & _).
    destruct (ready_member_unique m i (t :: q) t Hwf Hi)
      as (Hnb & Hne & Hu & Hna); [by left|].
    specialize (Hna Hact).
    assert (Hnq : t ∉ q).
    { assert (Hnd : NoDup (t :: q)).
      { eapply NoDup_concat_lookup; [|exact Hi].
        pose proof (wf_nodup _ _ Hwf) as Hnd. unfold members in Hnd.
        by apply NoDup_app in Hnd as (? & _ & _). }
      by apply NoDup_cons in Hnd as [? _]. }
    assert (Hpb : prev_blocked m = bool_decide (state a = TASK_BLOCKED)).
    { unfold prev_blocked. rewrite Ha. by rewrite bool_decide_eq_true_2. }
    assert (Hrq : ∀ p, prev_requeued_at m p
                       = bool_decide (state a ≠ TASK_BLOCKED ∧ priority a = p)).
    { intros p. unfold prev_requeued_at. rewrite Ha.
      by rewrite bool_decide_eq_true_2. }
    assert (Hold : ∀ p, (p < P)%nat →
              active_task m ∉ (if decide (p = i) then q
                               else default [] (ready_tasks m !! p))).
    { intros p Hp Hin. destruct (decide (p = i)) as [->|Hpi].
      - apply (Hnone (Ready i)). simpl. rewrite Hi. simpl. by right.
      - by apply (Hnone (Ready p)). }
    exists a, m'. split; [done|]. split; [done|].
    intros target. split; [|split].
    + subst target. destruct (decide (state a = TASK_BLOCKED)) as [Hb|Hb].
      * exists (blocked_tasks m). simpl. rewrite Hbl, Hpb.
        rewrite bool_decide_eq_true_2 by done. split; [done|].
        apply (Hnone Blocked).
      * eexists. simpl. rewrite (Hrd _ Hpa), Hrq.
        rewrite bool_decide_eq_true_2 by done. simpl.
        split; [done|]. by apply Hold.
    + intros L HL. subst target. destruct L as [p| |]; simpl in HL.
      * destruct (decide (p < P)%nat) as [Hp|Hp].
        -- rewrite (Hrd p Hp), Hrq in HL. simpl in HL.
           apply elem_of_app in HL as [HL|HL]; [by apply Hold in HL|].
           case_bool_decide as Hd; [|by apply elem_of_nil in HL].
           destruct Hd as [Hd <-]. by rewrite decide_False.
        -- rewrite lookup_ge_None_2 in HL by lia. by apply elem_of_nil in HL.
      * rewrite Hbl, Hpb in HL.
        apply elem_of_app in HL as [HL|HL]; [by apply (Hnone Blocked) in HL|].
        case_bool_decide as Hd; [|by apply elem_of_nil in HL].
        by rewrite decide_True.
      * rewrite Hex in HL. by apply (Hnone Exited) in HL.
    + rewrite Hact'. intros [p| |]; simpl.
      * destruct (decide (p < P)%nat) as [Hp|Hp].
        -- rewrite (Hrd p Hp). simpl. rewrite not_elem_of_app. split.
           ++ destruct (decide (p = i)) as [->|Hpi]; [done|].
              destruct (ready_lookup_wf m p Hwf Hp) as [r Hr].
              rewrite Hr. simpl. intros Hin. apply Hpi. by eapply Hu.
           ++ destruct (prev_requeued_at m p); [|apply not_elem_of_nil].
              by rewrite list_elem_of_singleton.
        -- rewrite lookup_ge_None_2 by lia. apply not_elem_of_nil.
      * rewrite Hbl, not_elem_of_app. split; [done|].
        destruct (prev_blocked m); [|apply not_elem_of_nil].
        by rewrite list_elem_of_singleton.
      * by rewrite Hex.
  - intros Hall. split; [by apply select_active_task_idle|done].
Qed.


End Select.

(** ** Fatal errors *)

(** The configuration [rtos_start] hands to [task_create] for the idle task
    (lines 165-169). *)
Lemma rtos_start_unfold (K : config) (trigger_svcall : M unit) (m : machine) :
  rtos_start K trigger_svcall m =
  match task_create K (idle_entry K) NULL
          (Some (mk_task_config (task_stack (DEFAULT_TASK_CONFIG K))
                   (IDLE_TASK_STACK_SIZE K) (Some IDLE_TASK_NAME)
                   (IDLE_TASK_PRIORITY K))) m with
  | Ret idle_task m1 =>
      if decide (idle_task = NULL) then
        Exit ERR_SCHEDULER
          (with_trace (trace m1 ++ [EvLog SYSLOGLEVEL_ERROR TAG
                                      "Could not create idle task"]) m1)
      else
        match trigger_svcall m1 with
        | Ret _ m2 =>
            Exit ERR_SCHEDULER
              (with_trace (trace m2 ++ [EvLog SYSLOGLEVEL_ERROR TAG
                             "Scheduler returned without starting RTOS"]) m2)
        | Exit c m2 => Exit c m2
        | Dispatched m2 => Dispatched m2
        | Undefined => Undefined
        end
  | Exit c m1 => Exit c m1
  | Dispatched m1 => Dispatched m1
  | Undefined => Undefined
  end.
Proof.
  unfold rtos_start, bind.
  destruct (task_create _ _ _ _ m) as [idle m1|c m1|m1|]; [|done..].
  destruct (decide (idle = NULL)) as [Hn|Hn]; [done|].
  simpl. by destruct (trigger_svcall m1).
Qed.

(** C9, as amended.  [enable_systick] computes the reload value as the AHB
    clock frequency divided by 8 and then by the tick frequency.  When the
    value exceeds the 24-bit reload limit it logs at error level and calls
    [exit] with the bad-parameter code [ERR_BADPARAM]; otherwise it programs
    the timer.  [rtos_start] logs at error level and calls [exit] with the
    scheduler-error code [ERR_SCHEDULER] when [task_create] returns null for
    the idle task, and when the supervisor call returns. *)
Theorem enable_systick_rtos_start_fatal (K : config) (trigger_svcall : M unit)
    (m : machine) :
  0 < SYSTICK_FREQ K →
  0 ≤ hclk_freq m < 2 ^ 32 →
  let reload_val := hclk_freq m / 8 / SYSTICK_FREQ K in
  (if decide (reload_val > 0xFFFFFF) then
     enable_systick K m =
       Exit ERR_BADPARAM
         (with_trace (trace m ++ [EvLog SYSLOGLEVEL_ERROR TAG
                                    "Oversized systick reload value"]) m)
   else
     enable_systick K m =
       Ret tt (with_SysTick (wrap32 (reload_val - 1))
                 (Z.lor (SysTick_CTRL m) 3) m)) ∧
  (∀ m1, task_create K (idle_entry K) NULL
           (Some (mk_task_config (task_stack (DEFAULT_TASK_CONFIG K))
                    (IDLE_TASK_STACK_SIZE K) (Some IDLE_TASK_NAME)
                    (IDLE_TASK_PRIORITY K))) m = Ret NULL m1 →
     rtos_start K trigger_svcall m =
       Exit ERR_SCHEDULER
         (with_trace (trace m1 ++ [EvLog SYSLOGLEVEL_ERROR TAG
                                     "Could not create idle task"]) m1)) ∧
  (∀ idle_task m1 m2,
     task_create K (idle_entry K) NULL
       (Some (mk_task_config (task_stack (DEFAULT_TASK_CONFIG K))
                (IDLE_TASK_STACK_SIZE K) (Some IDLE_TASK_NAME)
                (IDLE_TASK_PRIORITY K))) m = Ret idle_task m1 →
     idle_task ≠ NULL →
     trigger_svcall m1 = Ret tt m2 →
     rtos_start K trigger_svcall m =
       Exit ERR_SCHEDULER
         (with_trace (trace m2 ++ [EvLog SYSLOGLEVEL_ERROR TAG
                        "Scheduler returned without starting RTOS"]) m2)).
Proof.
  intros Hfreq Hclk reload_val. split; [|split].
  - assert (Hrv : wrap32 (Z.quot (Z.shiftr (hclk_freq m) 3) (SYSTICK_FREQ K))
                  = reload_val).
    { rewrite Z.shiftr_div_pow2 by lia. change (2 ^ 3) with 8.
      assert (0 ≤ hclk_freq m / 8 < 2 ^ 29).
      { change (2 ^ 32) with 4294967296 in Hclk.
        change (2 ^ 29) with 536870912. split.
        - apply Z.div_pos; lia.
        - apply Z.div_lt_upper_bound; lia. }
      rewrite Z.quot_div_nonneg by lia. fold reload_val.
      unfold wrap32. apply Z.mod_small.
      assert (0 ≤ reload_val ≤ hclk_freq m / 8).
      { subst reload_val. split.
        - apply Z.div_pos; lia.
        - apply Z.div_le_upper_bound; [lia|]. nia. }
      change (2 ^ 29) with 536870912 in *.
      change (2 ^ 32) with 4294967296. lia. }
    unfold enable_systick, bind, get, LOG_E, log, modify, exit, ret.
    rewrite (decide_False (P := SYSTICK_FREQ K = 0)) by lia. rewrite Hrv.
    unfold SysTick_LOAD_RELOAD_Msk.
    destruct (decide (reload_val > 16777215)); reflexivity.
  - intros m1 Hc. rewrite rtos_start_unfold, Hc. by rewrite decide_True.
  - intros idle m1 m2 Hc Hn Hsvc. rewrite rtos_start_unfold, Hc.
    rewrite decide_False by done. by rewrite Hsvc.
Qed.

(** ** Creating a task *)

Section Create.

Context (K : config).

Local Abbreviation P := (RTOS_PRIORITY_COUNT K).

Lemma task_create_null_entry (arg : Z) (cfg : option task_config_t)
    (m : machine) :
  task_create K NULL arg cfg m = Ret NULL m.
Proof. unfold task_create. by rewrite decide_True. Qed.

Lemma task_create_tcb_alloc_fails (entry arg : Z) (cfg : option task_config_t)
    (m : machine) :
  malloc_oracle m = [] →
  task_create K entry arg cfg m = Ret NULL m.
Proof.
  intros Ho. unfold task_create. case_decide; [done|].
  unfold bind, malloc. rewrite Ho. by rewrite decide_True.
Qed.

(** A priority above the priority count is refused, with the control block
    still allocated. *)
Lemma task_create_priority_above_count (entry arg : Z) (cfg : task_config_t)
    (m : machine) (task : Z) (rest : list Z) :
  entry ≠ NULL → malloc_oracle m = task :: rest → task ≠ NULL →
  (P < task_priority cfg)%nat →
  task_create K entry arg (Some cfg) m =
    Ret NULL (with_heap (heap_live m ++ [task]) rest m).
Proof.
  intros He Ho Ht Hp. unfold task_create. rewrite decide_False by done.
  unfold bind, malloc. rewrite Ho. rewrite !(decide_False (P := task = NULL))
    by done.
  by rewrite (decide_True (P := (P < task_priority cfg)%nat)).
Qed.

(** A priority equal to the priority count passes the range check; the
    ready queue it names does not exist. *)
Lemma task_create_priority_equal_count (entry arg : Z) (cfg : task_config_t)
    (m : machine) (task : Z) (rest : list Z) :
  entry ≠ NULL → malloc_oracle m = task :: rest → task ≠ NULL →
  task_stack cfg ≠ NULL →
  length (ready_tasks m) = P →
  task_priority cfg = P →
  task_create K entry arg (Some cfg) m = Undefined.
Proof.
  intros He Ho Ht Hs Hlen Hp. unfold task_create. rewrite decide_False by done.
  unfold bind, malloc. rewrite Ho. rewrite !(decide_False (P := task = NULL))
    by done.
  rewrite (decide_False (P := (P < task_priority cfg)%nat)) by lia.
  rewrite (decide_True (P := task_stack cfg ≠ NULL)) by done.
  unfold ret, modify, store_frame, load_ready.
  destruct (decide (frame_ok _ _ _ _ _)) as [Hok|Hok]; [|done].
  cbn [ready_tasks with_ram with_tcbs with_heap].
  rewrite lookup_ge_None_2 by lia. done.
Qed.

(** What a successful call leaves behind: a READY control block with no
    block cause at the tail of the ready queue at its priority; neither the
    pendable-service bit nor the active pointer nor the other lists are
    touched. *)
Lemma task_create_success (entry arg : Z) (cfg : option task_config_t)
    (m m' : machine) (task : Z) :
  task_create K entry arg cfg m = Ret task m' →
  task ≠ NULL →
  ∃ tcb q,
    tcbs m' !! task = Some tcb ∧
    state tcb = TASK_READY ∧
    blockcause tcb = BLOCK_NONE K ∧
    priority tcb = match cfg with
                   | Some c => task_priority c
                   | None => DEFAULT_PRIORITY K
                   end ∧
    ready_tasks m !! priority tcb = Some q ∧
    ready_tasks m' = <[priority tcb := q ++ [task]]> (ready_tasks m) ∧
    SCB_ICSR m' = SCB_ICSR m ∧
    active_task m' = active_task m ∧
    blocked_tasks m' = blocked_tasks m ∧
    exited_tasks m' = exited_tasks m.
Proof.
  intros Hrun Hnz. unfold task_create in Hrun.
  case_decide as He; [by inversion Hrun|].
  unfold bind at 1 in Hrun. unfold malloc at 1 in Hrun.
  destruct (malloc_oracle m) as [|t0 rest] eqn:Ho.
  { rewrite decide_True in Hrun by done. by inversion Hrun. }
  destruct (decide (t0 = NULL)) as [Ht0|Ht0].
  { by inversion Hrun. }
  set (m0 := with_heap (heap_live m ++ [t0]) rest m) in Hrun.
  assert (Hfin : ∀ (m1 : machine) prio nm s_end al s_start,
    ready_tasks m1 = ready_tasks m → SCB_ICSR m1 = SCB_ICSR m →
    active_task m1 = active_task m → blocked_tasks m1 = blocked_tasks m →
    exited_tasks m1 = exited_tasks m →
    prio = match cfg with
           | Some c => task_priority c
           | None => DEFAULT_PRIORITY K
           end →
    (let s := initialize_task_stack (task_exithandler K) s_start entry arg in
     modify (with_tcbs
       (<[t0 := mk_task_status s.1 s_start s_end entry arg
                  TASK_READY nm al (BLOCK_NONE K) prio]>)) ;;
     store_frame K s_end s_start s.2 ;;
     do r <- load_ready prio;
     store_ready prio (list_append r t0) ;;
     do r <- load_ready prio;
     if decide (r = []) then
       LOG_E TAG "Could not append new task to ready list" ;;
       free t0 ;;
       do t <- load_tcb t0;
       (if stack_allocated t then free (stack_start t) else ret tt) ;;
       ret NULL
     else ret t0) m1 = Ret task m' →
    ∃ tcb q,
      tcbs m' !! task = Some tcb ∧ state tcb = TASK_READY ∧
      blockcause tcb = BLOCK_NONE K ∧
      priority tcb = match cfg with
                     | Some c => task_priority c
                     | None => DEFAULT_PRIORITY K
                     end ∧
      ready_tasks m !! priority tcb = Some q ∧
      ready_tasks m' = <[priority tcb := q ++ [task]]> (ready_tasks m) ∧
      SCB_ICSR m' = SCB_ICSR m ∧ active_task m' = active_task m ∧
      blocked_tasks m' = blocked_tasks m ∧ exited_tasks m' = exited_tasks m).
  { intros m1 prio nm s_end al s_start Hr Hi Ha Hb Hx Hprio Hk.
    cbv zeta in Hk.
    generalize dependent (initialize_task_stack (task_exithandler K)
                            s_start entry arg).
    intros s Hk.
    unfold bind, modify, store_frame, load_ready, store_ready in Hk.
    destruct (decide (frame_ok _ _ _ _ _)) as [Hok|Hok]; [|done].
    cbn [ready_tasks with_ram with_tcbs] in Hk.
    destruct (ready_tasks m1 !! prio) as [q|] eqn:Hq; [|done].
    pose proof (lookup_lt_Some _ _ _ Hq) as Hlt.
    rewrite decide_True in Hk by done.
    cbn [ready_tasks with_ready] in Hk.
    rewrite list_lookup_insert_eq in Hk by done.
    rewrite decide_False in Hk by (unfold list_append; by destruct q).
    injection Hk as <- <-.
    eexists _, q. cbn. rewrite lookup_insert_eq.
    split; [done|]. split; [done|]. split; [done|]. split; [done|].
    split; [by rewrite <- Hr|]. split; [by rewrite <- Hr|].
    done. }
  destruct cfg as [c|].
  - destruct (decide (P < task_priority c)%nat) as [Hp|Hp].
    { unfold ret in Hrun. by inversion Hrun. }
    destruct (decide (task_stack c ≠ NULL)) as [Hs|Hs].
    + apply (Hfin m0 (task_priority c) (default EmptyString (task_name c))
               (task_stack c) false
               (task_stack c + (task_stacksize c - 1))); [done..|].
      cbv beta iota zeta delta [bind ret] in Hrun |- *. exact Hrun.
    + unfold bind at 1 2 3, malloc, ret in Hrun.
      cbn [malloc_oracle with_heap m0] in Hrun.
      destruct rest as [|s0 rest'].
      { rewrite decide_True in Hrun by done. by inversion Hrun. }
      destruct (decide (s0 = NULL)) as [Hs0|Hs0].
      { by inversion Hrun. }
      apply (Hfin (with_heap (heap_live m0 ++ [s0]) rest' m0)
               (task_priority c) (default EmptyString (task_name c))
               s0 true (s0 + (task_stacksize c - 1))); [done..|].
      cbv beta iota zeta delta [bind ret] in Hrun |- *. exact Hrun.
  - unfold bind at 1 2, malloc, ret in Hrun.
    cbn [malloc_oracle with_heap m0] in Hrun.
    destruct rest as [|s0 rest'].
    { rewrite decide_True in Hrun by done. by inversion Hrun. }
    destruct (decide (s0 = NULL)) as [Hs0|Hs0].
    { by inversion Hrun. }
    apply (Hfin (with_heap (heap_live m0 ++ [s0]) rest' m0)
             (DEFAULT_PRIORITY K) EmptyString
             s0 true (s0 + (DEFAULT_STACKSIZE K - 1))); [done..|].
    cbv beta iota zeta delta [bind ret] in Hrun |- *. exact Hrun.
Qed.

End Create.

(** C5 at a configured priority equal to the priority count (4 here): the
    range check of line 108 lets it pass, and line 142 indexes [ready_tasks]
    one past its end instead of returning null. *)
Lemma task_create_priority_count_not_rejected :
  task_create K4 0x08000301 0 (Some (mk_task_config NULL 256 None 4))
    (with_heap [] [0x20001000; 0x20002000] m_boot) = Undefined.
Proof. by vm_compute. Qed.

(** C6 at a configured priority above the priority count: null is returned
    while the control block allocated at line 90 is still live. *)
Lemma task_create_invalid_priority_leaks :
  ∃ m', task_create K4 0x08000301 0 (Some (mk_task_config NULL 256 None 5))
          (with_heap [] [0x20001000; 0x20002000] m_boot) = Ret NULL m' ∧
        heap_live (with_heap [] [0x20001000; 0x20002000] m_boot) = [] ∧
        heap_live m' = [0x20001000].
Proof. eexists. split; [by vm_compute|]. split; reflexivity. Qed.

(** ** The concrete states are well formed *)


Lemma m_yield_wf : sched_wf K4 m_yield.
Proof.
  split.
  - reflexivity.
  - cbn. lia.
  - apply (bool_decide_unpack _). by vm_compute.
  - intros p q t Hq Ht.
    destruct p as [|[|[|[|p]]]]; simpl in Hq; simplify_eq; solve_elem;
      eexists; (split; [by vm_compute | reflexivity]).
  - intros _. split.
    + apply (bool_decide_unpack _). by vm_compute.
    + eexists. split; [by vm_compute|]. cbn. lia.
Qed.

Lemma m_yield_reached : task_yield m_run = Ret tt m_yield.
Proof. by vm_compute. Qed.

Lemma m_run_wf : sched_wf K4 m_run.
Proof.
  split.
  - reflexivity.
  - cbn. lia.
  - apply (bool_decide_unpack _). by vm_compute.
  - intros p q t Hq Ht.
    destruct p as [|[|[|[|p]]]]; simpl in Hq; simplify_eq; solve_elem;
      eexists; (split; [by vm_compute | reflexivity]).
  - intros _. split.
    + apply (bool_decide_unpack _). by vm_compute.
    + eexists. split; [by vm_compute|]. cbn. lia.
Qed.

Lemma m_idle_wf : sched_wf K4 m_idle.
Proof.
  split.
  - reflexivity.
  - cbn. lia.
  - apply (bool_decide_unpack _). by vm_compute.
  - intros p q t Hq Ht.
    destruct p as [|[|[|[|p]]]]; simpl in Hq; simplify_eq; solve_elem.
  - intros _. split.
    + apply (bool_decide_unpack _). by vm_compute.
    + eexists. split; [by vm_compute|]. cbn. lia.
Qed.

(** ** Instances and counterexamples *)

Lemma select_active_task_highest_priority_witness :
  sched_wf K4 m_yield ∧
  ∃ i t q tcb m',
    ready_tasks m_yield !! i = Some (t :: q) ∧
    select_active_task K4 m_yield = Ret tt m' ∧
    active_task m' = t ∧ state tcb = TASK_ACTIVE ∧ priority tcb = i.
Proof.
  split; [exact m_yield_wf|].
  destruct (select_active_task_highest_priority K4 m_yield m_yield_wf)
    as (i & t & q & tcb & m' & H1 & _ & H3 & H4 & _ & H6 & H7 & _).
  exists i, t, q, tcb, m'. repeat split; assumption.
Defined.

(** C1, as stated, fails.  Task 100 (priority 3) has yielded while task 200
    (priority 1) is ready: the dispatch makes 200 the active task and chains
    100 into the ready queue at priority 3, above the active task's. *)
Lemma select_active_task_higher_queue_not_empty :
  sched_wf K4 m_yield ∧
  ∃ m', select_active_task K4 m_yield = Ret tt m' ∧
        active_task m' = 200 ∧
        ready_tasks m' !! 3%nat = Some [100] ∧
        ¬ higher_queues_empty m'.
Proof.
  split; [exact m_yield_wf|].
  eexists. split; [by vm_compute|]. split; [reflexivity|].
  split; [reflexivity|].
  intros H.
  specialize (H (set_state TASK_ACTIVE (tcb_demo TASK_READY 0 1)) 3%nat [100]).
  discriminate H; [by vm_compute | cbn; lia | reflexivity].
Qed.

Lemma select_active_task_reparents_witness :
  sched_wf K4 m_yield ∧ active_task m_yield ≠ NULL ∧
  (∃ m1 m2,
     task_destroy (SVCallHandler K4) 100 m_yield = SVCallHandler K4 m1 ∧
     select_active_task K4 m1 = Ret tt m2 ∧
     exited_tasks m2 = [100] ∧
     ∀ L, 100 ∈ list_of m2 L ↔ L = Exited) ∧
  (∃ a m', tcbs m_yield !! 100 = Some a ∧
     select_active_task K4 m_yield = Ret tt m' ∧
     ∀ L, 100 ∈ list_of m' L → L = Ready 3).
Proof.
  assert (Hact : active_task m_yield ≠ NULL) by (by vm_compute).
  assert (Hsome : ¬ Forall (λ q, q = []) (ready_tasks m_yield)).
  { intros H. apply Forall_cons in H as [H _]. discriminate H. }
  split; [exact m_yield_wf|]. split; [exact Hact|].
  destruct (select_active_task_reparents K4 m_yield m_yield_wf Hact)
    as ((m1 & Hd & m2 & Hs & Hex & _ & Hin) & Hdisp & _).
  split.
  - exists m1, m2. split; [apply Hd|]. split; [exact Hs|].
    split; [exact Hex | exact Hin].
  - destruct (Hdisp Hsome) as (a & m' & Ha & Hrun & _ & Hone & _).
    exists a, m'. split; [exact Ha|]. split; [exact Hrun|].
    intros L HL. specialize (Hone L HL).
    assert (Ha' : Some a = Some (tcb_demo TASK_READY 0 3))
      by (rewrite <- Ha; by vm_compute).
    injection Ha' as ->. exact Hone.
Defined.

(** C2, as stated, fails.  The idle task, alone, has yielded: every ready
    queue is empty, [select_active_task] returns at line 393, and the task
    that was (and stays) active, its state READY, has been placed on no
    list. *)
Lemma select_active_task_idle_alone_not_reparented :
  sched_wf K4 m_idle ∧ active_task m_idle = 300 ∧
  ∃ m', select_active_task K4 m_idle = Ret tt m' ∧
        state <$> tcbs m' !! 300 = Some TASK_READY ∧
        ¬ ∃ L, 300 ∈ list_of m' L.
Proof.
  split; [exact m_idle_wf|]. split; [reflexivity|].
  exists m_idle. split; [by vm_compute|]. split; [by vm_compute|].
  intros [[p| |] HL]; simpl in HL.
  - destruct p as [|[|[|[|p]]]]; simpl in HL; by apply elem_of_nil in HL.
  - by apply elem_of_nil in HL.
  - by apply elem_of_nil in HL.
Qed.

(** Well-formedness is needed for the new active task to be chained
    nowhere.  Task 100, running, calls [block_active_task] and is unblocked
    for the same cause before the context switch: it is READY, still the
    active task, and chained into the ready queue at priority 3.
    [select_active_task] then dispatches it again and chains it once more
    as the previous active task: the active task sits in a ready queue. *)
Lemma select_active_task_active_chained :
  ∃ m1 m2 m',
    block_active_task 9 m_run = Ret tt m1 ∧
    unblock_task K4 100 9 m1 = Ret tt m2 ∧
    ¬ sched_wf K4 m2 ∧
    select_active_task K4 m2 = Ret tt m' ∧
    active_task m' = 100 ∧ ready_tasks m' !! 3%nat = Some [100].
Proof.
  eexists _, _, _. split; [by vm_compute|]. split; [by vm_compute|].
  split.
  - intros Hwf. destruct (wf_active _ _ Hwf) as [Hfree _]; [by vm_compute|].
    apply Hfree. apply (bool_decide_unpack _). by vm_compute.
  - split; [by vm_compute|]. split; reflexivity.
Qed.

(** C3, as stated, fails.  Task 100 destroys itself and the start handler
    dispatches task 200: task 100 is on the exited list and its state is
    still ACTIVE, not EXITED. *)
Lemma task_destroy_active_state_not_exited :
  active_task m_run = 100 ∧
  ∃ m', task_destroy (SVCallHandler K4) 100 m_run = Dispatched m' ∧
        exited_tasks m' = [100] ∧
        state <$> tcbs m' !! 100 = Some TASK_ACTIVE ∧
        state <$> tcbs m' !! 100 ≠ Some TASK_EXITED.
Proof.
  split; [reflexivity|].
  eexists. split; [by vm_compute|]. split; [reflexivity|].
  split; [by vm_compute|]. by vm_compute.
Qed.

Lemma task_destroy_active_witness :
  is_Some (tcbs m_run !! active_task m_run) ∧
  task_destroy (SVCallHandler K4) (active_task m_run) m_run =
    SVCallHandler K4 (with_active NULL (with_exited [100] m_run)) ∧
  tcbs (with_active NULL (with_exited [100] m_run)) = tcbs m_run ∧
  heap_live (with_active NULL (with_exited [100] m_run)) = heap_live m_run.
Proof.
  assert (H : is_Some (tcbs m_run !! active_task m_run)) by (by eexists).
  split; [exact H|].
  destruct (task_destroy_active (SVCallHandler K4) m_run H)
    as (H1 & _ & _ & H4 & _ & H6 & _).
  split; [exact H1|]. split; [exact H4 | exact H6].
Defined.

Lemma task_destroy_inactive_witness :
  200 ≠ active_task m_run ∧
  tcbs m_run !! 200 = Some (tcb_demo TASK_READY 0 1) ∧
  ∃ m', task_destroy (SVCallHandler K4) 200 m_run = Ret tt m' ∧
        ready_tasks m' = [[300]; []; []; []] ∧
        blocked_tasks m' = [400] ∧
        heap_live m' = [100; 300; 400] ∧
        tcbs m' !! 200 = None ∧
        active_task m' = 100.
Proof.
  assert (Hne : 200 ≠ active_task m_run) by (by vm_compute).
  assert (Ht : tcbs m_run !! 200 = Some (tcb_demo TASK_READY 0 1))
    by (by vm_compute).
  split; [exact Hne|]. split; [exact Ht|].
  destruct (task_destroy_inactive (SVCallHandler K4) m_run 200 _ Hne Ht)
    as (m' & Hrun & Hb & Hr & _ & _ & Hh & _ & _ & _ & Hg & Ha & _).
  { intros _. cbn. lia. }
  exists m'. split; [exact Hrun|]. split; [exact Hr|]. split; [exact Hb|].
  split; [exact Hh|]. split; [exact Hg | exact Ha].
Defined.

Lemma unblock_task_guard_witness :
  tcbs m_run !! 400 = Some (tcb_demo TASK_BLOCKED 7 2) ∧
  (∃ m', unblock_task K4 400 7 m_run = Ret tt m' ∧
         blocked_tasks m' = [] ∧
         ready_tasks m' = [[300]; [200]; [400]; []] ∧
         active_task m' = 100) ∧
  unblock_task K4 400 8 m_run = Ret tt m_run.
Proof.
  assert (Ht : tcbs m_run !! 400 = Some (tcb_demo TASK_BLOCKED 7 2))
    by (by vm_compute).
  split; [exact Ht|]. split.
  - destruct (unblock_task_guard K4 m_run 400 7 _ Ht [] eq_refl)
      as (m' & Hrun & _ & Hb & _ & _ & Hr & _ & Ha & _).
    exists m'. split; [exact Hrun|]. split; [exact Hb|].
    split; [exact Hr | exact Ha].
  - exact (unblock_task_guard K4 m_run 400 8 _ Ht).
Defined.

Lemma enable_systick_rtos_start_fatal_witness :
  0 < SYSTICK_FREQ K4 ∧ 0 ≤ hclk_freq m_boot < 2 ^ 32 ∧
  enable_systick K4 m_boot = Ret tt (with_SysTick 49999 3 m_boot) ∧
  rtos_start K4 (SVCallHandler K4) m_boot =
    Exit ERR_SCHEDULER
      (with_trace [EvLog SYSLOGLEVEL_ERROR TAG "Could not create idle task"]
         m_boot).
Proof.
  assert (Hf : 0 < SYSTICK_FREQ K4) by (cbn; lia).
  assert (Hc : 0 ≤ hclk_freq m_boot < 2 ^ 32)
    by (change (2 ^ 32) with 4294967296; cbn; lia).
  split; [exact Hf|]. split; [exact Hc|].
  destruct (enable_systick_rtos_start_fatal K4 (SVCallHandler K4) m_boot Hf Hc)
    as (Hs & Hidle & _).
  split; [exact Hs|].
  exact (Hidle m_boot eq_refl).
Defined.

(** C9, as stated, fails.  With a 160 MHz clock and a 1 Hz tick the reload
    value, 20000000, exceeds the 24-bit limit, and [enable_systick] exits
    with [ERR_BADPARAM], which is not the scheduler-error code. *)
Lemma enable_systick_exits_with_badparam :
  enable_systick K1 m_fast =
    Exit ERR_BADPARAM
      (with_trace [EvLog SYSLOGLEVEL_ERROR TAG "Oversized systick reload value"]
         m_fast) ∧
  ERR_BADPARAM ≠ ERR_SCHEDULER.
Proof. split; [by vm_compute | discriminate]. Qed.

(** ** Lists, queue by queue *)

Lemma NoDup_concat_intro (l : list (list Z)) :
  (∀ i q, l !! i = Some q → NoDup q) →
  (∀ i j q r x, l !! i = Some q → l !! j = Some r → x ∈ q → x ∈ r → i = j) →
  NoDup (concat l).
Proof.
  induction l as [|a l IH]; intros Hnd Hdis; simpl; [apply NoDup_nil_2|].
  apply NoDup_app. split; [|split].
  - by apply (Hnd 0%nat).
  - intros x Ha Hc. apply elem_of_concat in Hc as (r & Hr & Hrl).
    apply list_elem_of_lookup in Hrl as [j Hj].
    by specialize (Hdis 0%nat (S j) a r x eq_refl Hj Ha Hr).
  - apply IH.
    + intros i q Hi. by apply (Hnd (S i)).
    + intros i j q r x Hi Hj Hq Hr.
      pose proof (Hdis (S i) (S j) q r x Hi Hj Hq Hr) as Heq.
      by injection Heq.
Qed.

Lemma NoDup_members_elim (m : machine) :
  NoDup (members m) →
  (∀ L, NoDup (list_of m L)) ∧
  (∀ L L' x, x ∈ list_of m L → x ∈ list_of m L' → L = L').
Proof.
  unfold members. intros Hnd.
  apply NoDup_app in Hnd as (Hrd & Hdis & Hrest).
  apply NoDup_app in Hrest as (Hbl & Hdis' & Hex).
  assert (Hrm : ∀ p x, x ∈ list_of m (Ready p) → x ∈ concat (ready_tasks m)).
  { intros p x Hx. simpl in Hx.
    destruct (ready_tasks m !! p) as [q|] eqn:Hq; simpl in Hx;
      [|by apply elem_of_nil in Hx].
    apply elem_of_concat. exists q. split; [done|].
    by eapply list_elem_of_lookup_2. }
  split.
  - intros [p| |]; simpl; [|done..].
    destruct (ready_tasks m !! p) as [q|] eqn:Hq; simpl; [|apply NoDup_nil_2].
    by eapply NoDup_concat_lookup.
  - intros L L' x HL HL'.
    destruct L as [p| |], L' as [p'| |]; try done.
    + f_equal. simpl in HL, HL'.
      destruct (ready_tasks m !! p) as [q|] eqn:Hq; simpl in HL;
        [|by apply elem_of_nil in HL].
      destruct (ready_tasks m !! p') as [q'|] eqn:Hq'; simpl in HL';
        [|by apply elem_of_nil in HL'].
      by eapply NoDup_concat_disjoint.
    + exfalso. apply (Hdis x); [by eapply Hrm|]. apply elem_of_app. by left.
    + exfalso. apply (Hdis x); [by eapply Hrm|]. apply elem_of_app. by right.
    + exfalso. apply (Hdis x); [by eapply Hrm|]. apply elem_of_app. by left.
    + exfalso. by apply (Hdis' x).
    + exfalso. apply (Hdis x); [by eapply Hrm|]. apply elem_of_app. by right.
    + exfalso. by apply (Hdis' x).
Qed.

Lemma NoDup_members_intro (m : machine) :
  (∀ L, NoDup (list_of m L)) →
  (∀ L L' x, x ∈ list_of m L → x ∈ list_of m L' → L = L') →
  NoDup (members m).
Proof.
  intros Hnd Hdis. unfold members.
  assert (Hrm : ∀ x, x ∈ concat (ready_tasks m) →
                     ∃ p, x ∈ list_of m (Ready p)).
  { intros x Hx. apply elem_of_concat in Hx as (q & Hq & Hql).
    apply list_elem_of_lookup in Hql as [p Hp].
    exists p. simpl. by rewrite Hp. }
  apply NoDup_app. split; [|split].
  - apply NoDup_concat_intro.
    + intros i q Hi. specialize (Hnd (Ready i)). simpl in Hnd.
      by rewrite Hi in Hnd.
    + intros i j q r x Hi Hj Hq Hr.
      assert (Ready i = Ready j) as [= ->]; [|done].
      apply (Hdis _ _ x); simpl; by rewrite ?Hi, ?Hj.
  - intros x Hx Hb. apply Hrm in Hx as [p Hp].
    apply elem_of_app in Hb as [Hb|Hb].
    + by specialize (Hdis (Ready p) Blocked x Hp Hb).
    + by specialize (Hdis (Ready p) Exited x Hp Hb).
  - apply NoDup_app. split; [apply (Hnd Blocked)|]. split; [|apply (Hnd Exited)].
    intros x Hb He. by specialize (Hdis Blocked Exited x Hb He).
Qed.

Lemma lists_moved_elem (m m' : machine) (rem : option Z)
    (add : option (Z * list_id)) (L : list_id) (x : Z) :
  lists_moved m m' rem add →
  x ∈ list_of m' L ↔ (x ∈ list_of m L ∧ Some x ≠ rem) ∨ add = Some (x, L).
Proof.
  intros Hmv. rewrite (Hmv L), elem_of_app, list_elem_of_filter.
  split.
  - intros [[? ?]|Hx]; [by left|]. right.
    destruct add as [[y tgt]|]; [|by apply elem_of_nil in Hx].
    case_decide; [|by apply elem_of_nil in Hx].
    apply list_elem_of_singleton in Hx. by subst.
  - intros [[? ?]| ->]; [by left|]. right.
    rewrite decide_True by done. by apply list_elem_of_singleton.
Qed.

Lemma lists_moved_members (m m' : machine) (rem : option Z)
    (add : option (Z * list_id)) (x : Z) :
  lists_moved m m' rem add →
  x ∈ members m' ↔
  (x ∈ members m ∧ Some x ≠ rem) ∨ ∃ L, add = Some (x, L).
Proof.
  intros Hmv. rewrite !elem_of_members. split.
  - intros [L HL]. apply (lists_moved_elem _ _ _ _ _ _ Hmv) in HL
      as [[? ?]|?]; [left|right]; eauto.
  - intros [[[L HL] Hne]|[L HL]]; exists L;
      apply (lists_moved_elem _ _ _ _ _ _ Hmv); eauto.
Qed.

Lemma lists_moved_nodup (m m' : machine) (rem : option Z)
    (add : option (Z * list_id)) :
  NoDup (members m) →
  lists_moved m m' rem add →
  (∀ y tgt, add = Some (y, tgt) → Some y = rem ∨ y ∉ members m) →
  NoDup (members m').
Proof.
  intros Hnd Hmv Hadd.
  destruct (NoDup_members_elim m Hnd) as [Hnd1 Hdis1].
  assert (Hnew : ∀ y tgt L, add = Some (y, tgt) →
                   y ∈ list_of m L → Some y ≠ rem → False).
  { intros y tgt L Ha HL Hne. destruct (Hadd y tgt Ha) as [?|Hn]; [done|].
    apply Hn. apply elem_of_members. by exists L. }
  apply NoDup_members_intro.
  - intros L. rewrite (Hmv L). apply NoDup_app. split; [|split].
    + apply NoDup_filter, Hnd1.
    + intros x Hx Hy. apply list_elem_of_filter in Hx as [Hne Hx].
      destruct add as [[y tgt]|]; [|by apply elem_of_nil in Hy].
      case_decide; [|by apply elem_of_nil in Hy].
      apply list_elem_of_singleton in Hy. subst x. by eapply Hnew.
    + destruct add as [[y tgt]|]; [|apply NoDup_nil_2].
      case_decide; [apply NoDup_singleton|apply NoDup_nil_2].
  - intros L L' x HL HL'.
    apply (lists_moved_elem _ _ _ _ _ _ Hmv) in HL as [[HL Hne]|HL];
      apply (lists_moved_elem _ _ _ _ _ _ Hmv) in HL' as [[HL' Hne']|HL'].
    + by eapply Hdis1.
    + exfalso. by eapply Hnew.
    + exfalso. by eapply Hnew.
    + congruence.
Qed.

Lemma filter_ne_notin (l : list Z) (rem : option Z) :
  (∀ x, rem = Some x → x ∉ l) →
  filter (λ x, Some x ≠ rem) l = l.
Proof.
  intros Hn. induction l as [|a l IH]; [done|].
  rewrite filter_cons_True.
  - f_equal. apply IH. intros x Hx Hin. apply (Hn x Hx). by right.
  - intros Ha. apply (Hn a); [done|by left].
Qed.

Lemma filter_ne_remove (l : list Z) (t : Z) :
  filter (λ x, Some x ≠ Some t) l = list_remove l t.
Proof.
  unfold list_remove. apply list_filter_iff. intros x. split.
  - intros H ->. by apply H.
  - intros H [= ->]. by apply H.
Qed.

(** ** Control blocks under a change of state *)

Lemma tcbs_agree_refl (m : machine) : tcbs_agree m m.
Proof.
  intros u. destruct (tcbs m !! u); constructor. by repeat split.
Qed.

Lemma tcbs_agree_trans (m1 m2 m3 : machine) :
  tcbs_agree m1 m2 → tcbs_agree m2 m3 → tcbs_agree m1 m3.
Proof.
  intros H12 H23 u. specialize (H12 u). specialize (H23 u).
  destruct H12 as [x y (? & ? & ?)|]; inversion H23 as [? z (? & ? & ?)|];
    constructor. repeat split; congruence.
Qed.

Lemma tcbs_agree_insert (m m' : machine) (t : Z) (x y : task_status_t) :
  tcbs m !! t = Some x → same_static x y →
  tcbs m' = <[t := y]> (tcbs m) → tcbs_agree m m'.
Proof.
  intros Hx Hs Heq u. rewrite Heq.
  destruct (decide (u = t)) as [->|Hne].
  - rewrite lookup_insert_eq, Hx. by constructor.
  - rewrite lookup_insert_ne by done.
    destruct (tcbs m !! u); constructor. by repeat split.
Qed.

Lemma tcbs_agree_Some (m m' : machine) (u : Z) (y : task_status_t) :
  tcbs_agree m m' → tcbs m' !! u = Some y →
  ∃ x, tcbs m !! u = Some x ∧ same_static x y.
Proof.
  intros Hag Hy. specialize (Hag u). rewrite Hy in Hag.
  inversion Hag as [x ? Hs|]. by exists x.
Qed.

Lemma tcbs_agree_None (m m' : machine) (u : Z) :
  tcbs_agree m m' → tcbs m !! u = None → tcbs m' !! u = None.
Proof.
  intros Hag Hn. specialize (Hag u). rewrite Hn in Hag. by inversion Hag.
Qed.

Lemma tcbs_agree_is_Some (m m' : machine) (u : Z) :
  tcbs_agree m m' → is_Some (tcbs m !! u) → is_Some (tcbs m' !! u).
Proof.
  intros Hag [x Hx]. specialize (Hag u). rewrite Hx in Hag.
  inversion Hag. by eexists.
Qed.

Lemma tcbs_inv_agree (K : config) (m m' : machine) :
  tcbs_inv K m → tcbs_agree m m' → heap_live m' = heap_live m →
  tcbs_inv K m'.
Proof.
  intros [Hnull Hprio Hlive Hstack Hinj] Hag Hheap. split.
  - by apply (tcbs_agree_None m).
  - intros t y Hy. destruct (tcbs_agree_Some _ _ _ _ Hag Hy)
      as (x & Hx & Hp & _). rewrite <- Hp. by eapply Hprio.
  - intros t y Hy. destruct (tcbs_agree_Some _ _ _ _ Hag Hy)
      as (x & Hx & _). rewrite Hheap. by eapply Hlive.
  - intros t y Hy Hal. destruct (tcbs_agree_Some _ _ _ _ Hag Hy)
      as (x & Hx & _ & He & Ha). rewrite <- He, Hheap.
    destruct (Hstack t x Hx) as [? ?]; [congruence|].
    split; [done|]. by apply (tcbs_agree_None m).
  - intros t u y y' Hy Hy' Hal Hal' Heq.
    destruct (tcbs_agree_Some _ _ _ _ Hag Hy) as (x & Hx & _ & He & Ha).
    destruct (tcbs_agree_Some _ _ _ _ Hag Hy') as (x' & Hx' & _ & He' & Ha').
    eapply (Hinj t u x x'); congruence.
Qed.

(** ** The scheduler pass keeps the state well formed *)

Section SelectInv.

Context (K : config).

Local Abbreviation P := (RTOS_PRIORITY_COUNT K).

Lemma reparented_spec (m : machine) (L : list_id) :
  sched_wf K m →
  match reparented m with
  | Some (y, tgt) => if decide (L = tgt) then [y] else []
  | None => []
  end =
  match L with
  | Ready p => if prev_requeued_at m p then [active_task m] else []
  | Blocked => if prev_blocked m then [active_task m] else []
  | Exited => []
  end.
Proof.
  intros Hwf. unfold reparented, prev_requeued_at, prev_blocked.
  destruct (decide (active_task m ≠ NULL)) as [Hact|Hact].
  - destruct (wf_active _ _ Hwf Hact) as (_ & a & Ha & _). rewrite Ha.
    rewrite bool_decide_eq_true_2 by done. simpl.
    destruct (decide (state a = TASK_BLOCKED)) as [Hb|Hb];
      destruct L as [p| |]; simpl; try done.
    + by rewrite bool_decide_eq_false_2 by tauto.
    + by rewrite bool_decide_eq_true_2.
    + destruct (decide (Ready p = Ready (priority a))) as [[= ->]|Hne].
      * by rewrite bool_decide_eq_true_2.
      * rewrite bool_decide_eq_false_2; [done|]. intros [_ <-]. by apply Hne.
    + by rewrite bool_decide_eq_false_2.
  - rewrite bool_decide_eq_false_2 by done. simpl.
    destruct (tcbs m !! active_task m); by destruct L.
Qed.

Lemma reparented_Some (m : machine) (y : Z) (tgt : list_id) :
  sched_wf K m → reparented m = Some (y, tgt) →
  y = active_task m ∧ active_task m ≠ NULL ∧ (y ∉ members m) ∧
  ∃ a, tcbs m !! y = Some a ∧ (priority a < P)%nat ∧
       tgt = if decide (state a = TASK_BLOCKED) then Blocked
             else Ready (priority a).
Proof.
  intros Hwf Hr. unfold reparented in Hr.
  destruct (tcbs m !! active_task m) as [a|] eqn:Ha; [|done].
  destruct (decide (active_task m ≠ NULL)) as [Hact|]; [|done].
  injection Hr as <- <-.
  destruct (wf_active _ _ Hwf Hact) as (Hfree & a' & Ha' & Hpa).
  split; [done|]. split; [done|]. split; [done|].
  exists a. split; [done|]. split; [congruence|done].
Qed.

Lemma select_active_task_moves (m : machine) (i : nat) (t : Z) (q : list Z) :
  sched_wf K m →
  ready_tasks m !! i = Some (t :: q) →
  (∀ j, (i < j < P)%nat → ready_tasks m !! j = Some []) →
  ∃ tcb m',
    tcbs m !! t = Some tcb ∧ priority tcb = i ∧
    select_active_task K m = Ret tt m' ∧
    active_task m' = t ∧
    tcbs m' = <[t := set_state TASK_ACTIVE tcb]> (tcbs m) ∧
    lists_moved m m' (Some t) (reparented m) ∧
    length (ready_tasks m') = P ∧
    heap_live m' = heap_live m.
Proof.
  intros Hwf Hi Hab.
  destruct (select_active_task_run K m i t q Hwf Hi Hab)
    as (tcb & m' & Htcb & Hprio & Hrun & Hact & Htcbs & Hex & Hbl & Hlen &
        Hrd & Hheap & _).
  destruct (ready_member_unique K m i (t :: q) t Hwf Hi)
    as (Hnb & Hne & Hu & _); [by left|].
  pose proof (wf_count _ _ Hwf) as Hcount.
  exists tcb, m'. repeat (split; [done|]). split; [|done].
  intros L. rewrite (reparented_spec m L Hwf).
  destruct L as [p| |]; simpl.
  - destruct (decide (p < P)%nat) as [Hp|Hp].
    + rewrite (Hrd p Hp). simpl. f_equal.
      destruct (decide (p = i)) as [->|Hpi].
      * rewrite Hi. simpl. rewrite filter_ne_remove. symmetry.
        apply list_remove_head. eapply NoDup_concat_lookup; [|exact Hi].
        pose proof (wf_nodup _ _ Hwf) as Hnd. unfold members in Hnd.
        by apply NoDup_app in Hnd as (? & _ & _).
      * symmetry. apply filter_ne_notin. intros x [= <-] Hin.
        destruct (ready_lookup_wf K m p Hwf Hp) as [r Hr].
        rewrite Hr in Hin. simpl in Hin. apply Hpi. by eapply Hu.
    + rewrite !lookup_ge_None_2 by lia. simpl.
      unfold prev_requeued_at.
      destruct (decide (active_task m ≠ NULL)) as [Hact'|Hact'].
      * destruct (wf_active _ _ Hwf Hact') as (_ & a & Ha & Hpa).
        rewrite Ha. rewrite (bool_decide_eq_false_2 (_ ∧ _)); [|lia].
        by rewrite andb_false_r.
      * by rewrite bool_decide_eq_false_2.
  - rewrite Hbl. f_equal. symmetry. apply filter_ne_notin.
    by intros x [= <-].
  - rewrite Hex, app_nil_r. symmetry. apply filter_ne_notin.
    by intros x [= <-].
Qed.

Lemma select_active_task_dispatch_wf (m : machine) (i : nat) (t : Z)
    (q : list Z) :
  sched_wf K m →
  ready_tasks m !! i = Some (t :: q) →
  (∀ j, (i < j < P)%nat → ready_tasks m !! j = Some []) →
  ∃ tcb m', select_active_task K m = Ret tt m' ∧ sched_wf K m' ∧
        active_task m' = t ∧ tcbs_agree m m' ∧
        active_state m' = Some TASK_ACTIVE ∧
        lists_moved m m' (Some t) (reparented m) ∧
        heap_live m' = heap_live m ∧
        tcbs m !! t = Some tcb ∧
        tcbs m' = <[t := set_state TASK_ACTIVE tcb]> (tcbs m).
Proof.
  intros Hwf Hi Hab.
  destruct (select_active_task_moves m i t q Hwf Hi Hab)
    as (tcb & m' & Htcb & Hprio & Hrun & Hact & Htcbs & Hmv & Hlen & Hheap).
  exists tcb.
  pose proof (lookup_lt_Some _ _ _ Hi) as Hilt.
  rewrite (wf_count _ _ Hwf) in Hilt.
  assert (Hag : tcbs_agree m m').
  { eapply tcbs_agree_insert; [exact Htcb| |exact Htcbs]. by repeat split. }
  assert (Htm : t ∈ members m).
  { apply elem_of_members. exists (Ready i). simpl. rewrite Hi. by left. }
  exists m'. split; [done|]. split; [|split; [done|]; split; [done|]].
  - split.
    + done.
    + apply (wf_positive _ _ Hwf).
    + eapply lists_moved_nodup; [apply (wf_nodup _ _ Hwf)|exact Hmv|].
      intros y tgt Hr. right.
      by destruct (reparented_Some m y tgt Hwf Hr) as (_ & _ & ? & _).
    + intros p r x Hp Hx.
      assert (Hx' : x ∈ list_of m' (Ready p)) by (simpl; by rewrite Hp).
      apply (lists_moved_elem _ _ _ _ _ _ Hmv) in Hx' as [[Hx' Hne]|Hr].
      * simpl in Hx'.
        destruct (ready_tasks m !! p) as [r0|] eqn:Hr0; simpl in Hx';
          [|by apply elem_of_nil in Hx'].
        destruct (wf_ready _ _ Hwf p r0 x Hr0 Hx') as (y & Hy & Hpy).
        rewrite Htcbs. destruct (decide (x = t)) as [->|Hxt]; [done|].
        rewrite lookup_insert_ne by done. eauto.
      * destruct (reparented_Some m x _ Hwf Hr)
          as (Hx1 & _ & Hfree & a & Ha & Hpa & Htgt).
        rewrite Htcbs.
        assert (x ≠ t) by (intros ->; by apply Hfree).
        rewrite lookup_insert_ne by done. exists a. split; [done|].
        destruct (decide (state a = TASK_BLOCKED)); by inversion Htgt.
    + intros _. rewrite Hact. split.
      * intros Hin.
        apply (lists_moved_members _ _ _ _ _ Hmv) in Hin as [[_ ?]|[L Hr]];
          [done|].
        destruct (reparented_Some m t L Hwf Hr) as (_ & _ & Hfree & _).
        by apply Hfree.
      * rewrite Htcbs, lookup_insert_eq. eexists. split; [done|].
        simpl. lia.
  - split; [|done]. unfold active_state.
    by rewrite Hact, Htcbs, lookup_insert_eq.
Qed.

Lemma sched_wf_agree (m m' : machine) :
  sched_wf K m → tcbs_agree m m' →
  ready_tasks m' = ready_tasks m → blocked_tasks m' = blocked_tasks m →
  exited_tasks m' = exited_tasks m → active_task m' = active_task m →
  sched_wf K m'.
Proof.
  intros Hwf Hag Hr Hb He Ha.
  assert (Hm : members m' = members m) by (unfold members; congruence).
  split.
  - rewrite Hr. apply (wf_count _ _ Hwf).
  - apply (wf_positive _ _ Hwf).
  - rewrite Hm. apply (wf_nodup _ _ Hwf).
  - intros p q t Hq Ht. rewrite Hr in Hq.
    destruct (wf_ready _ _ Hwf p q t Hq Ht) as (x & Hx & Hp).
    pose proof (Hag t) as Ht'. rewrite Hx in Ht'.
    inversion Ht' as [? y (Hp' & _)|]. exists y. split; [done|]. congruence.
  - rewrite Ha, Hm. intros Hact.
    destruct (wf_active _ _ Hwf Hact) as (Hfree & a & Hx & Hpa).
    split; [done|]. pose proof (Hag (active_task m)) as Ht'. rewrite Hx in Ht'.
    inversion Ht' as [? y (Hp' & _)|]. exists y. split; [done|]. lia.
Qed.

(** Writing the state or the block cause of the active task's control block
    keeps the invariant. *)
Lemma sched_inv_active_state (m m' : machine) (a a' : task_status_t) :
  sched_inv K m →
  tcbs m !! active_task m = Some a → same_static a a' →
  tcbs m' = <[active_task m := a']> (tcbs m) →
  ready_tasks m' = ready_tasks m → blocked_tasks m' = blocked_tasks m →
  exited_tasks m' = exited_tasks m → active_task m' = active_task m →
  heap_live m' = heap_live m →
  sched_inv K m'.
Proof.
  intros [Hwf Htcbs Htcb Hrd Hbl] Ha Hs Heq Hr Hb He Hact Hheap.
  assert (Hag : tcbs_agree m m') by (by eapply tcbs_agree_insert).
  assert (Hm : members m' = members m) by (unfold members; congruence).
  split.
  - by apply (sched_wf_agree m).
  - by apply (tcbs_inv_agree K m).
  - intros t Ht. rewrite Hm in Ht. apply (tcbs_agree_is_Some m); [done|].
    by apply Htcb.
  - intros t y Hy Hne. rewrite Hact in Hne.
    rewrite Heq, lookup_insert_ne in Hy by done.
    simpl. rewrite Hr. by apply Hrd.
  - intros t y Hy Hne. rewrite Hact in Hne.
    rewrite Heq, lookup_insert_ne in Hy by done.
    rewrite Hb. by apply Hbl.
Qed.

(** X1.  From every well-formed scheduler state [select_active_task]
    returns, and the state it leaves is well formed again.  It allocates
    and frees nothing.  No control block appears or disappears, and every
    control block keeps every field but the state; the state changes for
    the task dispatched at most, to ACTIVE, and when some ready queue holds
    a task the active task's state is ACTIVE afterwards. *)
Lemma select_active_task_wf (m : machine) :
  sched_wf K m →
  ∃ m', select_active_task K m = Ret tt m' ∧ sched_wf K m' ∧
        tcbs_agree m m' ∧ heap_live m' = heap_live m ∧
        (∀ u tcb, tcbs m !! u = Some tcb →
           ∃ tcb', tcbs m' !! u = Some tcb' ∧ same_but_state tcb tcb' ∧
                   (state tcb' ≠ state tcb →
                    u = active_task m' ∧ state tcb' = TASK_ACTIVE)) ∧
        (∀ u, tcbs m !! u = None → tcbs m' !! u = None) ∧
        (¬ Forall (λ q, q = []) (ready_tasks m) →
         active_state m' = Some TASK_ACTIVE).
Proof.
  intros Hwf.
  destruct (decide (Forall (λ q, q = []) (ready_tasks m))) as [Hall|Hsome].
  - exists m. split; [by apply select_active_task_idle|].
    split; [done|]. split; [apply tcbs_agree_refl|]. split; [done|].
    split; [|done].
    intros u tcb Hu. exists tcb. split; [done|]. split; [|done].
    by repeat split.
  - destruct (highest_nonempty_exists (ready_tasks m))
      as (i & t & q & Hi & Hab);
      [rewrite (wf_count _ _ Hwf); apply (wf_positive _ _ Hwf)|done|].
    rewrite (wf_count _ _ Hwf) in Hab.
    destruct (select_active_task_dispatch_wf m i t q Hwf Hi Hab)
      as (tcb & m' & Hrun & Hwf' & Hact & Hag & Hst & _ & Hheap & Ht & Htc).
    exists m'. do 4 (split; [done|]). split; [|split; [|done]].
    + intros u y Hu. rewrite Htc.
      destruct (decide (u = t)) as [->|Hne].
      * assert (y = tcb) as -> by congruence.
        eexists. split; [apply lookup_insert_eq|].
        split; [by repeat split|]. by intros _.
      * exists y. rewrite lookup_insert_ne by done.
        split; [done|]. split; [by repeat split|]. done.
    + intros u Hu. rewrite Htc. rewrite lookup_insert_ne; [done|].
      intros ->. congruence.
Qed.

(** The scheduler pass keeps the invariant when the previous active task,
    if there is one, has been marked READY or BLOCKED. *)
Lemma select_active_task_inv (m : machine) :
  sched_inv K m →
  (active_task m ≠ NULL →
   active_state m = Some TASK_READY ∨ active_state m = Some TASK_BLOCKED) →
  ∃ m', select_active_task K m = Ret tt m' ∧ sched_inv K m' ∧
        heap_live m' = heap_live m ∧ tcbs_agree m m' ∧
        exited_tasks m' = exited_tasks m.
Proof.
  intros Hinv Hst. pose proof (inv_wf _ _ Hinv) as Hwf.
  destruct (decide (Forall (λ q, q = []) (ready_tasks m))) as [Hall|Hsome].
  { exists m. split; [by apply select_active_task_idle|].
    split; [done|]. split; [done|]. split; [apply tcbs_agree_refl|done]. }
  destruct (highest_nonempty_exists (ready_tasks m))
    as (i & t & q & Hi & Hab);
    [rewrite (wf_count _ _ Hwf); apply (wf_positive _ _ Hwf)|done|].
  rewrite (wf_count _ _ Hwf) in Hab.
  destruct (select_active_task_dispatch_wf m i t q Hwf Hi Hab)
    as (tcb & m' & Hrun & Hwf' & Hact & Hag & _ & Hmv & Hheap & Htcb & Heq).
  destruct Hinv as [_ Htcbs Hmem Hrd Hbl].
  assert (Hprev : ∀ u y, tcbs m !! u = Some y → u = active_task m →
            active_task m ≠ NULL ∧
            (u ∉ members m) ∧
            (state y = TASK_READY ∨ state y = TASK_BLOCKED) ∧
            reparented m =
              Some (u, if decide (state y = TASK_BLOCKED) then Blocked
                       else Ready (priority y))).
  { intros u y Hy ->.
    assert (Hnz : active_task m ≠ NULL).
    { intros Hz. rewrite Hz, (inv_null _ _ Htcbs) in Hy. done. }
    destruct (wf_active _ _ Hwf Hnz) as (Hfree & _).
    split; [done|]. split; [done|]. split.
    - unfold active_state in Hst. rewrite Hy in Hst. simpl in Hst.
      destruct (Hst Hnz) as [[= ->]|[= ->]]; [by left|by right].
    - unfold reparented. rewrite Hy. by rewrite decide_True. }
  assert (Hother : ∀ u L, u ≠ active_task m → reparented m ≠ Some (u, L)).
  { intros u L Hne Hr.
    by destruct (reparented_Some m u L Hwf Hr) as (-> & _). }
  exists m'. split; [done|]. split; [|split; [done|]; split; [done|]].
  - split.
    + done.
    + by apply (tcbs_inv_agree K m).
    + intros x Hx.
      apply (lists_moved_members _ _ _ _ _ Hmv) in Hx as [[Hx _]|[L Hr]].
      * apply (tcbs_agree_is_Some m); [done|]. by apply Hmem.
      * destruct (reparented_Some m x L Hwf Hr) as (_ & _ & _ & a & Ha & _).
        apply (tcbs_agree_is_Some m); [done|]. by eexists.
    + intros u y Hy Hne. rewrite Hact in Hne.
      rewrite Heq, lookup_insert_ne in Hy by done.
      rewrite (lists_moved_elem _ _ _ _ _ _ Hmv).
      destruct (decide (u = active_task m)) as [Hu|Hu].
      * destruct (Hprev u y Hy Hu) as (Hnz & Hfree & Hsty & Hr).
        rewrite Hr. split.
        -- intros Hst'. right. rewrite decide_False by congruence. done.
        -- intros [[Hin _]|Hr'].
           ++ exfalso. apply Hfree. apply elem_of_members. by eexists.
           ++ destruct (decide (state y = TASK_BLOCKED)); [done|].
              by destruct Hsty.
      * rewrite (Hrd u y Hy Hu). split.
        -- intros Hin. left. split; [done|]. congruence.
        -- intros [[Hin _]|Hr]; [done|]. by apply Hother in Hr.
    + intros u y Hy Hne. rewrite Hact in Hne.
      rewrite Heq, lookup_insert_ne in Hy by done.
      change (blocked_tasks m') with (list_of m' Blocked).
      rewrite (lists_moved_elem _ _ _ _ _ _ Hmv).
      destruct (decide (u = active_task m)) as [Hu|Hu].
      * destruct (Hprev u y Hy Hu) as (Hnz & Hfree & Hsty & Hr).
        rewrite Hr. split.
        -- intros Hst'. right. by rewrite decide_True.
        -- intros [[Hin _]|Hr'].
           ++ exfalso. apply Hfree. apply elem_of_members. by exists Blocked.
           ++ by destruct (decide (state y = TASK_BLOCKED)).
      * rewrite (Hbl u y Hy Hu). split.
        -- intros Hin. left. split; [done|]. congruence.
        -- intros [[Hin _]|Hr]; [done|]. by apply Hother in Hr.
  - specialize (Hmv Exited). simpl in Hmv. rewrite Hmv.
    pose proof (reparented_spec m Exited Hwf) as Hsp. simpl in Hsp.
    rewrite Hsp, app_nil_r. apply filter_ne_notin. intros x [= <-].
    by destruct (ready_member_unique K m i (t :: q) t Hwf Hi) as (_ & ? & _);
      [by left|].
Qed.

End SelectInv.

(** ** Operations that move one block between lists *)

Section Moved.

Context (K : config).

Local Abbreviation P := (RTOS_PRIORITY_COUNT K).

(** The invariant carries over an operation that leaves the active pointer
    alone, takes the block [rem] out of the lists and chains the block of
    [add] into one, when the control blocks of the other tasks are as
    before, the control block taken out for good is gone, and the one
    chained in has the state its list stands for. *)
Lemma sched_inv_moved (m m' : machine) (rem : option Z)
    (add : option (Z * list_id)) :
  sched_inv K m →
  lists_moved m m' rem add →
  length (ready_tasks m') = length (ready_tasks m) →
  active_task m' = active_task m →
  tcbs_inv K m' →
  rem ≠ Some (active_task m) →
  (∀ u, Some u ≠ rem → (∀ L, add ≠ Some (u, L)) →
        tcbs m' !! u = tcbs m !! u) →
  (∀ x, rem = Some x → (∀ L, add ≠ Some (x, L)) → tcbs m' !! x = None) →
  (∀ y tgt, add = Some (y, tgt) →
     (Some y = rem ∨ y ∉ members m) ∧ y ≠ active_task m ∧
     ∃ tcb, tcbs m' !! y = Some tcb ∧
       match tgt with
       | Ready p => p = priority tcb ∧ state tcb = TASK_READY
       | Blocked => state tcb = TASK_BLOCKED
       | Exited => state tcb ≠ TASK_READY ∧ state tcb ≠ TASK_BLOCKED
       end) →
  sched_inv K m'.
Proof.
  intros [Hwf Htcbs Hmem Hrd Hbl] Hmv Hlen Hact Htcbs' Hrem Hsame Hgone Hadd.
  assert (Hold : ∀ x L, x ∈ list_of m L → Some x ≠ rem →
                        ∀ L', add ≠ Some (x, L')).
  { intros x L HL Hne L' Ha. destruct (Hadd x L' Ha) as ([?|Hn] & _); [done|].
    apply Hn. apply elem_of_members. by exists L. }
  split.
  - split.
    + rewrite Hlen. apply (wf_count _ _ Hwf).
    + apply (wf_positive _ _ Hwf).
    + eapply lists_moved_nodup; [apply (wf_nodup _ _ Hwf)|exact Hmv|].
      intros y tgt Ha. by destruct (Hadd y tgt Ha) as (? & _).
    + intros p q x Hq Hx.
      assert (Hx' : x ∈ list_of m' (Ready p)) by (simpl; by rewrite Hq).
      apply (lists_moved_elem _ _ _ _ _ _ Hmv) in Hx' as [[Hx' Hne]|Ha].
      * rewrite (Hsame x Hne (Hold x _ Hx' Hne)). simpl in Hx'.
        destruct (ready_tasks m !! p) as [r|] eqn:Hr; simpl in Hx';
          [|by apply elem_of_nil in Hx'].
        by eapply (wf_ready _ _ Hwf).
      * destruct (Hadd x _ Ha) as (_ & _ & tcb & Ht & -> & _). eauto.
    + rewrite Hact. intros Hnz.
      destruct (wf_active _ _ Hwf Hnz) as (Hfree & a & Ha & Hpa).
      assert (Hna : ∀ L, add ≠ Some (active_task m, L)).
      { intros L Hadd'. by destruct (Hadd _ _ Hadd') as (_ & ? & _). }
      split.
      * intros Hin.
        apply (lists_moved_members _ _ _ _ _ Hmv) in Hin as [[? _]|[L HL]];
          [done|]. by apply Hna in HL.
      * exists a. split; [|done]. rewrite Hsame; [done| |done]. congruence.
  - done.
  - intros x Hx.
    apply (lists_moved_members _ _ _ _ _ Hmv) in Hx as [[Hx Hne]|[L Ha]].
    + apply elem_of_members in Hx as Hx'. destruct Hx' as [L HL].
      rewrite (Hsame x Hne (Hold x L HL Hne)). by apply Hmem.
    + destruct (Hadd x L Ha) as (_ & _ & tcb & Ht & _). by eexists.
  - intros u y Hy Hne. rewrite Hact in Hne.
    rewrite (lists_moved_elem _ _ _ _ _ _ Hmv).
    destruct add as [[z tgt]|] eqn:Ea.
    + destruct (decide (u = z)) as [->|Huz].
      * destruct (Hadd z tgt eq_refl) as (Hfresh & _ & tcb & Ht & Htgt).
        assert (tcb = y) as -> by congruence.
        assert (Hleft : ¬ (z ∈ list_of m (Ready (priority y)) ∧ Some z ≠ rem)).
        { intros [Hin Hner]. by apply (Hold z _ Hin Hner tgt). }
        destruct tgt as [p| |].
        -- destruct Htgt as [-> Hs]. split; [by right|done].
        -- split; [congruence|]. intros [?|[=]]. done.
        -- destruct Htgt as [Hs _]. split; [done|]. intros [?|[=]]. done.
      * assert (Hnadd : ∀ L, Some (z, tgt) ≠ Some (u, L)) by congruence.
        destruct (decide (Some u = rem)) as [Hur|Hur].
        -- rewrite (Hgone u) in Hy; [done|done|]. intros L. apply Hnadd.
        -- rewrite (Hsame u Hur) in Hy by (intros L; apply Hnadd).
           rewrite (Hrd u y Hy Hne). split; [by left|].
           intros [[? _]|?]; [done|]. by apply Hnadd in H.
    + destruct (decide (Some u = rem)) as [Hur|Hur].
      * by rewrite (Hgone u) in Hy.
      * rewrite (Hsame u Hur) in Hy by done.
        rewrite (Hrd u y Hy Hne). split; [by left|]. by intros [[? _]|?].
  - intros u y Hy Hne. rewrite Hact in Hne.
    change (blocked_tasks m') with (list_of m' Blocked).
    rewrite (lists_moved_elem _ _ _ _ _ _ Hmv).
    destruct add as [[z tgt]|] eqn:Ea.
    + destruct (decide (u = z)) as [->|Huz].
      * destruct (Hadd z tgt eq_refl) as (Hfresh & _ & tcb & Ht & Htgt).
        assert (tcb = y) as -> by congruence.
        assert (Hleft : ¬ (z ∈ list_of m Blocked ∧ Some z ≠ rem)).
        { intros [Hin Hner]. by apply (Hold z _ Hin Hner tgt). }
        destruct tgt as [p| |].
        -- destruct Htgt as [_ Hs]. split; [congruence|].
           intros [?|[=]]. done.
        -- split; [by right|done].
        -- destruct Htgt as [_ Hs]. split; [done|]. intros [?|[=]]. done.
      * assert (Hnadd : ∀ L, Some (z, tgt) ≠ Some (u, L)) by congruence.
        destruct (decide (Some u = rem)) as [Hur|Hur].
        -- rewrite (Hgone u) in Hy; [done|done|]. intros L. apply Hnadd.
        -- rewrite (Hsame u Hur) in Hy by (intros L; apply Hnadd).
           rewrite (Hbl u y Hy Hne). split; [by left|].
           intros [[? _]|?]; [done|]. by apply Hnadd in H.
    + destruct (decide (Some u = rem)) as [Hur|Hur].
      * by rewrite (Hgone u) in Hy.
      * rewrite (Hsame u Hur) in Hy by done.
        rewrite (Hbl u y Hy Hne). split; [by left|]. by intros [[? _]|?].
Qed.

End Moved.

(** ** Yielding, blocking, unblocking *)

Section YieldBlock.

Context (K : config).

Local Abbreviation P := (RTOS_PRIORITY_COUNT K).

Lemma task_yield_run (m : machine) (a : task_status_t) :
  tcbs m !! active_task m = Some a →
  task_yield m =
    Ret tt (with_ICSR (SETBITS (SCB_ICSR m) SCB_ICSR_PENDSVSET_Msk)
              (with_tcbs (λ h, <[active_task m := set_state TASK_READY a]> h)
                 m)).
Proof.
  intros Ha. unfold task_yield, bind, get, store_tcb, set_pendsv, modify.
  by rewrite Ha.
Qed.

Lemma block_active_task_run (m : machine) (a : task_status_t) (reason : Z) :
  tcbs m !! active_task m = Some a →
  ∃ m1, block_active_task reason m = Ret tt m1 ∧
    tcbs m1 = <[active_task m :=
                  set_blockcause reason (set_state TASK_BLOCKED a)]> (tcbs m) ∧
    ready_tasks m1 = ready_tasks m ∧ blocked_tasks m1 = blocked_tasks m ∧
    exited_tasks m1 = exited_tasks m ∧ active_task m1 = active_task m ∧
    heap_live m1 = heap_live m.
Proof.
  intros Ha. eexists. split.
  - unfold block_active_task, bind, get, store_tcb, set_pendsv, modify.
    rewrite Ha. simpl. rewrite lookup_insert_eq. reflexivity.
  - simpl. by rewrite insert_insert_eq.
Qed.

Lemma yield_select_inv (m : machine) :
  sched_inv K m → is_Some (tcbs m !! active_task m) →
  ∃ m', (task_yield ;; select_active_task K) m = Ret tt m' ∧
        sched_inv K m' ∧ heap_live m' = heap_live m ∧
        exited_tasks m' = exited_tasks m.
Proof.
  intros Hinv [a Ha]. unfold bind. rewrite (task_yield_run m a Ha).
  set (m1 := with_ICSR _ _).
  assert (Hinv1 : sched_inv K m1).
  { apply (sched_inv_active_state K m m1 a (set_state TASK_READY a) Hinv Ha);
      [by repeat split|done..]. }
  destruct (select_active_task_inv K m1 Hinv1) as (m' & Hrun & ? & ? & _ & ?).
  { intros _. left. unfold active_state. simpl.
    by rewrite lookup_insert_eq. }
  exists m'. by rewrite Hrun.
Qed.

Lemma block_select_inv (m : machine) (reason : Z) :
  sched_inv K m → is_Some (tcbs m !! active_task m) →
  ∃ m', (block_active_task reason ;; select_active_task K) m = Ret tt m' ∧
        sched_inv K m' ∧ heap_live m' = heap_live m ∧
        exited_tasks m' = exited_tasks m.
Proof.
  intros Hinv [a Ha]. unfold bind.
  destruct (block_active_task_run m a reason Ha)
    as (m1 & Hrun1 & Ht & Hr & Hb & He & Hact & Hheap).
  rewrite Hrun1.
  assert (Hinv1 : sched_inv K m1).
  { apply (sched_inv_active_state K m m1 a
             (set_blockcause reason (set_state TASK_BLOCKED a)) Hinv Ha);
      [by repeat split|done..]. }
  destruct (select_active_task_inv K m1 Hinv1)
    as (m' & Hrun & Hinv' & Hh' & _ & He').
  { intros _. right. unfold active_state.
    by rewrite Hact, Ht, lookup_insert_eq. }
  exists m'. rewrite Hrun. split; [done|]. split; [done|].
  split; congruence.
Qed.

Lemma unblock_task_run (m : machine) (task reason : Z) (tsk : task_status_t)
    (q : list Z) :
  tcbs m !! task = Some tsk →
  state tsk = TASK_BLOCKED → blockcause tsk = reason →
  ready_tasks m !! priority tsk = Some q →
  ∃ m', unblock_task K task reason m = Ret tt m' ∧
    tcbs m' = <[task := set_blockcause (BLOCK_NONE K)
                          (set_state TASK_READY tsk)]> (tcbs m) ∧
    blocked_tasks m' = list_remove (blocked_tasks m) task ∧
    ready_tasks m' = <[priority tsk := q ++ [task]]> (ready_tasks m) ∧
    exited_tasks m' = exited_tasks m ∧ active_task m' = active_task m ∧
    heap_live m' = heap_live m.
Proof.
  intros Ht Hst Hc Hq.
  pose proof (lookup_lt_Some _ _ _ Hq) as Hlt.
  eexists. split.
  - unfold unblock_task, bind, load_tcb, store_tcb, modify, load_ready,
      store_ready. rewrite Ht.
    rewrite decide_False by (intros [?|?]; congruence).
    rewrite Ht. simpl. rewrite lookup_insert_eq. simpl. rewrite Hq.
    rewrite decide_True by done. reflexivity.
  - simpl. by rewrite insert_insert_eq.
Qed.

Lemma unblock_task_noop (m : machine) (task reason : Z)
    (tsk : task_status_t) :
  tcbs m !! task = Some tsk →
  state tsk ≠ TASK_BLOCKED ∨ blockcause tsk ≠ reason →
  unblock_task K task reason m = Ret tt m.
Proof.
  intros Ht Hg. unfold unblock_task, bind, load_tcb. rewrite Ht.
  by rewrite decide_True.
Qed.

Lemma unblock_task_inv (m : machine) (task reason : Z) (tsk : task_status_t) :
  sched_inv K m → task ≠ active_task m → tcbs m !! task = Some tsk →
  ∃ m', unblock_task K task reason m = Ret tt m' ∧ sched_inv K m' ∧
        heap_live m' = heap_live m ∧ exited_tasks m' = exited_tasks m.
Proof.
  intros Hinv Hna Ht.
  destruct (decide (state tsk ≠ TASK_BLOCKED ∨ blockcause tsk ≠ reason))
    as [Hg|Hg].
  { exists m. by rewrite (unblock_task_noop m task reason tsk). }
  assert (Hst : state tsk = TASK_BLOCKED).
  { destruct (decide (state tsk = TASK_BLOCKED)); [done|]. exfalso. tauto. }
  assert (Hc : blockcause tsk = reason).
  { destruct (decide (blockcause tsk = reason)); [done|]. exfalso. tauto. }
  pose proof (inv_wf _ _ Hinv) as Hwf.
  pose proof (inv_prio _ _ (inv_tcbs _ _ Hinv) task tsk Ht) as Hp.
  destruct (ready_lookup_wf K m _ Hwf Hp) as [q Hq].
  destruct (unblock_task_run m task reason tsk q Ht Hst Hc Hq)
    as (m' & Hrun & Htc & Hb & Hr & He & Hact & Hheap).
  assert (Hin : task ∈ blocked_tasks m) by (by apply (inv_blocked _ _ Hinv task tsk)).
  destruct (NoDup_members_elim m (wf_nodup _ _ Hwf)) as [_ Hdis].
  assert (Honly : ∀ L, task ∈ list_of m L → L = Blocked).
  { intros L HL. by apply (Hdis L Blocked task). }
  assert (Hmv : lists_moved m m' (Some task)
                  (Some (task, Ready (priority tsk)))).
  { intros [p| |]; simpl.
    - rewrite Hr. destruct (decide (p = priority tsk)) as [->|Hne].
      + rewrite list_lookup_insert_eq by (by eapply lookup_lt_Some).
        rewrite Hq, decide_True by done. simpl. f_equal. symmetry.
        apply filter_ne_notin. intros x [= <-] Hx.
        specialize (Honly (Ready (priority tsk))). simpl in Honly.
        rewrite Hq in Honly. by specialize (Honly Hx).
      + rewrite list_lookup_insert_ne by done.
        rewrite decide_False by congruence. rewrite app_nil_r. symmetry.
        apply filter_ne_notin. intros x [= <-] Hx.
        by specialize (Honly (Ready p) Hx).
    - by rewrite Hb, filter_ne_remove, app_nil_r.
    - rewrite He, app_nil_r. symmetry. apply filter_ne_notin.
      intros x [= <-] Hx. by specialize (Honly Exited Hx). }
  exists m'. split; [done|]. split; [|done].
  eapply (sched_inv_moved K m m'); try done.
  - by rewrite Hr, length_insert.
  - eapply (tcbs_inv_agree K m); [apply (inv_tcbs _ _ Hinv)| |done].
    eapply tcbs_agree_insert; [exact Ht| |exact Htc]. by repeat split.
  - congruence.
  - intros u Hu Hnadd. rewrite Htc. apply lookup_insert_ne. congruence.
  - intros x [= <-] Hn. exfalso. by eapply Hn.
  - intros y tgt [= <- <-]. split; [by left|]. split; [done|].
    eexists. rewrite Htc, lookup_insert_eq. split; [done|]. by split.
Qed.

End YieldBlock.

(** ** Freeing a control block *)

Section Destroy.

Context (K : config).

Local Abbreviation P := (RTOS_PRIORITY_COUNT K).

Lemma tcbs_inv_free (m m' : machine) (task : Z) (tsk : task_status_t) :
  tcbs_inv K m → tcbs m !! task = Some tsk →
  tcbs m' = delete task (if stack_allocated tsk
                         then delete (stack_end tsk) (tcbs m) else tcbs m) →
  heap_live m' =
    filter (λ p, p ≠ task)
      (if stack_allocated tsk
       then filter (λ p, p ≠ stack_end tsk) (heap_live m) else heap_live m) →
  tcbs_inv K m' ∧ tcbs m' = delete task (tcbs m).
Proof.
  intros [Hnull Hprio Hlive Hstack Hinj] Ht Htc Hh.
  assert (Htc' : tcbs m' = delete task (tcbs m)).
  { rewrite Htc. destruct (stack_allocated tsk) eqn:Hal; [|done].
    destruct (Hstack task tsk Ht Hal) as [_ Hn]. by rewrite (delete_id _ _ Hn). }
  split; [|done].
  assert (Hsub : ∀ u y, tcbs m' !! u = Some y → u ≠ task ∧ tcbs m !! u = Some y).
  { intros u y Hy. rewrite Htc' in Hy.
    apply lookup_delete_Some in Hy as [? ?]. by split; [congruence|]. }
  assert (Hkeep : ∀ p, p ∈ heap_live m → p ≠ task →
            (stack_allocated tsk = true → p ≠ stack_end tsk) →
            p ∈ heap_live m').
  { intros p Hp Hne Hns. rewrite Hh. apply list_elem_of_filter. split; [done|].
    destruct (stack_allocated tsk); [|done].
    apply list_elem_of_filter. split; [by apply Hns|done]. }
  split.
  - rewrite Htc'. apply lookup_delete_None. by right.
  - intros u y Hy. destruct (Hsub u y Hy) as [_ Hy']. by eapply Hprio.
  - intros u y Hy. destruct (Hsub u y Hy) as [Hne Hy'].
    apply Hkeep; [by eapply Hlive|done|].
    intros Hal ->. destruct (Hstack task tsk Ht Hal) as [_ Hn]. congruence.
  - intros u y Hy Hal. destruct (Hsub u y Hy) as [Hne Hy'].
    destruct (Hstack u y Hy' Hal) as [Hin Hn]. split.
    + apply Hkeep; [done| |].
      * intros Heq. rewrite Heq in Hn. congruence.
      * intros Hal' Heq. apply Hne. by eapply (Hinj u task y tsk).
    + rewrite Htc'. apply lookup_delete_None. by right.
  - intros u v y y' Hy Hy' Hal Hal' Heq.
    destruct (Hsub u y Hy) as [_ Hy1]. destruct (Hsub v y' Hy') as [_ Hy1'].
    by eapply (Hinj u v y y').
Qed.

Lemma task_destroy_self_run (trigger_svcall : M unit) (m : machine) :
  is_Some (tcbs m !! active_task m) →
  task_destroy trigger_svcall (active_task m) m =
    trigger_svcall
      (with_active NULL (with_exited (exited_tasks m ++ [active_task m]) m)).
Proof.
  intros [a Ha]. unfold task_destroy, bind, get, load_tcb, modify.
  rewrite decide_True by done. by rewrite Ha.
Qed.

Lemma task_destroy_inactive_run (trigger_svcall : M unit) (m : machine)
    (task : Z) (tsk : task_status_t) :
  task ≠ active_task m → tcbs m !! task = Some tsk →
  (state tsk = TASK_READY → priority tsk < length (ready_tasks m))%nat →
  ∃ m', task_destroy trigger_svcall task m = Ret tt m' ∧
    blocked_tasks m' =
      (if decide (state tsk = TASK_BLOCKED)
       then list_remove (blocked_tasks m) task else blocked_tasks m) ∧
    ready_tasks m' =
      (if decide (state tsk = TASK_READY)
       then <[priority tsk :=
                list_remove (default [] (ready_tasks m !! priority tsk)) task]>
              (ready_tasks m)
       else ready_tasks m) ∧
    heap_live m' =
      filter (λ p, p ≠ task)
        (if stack_allocated tsk
         then filter (λ p, p ≠ stack_end tsk) (heap_live m)
         else heap_live m) ∧
    tcbs m' =
      delete task
        (if stack_allocated tsk then delete (stack_end tsk) (tcbs m)
         else tcbs m) ∧
    active_task m' = active_task m ∧
    exited_tasks m' = exited_tasks m ∧
    trace m' =
      trace m ++
      (if decide (state tsk = TASK_BLOCKED ∨ state tsk = TASK_READY) then []
       else [EvLog SYSLOGLEVEL_WARNING TAG
               "Inactive destroyed task is not in blocked or ready list"]).
Proof.
  intros Hna Ht Hprio.
  unfold task_destroy, bind, get, load_tcb, modify, load_ready, store_ready,
    free, LOG_W, log, modify, ret.
  rewrite decide_False by done. rewrite Ht.
  destruct (decide (state tsk = TASK_BLOCKED)) as [Hb|Hb].
  - rewrite decide_False by congruence.
    rewrite (decide_True (P := _ ∨ _)) by (by left).
    destruct (stack_allocated tsk); eexists; simpl; rewrite app_nil_r;
      repeat split.
  - destruct (decide (state tsk = TASK_READY)) as [Hr|Hr].
    + specialize (Hprio Hr).
      destruct (lookup_lt_is_Some_2 _ _ Hprio) as [q Hq].
      rewrite Hq. simpl. rewrite decide_True by done.
      rewrite (decide_True (P := _ ∨ _)) by (by right).
      destruct (stack_allocated tsk); eexists; simpl; rewrite app_nil_r;
        repeat split.
    + rewrite (decide_False (P := _ ∨ _)) by tauto.
      destruct (stack_allocated tsk); eexists; simpl; repeat split.
Qed.

(** Destroying a task other than the active one, not yet on the exited
    list, keeps the invariant. *)
Lemma task_destroy_inv (trigger_svcall : M unit) (m : machine) (task : Z)
    (tsk : task_status_t) :
  sched_inv K m → task ≠ active_task m → tcbs m !! task = Some tsk →
  task ∉ exited_tasks m →
  ∃ m', task_destroy trigger_svcall task m = Ret tt m' ∧ sched_inv K m' ∧
    lists_moved m m' (Some task) None ∧
    tcbs m' = delete task (tcbs m) ∧
    heap_live m' =
      filter (λ p, p ≠ task)
        (if stack_allocated tsk
         then filter (λ p, p ≠ stack_end tsk) (heap_live m)
         else heap_live m) ∧
    active_task m' = active_task m.
Proof.
  intros Hinv Hna Ht Hnex.
  pose proof (inv_wf _ _ Hinv) as Hwf.
  pose proof (inv_prio _ _ (inv_tcbs _ _ Hinv) task tsk Ht) as Hp.
  destruct (ready_lookup_wf K m _ Hwf Hp) as [q Hq].
  destruct (task_destroy_inactive_run trigger_svcall m task tsk Hna Ht)
    as (m' & Hrun & Hb & Hr & Hh & Htc & Hact & He & _).
  { intros _. by eapply lookup_lt_Some. }
  destruct (tcbs_inv_free m m' task tsk (inv_tcbs _ _ Hinv) Ht Htc Hh)
    as [Htcbs' Htc'].
  assert (Hmv : lists_moved m m' (Some task) None).
  { intros L. rewrite app_nil_r. destruct L as [p| |]; simpl.
    - rewrite Hr. destruct (decide (state tsk = TASK_READY)) as [Hs|Hs].
      + destruct (decide (p = priority tsk)) as [->|Hne].
        * rewrite list_lookup_insert_eq by (by eapply lookup_lt_Some).
          simpl. by rewrite filter_ne_remove.
        * rewrite list_lookup_insert_ne by done. symmetry.
          apply filter_ne_notin. intros x [= <-] Hx. apply Hne.
          destruct (ready_tasks m !! p) as [r|] eqn:Hrp; simpl in Hx;
            [|by apply elem_of_nil in Hx].
          destruct (wf_ready _ _ Hwf p r task Hrp Hx) as (y & Hy & <-).
          congruence.
      + symmetry. apply filter_ne_notin. intros x [= <-] Hx. apply Hs.
        destruct (ready_tasks m !! p) as [r|] eqn:Hrp; simpl in Hx;
          [|by apply elem_of_nil in Hx].
        destruct (wf_ready _ _ Hwf p r task Hrp Hx) as (y & Hy & Hpy).
        assert (y = tsk) as -> by congruence.
        apply (inv_ready _ _ Hinv task tsk Ht Hna). simpl.
        by rewrite Hpy, Hrp.
    - rewrite Hb. destruct (decide (state tsk = TASK_BLOCKED)) as [Hs|Hs].
      + by rewrite filter_ne_remove.
      + symmetry. apply filter_ne_notin. intros x [= <-] Hx. apply Hs.
        by apply (inv_blocked _ _ Hinv task tsk Ht Hna).
    - rewrite He. symmetry. apply filter_ne_notin. by intros x [= <-]. }
  exists m'. split; [done|]. split; [|done].
  eapply (sched_inv_moved K m m' (Some task) None); try done.
  - rewrite Hr. destruct (decide (state tsk = TASK_READY)); [|done].
    by rewrite length_insert.
  - congruence.
  - intros u Hu _. rewrite Htc'. apply lookup_delete_ne. congruence.
  - intros x [= <-] _. rewrite Htc'. apply lookup_delete_eq.
Qed.

End Destroy.

(** ** The reaping loop of the idle task *)

Section Reap.

Context (K : config).

Lemma member_not_active (m : machine) (t : Z) :
  sched_inv K m → t ∈ members m → t ≠ active_task m.
Proof.
  intros Hinv Ht Heq. destruct (decide (active_task m = NULL)) as [Hn|Hn].
  - destruct (inv_tcb _ _ Hinv t Ht) as [y Hy].
    rewrite Heq, Hn, (inv_null _ _ (inv_tcbs _ _ Hinv)) in Hy. done.
  - destruct (wf_active _ _ (inv_wf _ _ Hinv) Hn) as [Hnm _]. congruence.
Qed.

Lemma reap_task_run (m : machine) (t : Z) (rest : list Z)
    (tsk : task_status_t) :
  exited_tasks m = t :: rest → tcbs m !! t = Some tsk →
  ∃ m', reap_task m = Ret tt m' ∧
    exited_tasks m' = list_remove (t :: rest) t ∧
    ready_tasks m' = ready_tasks m ∧
    blocked_tasks m' = blocked_tasks m ∧
    active_task m' = active_task m ∧
    tcbs m' =
      delete t (if stack_allocated tsk then delete (stack_end tsk) (tcbs m)
                else tcbs m) ∧
    heap_live m' =
      filter (λ p, p ≠ t)
        (if stack_allocated tsk
         then filter (λ p, p ≠ stack_end tsk) (heap_live m)
         else heap_live m) ∧
    trace m' = trace m ++ [EvLog SYSLOGLEVEL_DEBUG TAG "Reaping task"] ∧
    malloc_oracle m' = malloc_oracle m.
Proof.
  intros He Ht.
  unfold reap_task, bind, get, modify, LOG_MIN, log, modify, load_tcb, free,
    modify, ret.
  rewrite He. simpl. rewrite Ht.
  destruct (stack_allocated tsk); eexists; simpl; repeat split.
Qed.

(** One turn of the loop takes the head of the exited list, frees its
    control block and its allocated stack, and keeps the invariant. *)
Lemma reap_task_inv (m : machine) (t : Z) (rest : list Z) :
  sched_inv K m → exited_tasks m = t :: rest →
  ∃ tsk m', tcbs m !! t = Some tsk ∧ reap_task m = Ret tt m' ∧
    sched_inv K m' ∧
    exited_tasks m' = rest ∧
    ready_tasks m' = ready_tasks m ∧
    blocked_tasks m' = blocked_tasks m ∧
    active_task m' = active_task m ∧
    tcbs m' = delete t (tcbs m) ∧
    heap_live m' =
      filter (λ p, p ≠ t)
        (if stack_allocated tsk
         then filter (λ p, p ≠ stack_end tsk) (heap_live m)
         else heap_live m) ∧
    trace m' = trace m ++ [EvLog SYSLOGLEVEL_DEBUG TAG "Reaping task"] ∧
    malloc_oracle m' = malloc_oracle m.
Proof.
  intros Hinv He.
  pose proof (inv_wf _ _ Hinv) as Hwf.
  assert (Hmem : t ∈ members m).
  { apply elem_of_members. exists Exited. simpl. rewrite He. by left. }
  destruct (inv_tcb _ _ Hinv t Hmem) as [tsk Ht].
  pose proof (member_not_active m t Hinv Hmem) as Hna.
  destruct (reap_task_run m t rest tsk He Ht)
    as (m' & Hrun & He' & Hr & Hb & Hact & Htc & Hh & Htr & Hor).
  destruct (tcbs_inv_free K m m' t tsk (inv_tcbs _ _ Hinv) Ht Htc Hh)
    as [Htcbs' Htc'].
  destruct (NoDup_members_elim m (wf_nodup _ _ Hwf)) as [Hnd Huniq].
  assert (Hnodup : NoDup (t :: rest)).
  { rewrite <- He. apply (Hnd Exited). }
  pose proof (list_remove_head t rest Hnodup) as Hrest.
  assert (Hmv : lists_moved m m' (Some t) None).
  { intros L. rewrite app_nil_r.
    assert (Hdis : ∀ L', L' ≠ Exited → t ∉ list_of m L').
    { intros L' Hne Hin.
      apply Hne. apply (Huniq L' Exited t Hin). simpl. rewrite He. by left. }
    destruct L as [p| |]; simpl.
    - rewrite Hr. symmetry. apply filter_ne_notin. intros x [= <-].
      by apply (Hdis (Ready p)).
    - rewrite Hb. symmetry. apply filter_ne_notin. intros x [= <-].
      by apply (Hdis Blocked).
    - rewrite He', He. by rewrite filter_ne_remove. }
  exists tsk, m'. split; [done|]. split; [done|]. split.
  - eapply (sched_inv_moved K m m' (Some t) None); try done.
    + by rewrite Hr.
    + congruence.
    + intros u Hu _. rewrite Htc'. apply lookup_delete_ne. congruence.
    + intros x [= <-] _. rewrite Htc'. apply lookup_delete_eq.
  - rewrite He', Hrest. by repeat split.
Qed.

Lemma reap_exited_tasks_nil (fuel : nat) (m : machine) :
  exited_tasks m = [] → reap_exited_tasks fuel m = Some (Ret tt m).
Proof.
  intros He. destruct fuel; simpl; rewrite He;
    by rewrite decide_False by (by intros []).
Qed.

Lemma reap_nothing (m : machine) :
  exited_tasks m = [] →
  (∀ u, tcbs m !! u =
        if decide (u ∈ exited_tasks m) then None else tcbs m !! u) ∧
  (∀ p, p ∈ heap_live m ↔ p ∈ heap_live m ∧ ¬ reaped m p) ∧
  trace m =
    trace m ++ replicate (length (exited_tasks m))
                 (EvLog SYSLOGLEVEL_DEBUG TAG "Reaping task").
Proof.
  intros He. split; [|split].
  - intros u. rewrite decide_False; [done|]. rewrite He. apply not_elem_of_nil.
  - intros p. split; [|by intros [? _]]. intros Hp. split; [done|].
    unfold reaped. rewrite He.
    intros [Hx|(t & tsk & Hx & _)]; by apply elem_of_nil in Hx.
  - rewrite He. simpl. by rewrite app_nil_r.
Qed.

Lemma reap_exited_tasks_inv (fuel : nat) (m : machine) :
  sched_inv K m → (length (exited_tasks m) ≤ fuel)%nat →
  ∃ m', reap_exited_tasks fuel m = Some (Ret tt m') ∧
    sched_inv K m' ∧
    exited_tasks m' = [] ∧
    ready_tasks m' = ready_tasks m ∧
    blocked_tasks m' = blocked_tasks m ∧
    active_task m' = active_task m ∧
    (∀ u, tcbs m' !! u =
          if decide (u ∈ exited_tasks m) then None else tcbs m !! u) ∧
    (∀ p, p ∈ heap_live m' ↔ p ∈ heap_live m ∧ ¬ reaped m p) ∧
    trace m' =
      trace m ++ replicate (length (exited_tasks m))
                   (EvLog SYSLOGLEVEL_DEBUG TAG "Reaping task") ∧
    malloc_oracle m' = malloc_oracle m.
Proof.
  revert m. induction fuel as [|fuel IH]; intros m Hinv Hlen.
  - destruct (exited_tasks m) as [|t rest] eqn:He; [|simpl in Hlen; lia].
    destruct (reap_nothing m He) as (H1 & H2 & H3). rewrite He in H1, H3.
    exists m. rewrite (reap_exited_tasks_nil _ m He). rewrite ?He.
    by do 6 (split; [done|]).
  - destruct (exited_tasks m) as [|t rest] eqn:He.
    + destruct (reap_nothing m He) as (H1 & H2 & H3). rewrite He in H1, H3.
      exists m. rewrite (reap_exited_tasks_nil _ m He). rewrite ?He.
      by do 6 (split; [done|]).
    + destruct (reap_task_inv m t rest Hinv He)
        as (tsk & m1 & Ht & Hrun & Hinv1 & He1 & Hr1 & Hb1 & Ha1 & Htc1 & Hh1
            & Htr1 & Ho1).
      destruct (IH m1 Hinv1) as (m' & Hloop & Hinv' & He' & Hr' & Hb' & Ha'
                                  & Htc' & Hh' & Htr' & Ho').
      { rewrite He1. simpl in Hlen. lia. }
      destruct (NoDup_members_elim m (wf_nodup _ _ (inv_wf _ _ Hinv)))
        as [Hnd _].
      specialize (Hnd Exited). simpl in Hnd. rewrite He in Hnd.
      apply NoDup_cons in Hnd as [Htr Hndr].
      assert (Hlk : ∀ u, u ∈ rest → tcbs m1 !! u = tcbs m !! u).
      { intros u Hu. rewrite Htc1. apply lookup_delete_ne. intros ->. done. }
      exists m'. simpl. rewrite He. rewrite decide_True by done.
      rewrite Hrun. split; [done|]. split; [done|]. split; [done|].
      split; [congruence|]. split; [congruence|]. split; [congruence|].
      split; [|split; [|split; [|congruence]]].
      * intros u. rewrite Htc', He1, Htc1.
        destruct (decide (u = t)) as [->|Hne].
        -- rewrite decide_False by done. rewrite lookup_delete_eq.
           rewrite decide_True; [done|by left].
        -- rewrite lookup_delete_ne by done.
           destruct (decide (u ∈ rest)) as [Hin|Hin].
           ++ rewrite decide_True; [done|by right].
           ++ rewrite decide_False; [done|].
              intros Hx. apply elem_of_cons in Hx as [?|?]; done.
      * intros p. rewrite Hh'. unfold reaped. rewrite He1, He.
        assert (Hp1 : p ∈ heap_live m1 ↔
                  p ∈ heap_live m ∧ p ≠ t ∧
                  ¬ (stack_allocated tsk = true ∧ stack_end tsk = p)).
        { rewrite Hh1, list_elem_of_filter.
          destruct (stack_allocated tsk).
          - rewrite list_elem_of_filter. split.
            + intros (? & ? & ?). split; [done|]. split; [done|].
              intros [_ ?]. congruence.
            + intros (? & ? & Hn). split; [done|]. split; [|done].
              intros ->. by apply Hn.
          - split.
            + intros (? & ?). split; [done|]. split; [done|]. by intros [? _].
            + intros (? & ? & _). done. }
        rewrite Hp1. split.
        -- intros [(Hp & Hpt & Hps) Hnr]. split; [done|].
           intros [Hx|(t' & tsk' & Hx & Ht' & Hal & Hse)].
           ++ apply elem_of_cons in Hx as [?|Hx]; [done|].
              apply Hnr. by left.
           ++ apply elem_of_cons in Hx as [->|Hx].
              ** apply Hps. assert (tsk' = tsk) as -> by congruence. done.
              ** apply Hnr. right. exists t', tsk'. rewrite (Hlk t' Hx). done.
        -- intros [Hp Hnr]. split; [split; [done|split]|].
           ++ intros ->. apply Hnr. left. by left.
           ++ intros [Hal Hse]. apply Hnr. right. exists t, tsk.
              split; [by left|done].
           ++ intros [Hx|(t' & tsk' & Hx & Ht' & Hal & Hse)].
              ** apply Hnr. left. by right.
              ** apply Hnr. right. exists t', tsk'. rewrite <- (Hlk t' Hx).
                 split; [by right|done].
      * rewrite Htr', Htr1, He1. simpl. by rewrite <- app_assoc.
Qed.

(** With fewer turns than tasks on the exited list the loop has not
    finished. *)
Lemma reap_exited_tasks_fuel (fuel : nat) (m : machine) :
  sched_inv K m → (fuel < length (exited_tasks m))%nat →
  reap_exited_tasks fuel m = None.
Proof.
  revert m. induction fuel as [|fuel IH]; intros m Hinv Hlen.
  - destruct (exited_tasks m) as [|t rest] eqn:He; [simpl in Hlen; lia|].
    simpl. rewrite He. by rewrite decide_True.
  - destruct (exited_tasks m) as [|t rest] eqn:He; [simpl in Hlen; lia|].
    destruct (reap_task_inv m t rest Hinv He)
      as (tsk & m1 & Ht & Hrun & Hinv1 & He1 & _).
    simpl. rewrite He. rewrite decide_True by done. rewrite Hrun.
    apply IH; [done|]. rewrite He1. simpl in Hlen. lia.
Qed.

Lemma reap_exited_tasks_mono (fuel fuel' : nat) (m : machine)
    (r : result unit) :
  reap_exited_tasks fuel m = Some r → (fuel ≤ fuel')%nat →
  reap_exited_tasks fuel' m = Some r.
Proof.
  revert m fuel'. induction fuel as [|fuel IH]; intros m fuel' Hr Hle.
  - simpl in Hr. destruct (decide (exited_tasks m ≠ [])) as [He|He]; [done|].
    destruct fuel'; simpl; by rewrite decide_False.
  - destruct fuel' as [|fuel']; [lia|]. simpl in Hr |- *.
    destruct (decide (exited_tasks m ≠ [])) as [He|He]; [|done].
    destruct (reap_task m) as [[] m1|c m1|m1|]; try done.
    apply IH; [done|lia].
Qed.

End Reap.

(** ** Creating a task *)

Section CreateInv.

Context (K : config).

Local Abbreviation P := (RTOS_PRIORITY_COUNT K).

(** Every way [task_create] returns: with the null handle and nothing
    chained, or with the first block of the allocator as a control block
    newly chained. *)
Lemma task_create_run (fn a : Z) (cfg : option task_config_t)
    (m m' : machine) (task : Z) :
  task_create K fn a cfg m = Ret task m' →
  active_task m' = active_task m ∧ blocked_tasks m' = blocked_tasks m ∧
  exited_tasks m' = exited_tasks m ∧ SCB_ICSR m' = SCB_ICSR m ∧
  ((task = NULL ∧ ready_tasks m' = ready_tasks m ∧ ram m' = ram m ∧
    ((tcbs m' = tcbs m ∧ ∃ extra, heap_live m' = heap_live m ++ extra) ∨
     (∃ t0 rest, malloc_oracle m = t0 :: rest ∧ t0 ≠ NULL ∧
        tcbs m' = delete t0 (tcbs m) ∧
        heap_live m' = filter (λ q, q ≠ t0) (heap_live m ++ [t0])))) ∨
   (task ≠ NULL ∧ fn ≠ NULL ∧
    ∃ tcb q rest,
      malloc_oracle m = task :: rest ∧
      tcbs m' = <[task := tcb]> (tcbs m) ∧
      state tcb = TASK_READY ∧ blockcause tcb = BLOCK_NONE K ∧
      entry tcb = fn ∧ arg tcb = a ∧
      priority tcb = match cfg with
                     | Some c => task_priority c
                     | None => DEFAULT_PRIORITY K
                     end ∧
      ready_tasks m !! priority tcb = Some q ∧
      ready_tasks m' = <[priority tcb := q ++ [task]]> (ready_tasks m) ∧
      heap_live m' =
        heap_live m ++
        task :: (if stack_allocated tcb then [stack_end tcb] else []) ∧
      (stack_allocated tcb = true →
         stack_end tcb ≠ NULL ∧ ∃ rest', rest = stack_end tcb :: rest') ∧
      stack_ptr tcb =
        (initialize_task_stack (task_exithandler K) (stack_start tcb)
           fn a).1 ∧
      ram m' =
        write_words
          (initialize_task_stack (task_exithandler K) (stack_start tcb)
             fn a).2 (ram m) ∧
      frame_ok (sizeof_task_status_t K) (tcbs m') (stack_end tcb)
        (stack_start tcb)
        (initialize_task_stack (task_exithandler K) (stack_start tcb)
           fn a).2)).
Proof.
  intros Hrun. unfold task_create in Hrun.
  case_decide as He.
  { injection Hrun as <- <-. do 4 (split; [done|]). left.
    do 3 (split; [done|]). left. split; [done|]. exists []. by rewrite app_nil_r. }
  unfold bind at 1 in Hrun. unfold malloc at 1 in Hrun.
  destruct (malloc_oracle m) as [|t0 rest] eqn:Ho.
  { rewrite decide_True in Hrun by done. injection Hrun as <- <-.
    do 4 (split; [done|]). left.
    do 3 (split; [done|]). left. split; [done|]. exists [].
    by rewrite app_nil_r. }
  destruct (decide (t0 = NULL)) as [Ht0|Ht0].
  { injection Hrun as <- <-. do 4 (split; [done|]). left.
    do 3 (split; [done|]). left. split; [done|]. exists [].
    by rewrite app_nil_r. }
  set (m0 := with_heap (heap_live m ++ [t0]) rest m) in Hrun.
  assert (Hfin : ∀ (m1 : machine) prio nm s_end (al : bool) s_start,
    ready_tasks m1 = ready_tasks m → SCB_ICSR m1 = SCB_ICSR m →
    active_task m1 = active_task m → blocked_tasks m1 = blocked_tasks m →
    exited_tasks m1 = exited_tasks m → tcbs m1 = tcbs m → ram m1 = ram m →
    heap_live m1 = heap_live m ++ t0 :: (if al then [s_end] else []) →
    (al = true → s_end ≠ NULL ∧ ∃ rest', rest = s_end :: rest') →
    prio = match cfg with
           | Some c => task_priority c
           | None => DEFAULT_PRIORITY K
           end →
    (let s := initialize_task_stack (task_exithandler K) s_start fn a in
     modify (with_tcbs
       (<[t0 := mk_task_status s.1 s_start s_end fn a
                  TASK_READY nm al (BLOCK_NONE K) prio]>)) ;;
     store_frame K s_end s_start s.2 ;;
     do r <- load_ready prio;
     store_ready prio (list_append r t0) ;;
     do r <- load_ready prio;
     if decide (r = []) then
       LOG_E TAG "Could not append new task to ready list" ;;
       free t0 ;;
       do t <- load_tcb t0;
       (if stack_allocated t then free (stack_start t) else ret tt) ;;
       ret NULL
     else ret t0) m1 = Ret task m' →
    active_task m' = active_task m ∧ blocked_tasks m' = blocked_tasks m ∧
    exited_tasks m' = exited_tasks m ∧ SCB_ICSR m' = SCB_ICSR m ∧
    task = t0 ∧
    ∃ tcb q,
      tcbs m' = <[task := tcb]> (tcbs m) ∧
      state tcb = TASK_READY ∧ blockcause tcb = BLOCK_NONE K ∧
      entry tcb = fn ∧ arg tcb = a ∧
      priority tcb = match cfg with
                     | Some c => task_priority c
                     | None => DEFAULT_PRIORITY K
                     end ∧
      ready_tasks m !! priority tcb = Some q ∧
      ready_tasks m' = <[priority tcb := q ++ [task]]> (ready_tasks m) ∧
      heap_live m' =
        heap_live m ++
        task :: (if stack_allocated tcb then [stack_end tcb] else []) ∧
      (stack_allocated tcb = true →
         stack_end tcb ≠ NULL ∧ ∃ rest', rest = stack_end tcb :: rest') ∧
      stack_ptr tcb =
        (initialize_task_stack (task_exithandler K) (stack_start tcb)
           fn a).1 ∧
      ram m' =
        write_words
          (initialize_task_stack (task_exithandler K) (stack_start tcb)
             fn a).2 (ram m) ∧
      frame_ok (sizeof_task_status_t K) (tcbs m') (stack_end tcb)
        (stack_start tcb)
        (initialize_task_stack (task_exithandler K) (stack_start tcb)
           fn a).2).
  { intros m1 prio nm s_end al s_start Hr Hi Ha Hb Hx Htc Hram Hh Hal Hprio Hk.
    cbv zeta in Hk.
    remember (initialize_task_stack (task_exithandler K) s_start fn a)
      as s eqn:Hs.
    unfold bind, modify, store_frame, load_ready, store_ready in Hk.
    destruct (decide (frame_ok _ _ _ _ _)) as [Hok|Hok]; [|done].
    cbn [tcbs ready_tasks with_ram with_tcbs] in Hk, Hok.
    destruct (ready_tasks m1 !! prio) as [q|] eqn:Hq; [|done].
    pose proof (lookup_lt_Some _ _ _ Hq) as Hlt.
    rewrite decide_True in Hk by done.
    cbn [ready_tasks with_ready] in Hk.
    rewrite list_lookup_insert_eq in Hk by done.
    rewrite decide_False in Hk by (unfold list_append; by destruct q).
    injection Hk as <- <-.
    do 4 (split; [done|]). split; [done|].
    eexists _, q. cbn.
    split; [by rewrite Htc|]. do 5 (split; [done|]).
    split; [by rewrite <- Hr|]. split; [by rewrite <- Hr|].
    split; [done|]. split; [done|]. split; [by rewrite Hs|].
    split; [by rewrite Hram, Hs|]. rewrite Hs in Hok |- *.
    exact Hok. }
  assert (Hnull : ∀ (m1 : machine) (r : Z),
    ready_tasks m1 = ready_tasks m → SCB_ICSR m1 = SCB_ICSR m →
    active_task m1 = active_task m → blocked_tasks m1 = blocked_tasks m →
    exited_tasks m1 = exited_tasks m → tcbs m1 = tcbs m → ram m1 = ram m →
    heap_live m1 = heap_live m ++ [t0] →
    (free t0 ;; ret r) m1 = Ret task m' →
    r = NULL →
    active_task m' = active_task m ∧ blocked_tasks m' = blocked_tasks m ∧
    exited_tasks m' = exited_tasks m ∧ SCB_ICSR m' = SCB_ICSR m ∧
    (task = NULL ∧ ready_tasks m' = ready_tasks m ∧ ram m' = ram m ∧
      ((tcbs m' = tcbs m ∧ ∃ extra, heap_live m' = heap_live m ++ extra) ∨
       (∃ t1 rest1, t0 :: rest = t1 :: rest1 ∧ t1 ≠ NULL ∧
          tcbs m' = delete t1 (tcbs m) ∧
          heap_live m' = filter (λ q, q ≠ t1) (heap_live m ++ [t1]))))).
  { intros m1 r Hr Hi Ha Hb Hx Htc Hram Hh Hk ->.
    unfold bind, free, modify, ret in Hk. injection Hk as <- <-. simpl.
    do 4 (split; [done|]). do 3 (split; [done|]). right.
    exists t0, rest. by rewrite Htc, Hh. }
  destruct cfg as [c|].
  - destruct (decide (P < task_priority c)%nat) as [Hp|Hp].
    { unfold ret in Hrun. injection Hrun as <- <-.
      do 4 (split; [done|]). left. do 3 (split; [done|]). left.
      split; [done|]. by exists [t0]. }
    destruct (decide (task_stack c ≠ NULL)) as [Hs|Hs].
    + destruct (Hfin m0 (task_priority c) (default EmptyString (task_name c))
               (task_stack c) false
               (task_stack c + (task_stacksize c - 1)))
        as (Ha & Hb & Hx & Hi & -> & tcb & q & Hrest); [done..| |].
      { cbv beta iota zeta delta [bind ret] in Hrun |- *. exact Hrun. }
      do 4 (split; [done|]). right. split; [done|]. split; [done|].
      by exists tcb, q, rest.
    + unfold bind at 1 2 3, malloc, ret in Hrun.
      cbn [malloc_oracle with_heap m0] in Hrun.
      destruct rest as [|s0 rest'].
      { rewrite decide_True in Hrun by done.
        destruct (Hnull m0 NULL) as (Ha & Hb & Hx & Hi & Hn); try done.
        do 4 (split; [done|]). by left. }
      destruct (decide (s0 = NULL)) as [Hs0|Hs0].
      { destruct (Hnull (with_heap (heap_live m0) rest' m0) NULL)
          as (Ha & Hb & Hx & Hi & Hn); try done.
        do 4 (split; [done|]). by left. }
      destruct (Hfin (with_heap (heap_live m0 ++ [s0]) rest' m0)
               (task_priority c) (default EmptyString (task_name c))
               s0 true (s0 + (task_stacksize c - 1)))
        as (Ha & Hb & Hx & Hi & -> & tcb & q & Hrest); [done..| | | | |].
      { simpl. by rewrite <- app_assoc. }
      { intros _. split; [done|]. by exists rest'. }
      { done. }
      { cbv beta iota zeta delta [bind ret] in Hrun |- *. exact Hrun. }
      do 4 (split; [done|]). right. split; [done|]. split; [done|].
      by exists tcb, q, (s0 :: rest').
  - unfold bind at 1 2, malloc, ret in Hrun.
    cbn [malloc_oracle with_heap m0] in Hrun.
    destruct rest as [|s0 rest'].
    { rewrite decide_True in Hrun by done.
      destruct (Hnull m0 NULL) as (Ha & Hb & Hx & Hi & Hn); try done.
      do 4 (split; [done|]). by left. }
    destruct (decide (s0 = NULL)) as [Hs0|Hs0].
    { destruct (Hnull (with_heap (heap_live m0) rest' m0) NULL)
        as (Ha & Hb & Hx & Hi & Hn); try done.
      do 4 (split; [done|]). by left. }
    destruct (Hfin (with_heap (heap_live m0 ++ [s0]) rest' m0)
             (DEFAULT_PRIORITY K) EmptyString
             s0 true (s0 + (DEFAULT_STACKSIZE K - 1)))
      as (Ha & Hb & Hx & Hi & -> & tcb & q & Hrest); [done..| | | | |].
    { simpl. by rewrite <- app_assoc. }
    { intros _. split; [done|]. by exists rest'. }
    { done. }
    { cbv beta iota zeta delta [bind ret] in Hrun |- *. exact Hrun. }
    do 4 (split; [done|]). right. split; [done|]. split; [done|].
    by exists tcb, q, (s0 :: rest').
Qed.

Lemma tcbs_inv_heap_grow (m m' : machine) :
  tcbs_inv K m → tcbs m' = tcbs m →
  (∀ p, p ∈ heap_live m → p ∈ heap_live m') →
  tcbs_inv K m'.
Proof.
  intros [Hnull Hprio Hlive Hstack Hinj] Htc Hsub.
  split; rewrite Htc; try done.
  - intros t tcb Ht. apply Hsub. by eapply Hlive.
  - intros t tcb Ht Hal. destruct (Hstack t tcb Ht Hal). split; [|done].
    by apply Hsub.
Qed.

Lemma lists_moved_same (m m' : machine) :
  ready_tasks m' = ready_tasks m → blocked_tasks m' = blocked_tasks m →
  exited_tasks m' = exited_tasks m →
  lists_moved m m' None None.
Proof.
  intros Hr Hb Hx L. rewrite app_nil_r.
  rewrite filter_ne_notin by done.
  destruct L; simpl; congruence.
Qed.

(** What [malloc_fresh] says of a non-null first block of the allocator,
    and of a non-null second one. *)
Lemma malloc_fresh_first (m : machine) (t0 : Z) (rest : list Z) :
  malloc_fresh m → malloc_oracle m = t0 :: rest → t0 ≠ NULL →
  (t0 ∉ heap_live m) ∧
  ∀ s0 rest', rest = s0 :: rest' → s0 ≠ NULL →
              s0 ≠ t0 ∧ (s0 ∉ heap_live m).
Proof.
  unfold malloc_fresh. intros [Hnd Hall] Ho Ht0. rewrite Ho in Hnd, Hall.
  simpl in Hnd, Hall.
  rewrite filter_cons_True in Hnd, Hall by done.
  apply NoDup_cons in Hnd as [Hnin Hnd].
  apply Forall_cons in Hall as [Hf1 Hall].
  split; [done|]. intros s0 rest' -> Hs0. simpl in Hnin, Hall.
  rewrite filter_cons_True in Hnin, Hall by done.
  apply Forall_cons in Hall as [Hf2 _]. split; [|done].
  intros ->. apply Hnin. by left.
Qed.

(** [task_create] keeps the invariant when the allocator hands out fresh
    blocks, whether it returns a handle or the null handle. *)
Lemma task_create_inv (fn a : Z) (cfg : option task_config_t)
    (m m' : machine) (task : Z) :
  sched_inv K m → malloc_fresh m →
  task_create K fn a cfg m = Ret task m' →
  sched_inv K m' ∧
  (task = NULL → tcbs m' = tcbs m ∧ lists_moved m m' None None) ∧
  (task ≠ NULL →
     tcbs m !! task = None ∧ (task ∉ members m) ∧
     ∃ tcb, tcbs m' = <[task := tcb]> (tcbs m) ∧
       lists_moved m m' None (Some (task, Ready (priority tcb)))).
Proof.
  intros Hinv Hfresh Hrun.
  pose proof (inv_wf _ _ Hinv) as Hwf.
  pose proof (inv_tcbs _ _ Hinv) as Htcbs.
  assert (Hdead : ∀ u, u ∉ heap_live m → tcbs m !! u = None).
  { intros u Hu. destruct (tcbs m !! u) as [y|] eqn:Hy; [|done].
    destruct Hu. by eapply (inv_live _ _ Htcbs). }
  destruct (task_create_run fn a cfg m m' task Hrun)
    as (Ha & Hb & Hx & _ & [(-> & Hr & _ & Hcase)|(Hnz & _ & Hcase)]).
  - assert (Hsame : tcbs m' = tcbs m ∧
                    ∀ p, p ∈ heap_live m → p ∈ heap_live m').
    { destruct Hcase as [[Htc [extra Hh]]|(t0 & rest & Ho & Ht0 & Htc & Hh)].
      - split; [done|]. intros p Hp. rewrite Hh. apply elem_of_app. by left.
      - destruct (malloc_fresh_first m t0 rest Hfresh Ho Ht0) as [Hn _].
        split.
        + rewrite Htc. apply delete_id. by apply Hdead.
        + intros p Hp. rewrite Hh. apply list_elem_of_filter. split.
          * intros ->. done.
          * apply elem_of_app. by left. }
    destruct Hsame as [Htc Hsub].
    pose proof (lists_moved_same m m' Hr Hb Hx) as Hmv.
    split; [|split; [done|done]].
    eapply (sched_inv_moved K m m' None None); try done.
    + by rewrite Hr.
    + by eapply tcbs_inv_heap_grow.
    + intros u _ _. by rewrite Htc.
  - destruct Hcase as (tcb & q & rest & Ho & Htc & Hst & _ & _ & _ & Hprio
                       & Hq & Hr & Hh & Hal & _).
    destruct (malloc_fresh_first m task rest Hfresh Ho Hnz) as [Hn Hsnd].
    pose proof (Hdead task Hn) as Hnone.
    assert (Hnmem : task ∉ members m).
    { intros Hin. destruct (inv_tcb _ _ Hinv task Hin) as [y Hy]. congruence. }
    assert (Hmv : lists_moved m m' None (Some (task, Ready (priority tcb)))).
    { intros L. rewrite filter_ne_notin by done.
      destruct L as [p| |]; simpl.
      - rewrite Hr. destruct (decide (p = priority tcb)) as [->|Hne].
        + rewrite list_lookup_insert_eq by (by eapply lookup_lt_Some).
          rewrite decide_True by done. by rewrite Hq.
        + rewrite list_lookup_insert_ne by done.
          rewrite decide_False by congruence. by rewrite app_nil_r.
      - by rewrite Hb, app_nil_r.
      - by rewrite Hx, app_nil_r. }
    assert (Hsub : ∀ p, p ∈ heap_live m → p ∈ heap_live m').
    { intros p Hp. rewrite Hh. apply elem_of_app. by left. }
    assert (Hstk : stack_allocated tcb = true →
              stack_end tcb ≠ task ∧ (stack_end tcb ∉ heap_live m) ∧
              stack_end tcb ∈ heap_live m').
    { intros Hal'. destruct (Hal Hal') as (Hsn & rest' & ->).
      destruct (Hsnd _ _ eq_refl Hsn) as [? ?]. split; [done|].
      split; [done|]. rewrite Hh, Hal'. apply elem_of_app. right.
      apply elem_of_cons. right. by left. }
    assert (Htcbs' : tcbs_inv K m').
    { destruct Htcbs as [Hnull Hpr Hlive Hstack Hinj]. split.
      - rewrite Htc, lookup_insert_ne by done. done.
      - intros u y. rewrite Htc. intros Hy.
        apply lookup_insert_Some in Hy as [[<- <-]|[_ Hy]].
        + rewrite <- (wf_count _ _ Hwf). by eapply lookup_lt_Some.
        + by eapply Hpr.
      - intros u y. rewrite Htc. intros Hy.
        apply lookup_insert_Some in Hy as [[<- <-]|[_ Hy]].
        + rewrite Hh. apply elem_of_app. right. by left.
        + apply Hsub. by eapply Hlive.
      - intros u y. rewrite Htc. intros Hy Hal'.
        apply lookup_insert_Some in Hy as [[<- <-]|[Hne Hy]].
        + destruct (Hstk Hal') as (Hne & Hnl & Hin). split; [done|].
          rewrite lookup_insert_ne by done. by apply Hdead.
        + destruct (Hstack u y Hy Hal') as [Hin Hno]. split; [by apply Hsub|].
          rewrite lookup_insert_ne; [done|]. intros Heq. apply Hn.
          by rewrite Heq.
      - intros u v y y'. rewrite Htc. intros Hy Hy' Hal1 Hal2 Heq.
        apply lookup_insert_Some in Hy as [[<- <-]|[Hne Hy]];
          apply lookup_insert_Some in Hy' as [[<- <-]|[Hne' Hy']]; try done.
        + destruct (Hstk Hal1) as (_ & Hnl & _).
          destruct (Hstack v y' Hy' Hal2) as [Hin _]. destruct Hnl.
          by rewrite Heq.
        + destruct (Hstk Hal2) as (_ & Hnl & _).
          destruct (Hstack u y Hy Hal1) as [Hin _]. destruct Hnl.
          by rewrite <- Heq.
        + by eapply (Hinj u v y y'). }
    split; [|split; [done|]].
    + eapply (sched_inv_moved K m m' None
                (Some (task, Ready (priority tcb)))); try done.
      * rewrite Hr. by rewrite length_insert.
      * intros u _ Hu. rewrite Htc. apply lookup_insert_ne. intros <-.
        by apply (Hu (Ready (priority tcb))).
      * intros y tgt [= <- <-]. split; [by right|]. split.
        -- intros Heq. destruct (decide (active_task m = NULL)) as [Hz|Hz];
             [congruence|].
           destruct (wf_active _ _ Hwf Hz) as (_ & y & Hy & _). congruence.
        -- exists tcb. rewrite Htc, lookup_insert_eq. done.
    + intros _. split; [done|]. split; [done|]. by exists tcb.
Qed.

End CreateInv.

(** ** Leaving, and the invariant along every operation *)

Section Steps.

Context (K : config).

(** The active task, chained into the exited list with the active pointer
    cleared, as the first branch of [task_destroy] leaves it. *)
Lemma task_destroy_self_inv (m : machine) :
  sched_inv K m → active_state m = Some TASK_ACTIVE →
  sched_inv K (with_active NULL
                 (with_exited (exited_tasks m ++ [active_task m]) m)).
Proof.
  intros Hinv Hst. pose proof (inv_wf _ _ Hinv) as Hwf.
  unfold active_state in Hst.
  destruct (tcbs m !! active_task m) as [a|] eqn:Ha; [|done].
  injection Hst as Hst.
  assert (Hnz : active_task m ≠ NULL).
  { intros Hz. rewrite Hz, (inv_null _ _ (inv_tcbs _ _ Hinv)) in Ha. done. }
  destruct (wf_active _ _ Hwf Hnz) as [Hfree _].
  assert (Hin : ∀ t L, t ∈ list_of m L → t ≠ active_task m).
  { intros t L Ht ->. apply Hfree. apply elem_of_members. by exists L. }
  split.
  - by apply task_destroy_self_wf.
  - destruct (inv_tcbs _ _ Hinv). by split.
  - intros t Ht. apply elem_of_members in Ht as [L Ht]. simpl.
    destruct L as [p| |]; simpl in Ht.
    + apply (inv_tcb _ _ Hinv). apply elem_of_members. by exists (Ready p).
    + apply (inv_tcb _ _ Hinv). apply elem_of_members. by exists Blocked.
    + apply elem_of_app in Ht as [Ht|Ht].
      * apply (inv_tcb _ _ Hinv). apply elem_of_members. by exists Exited.
      * apply list_elem_of_singleton in Ht as ->. by rewrite Ha.
  - intros t tcb Ht _. simpl in Ht |- *.
    destruct (decide (t = active_task m)) as [->|Hne].
    + assert (tcb = a) as -> by congruence. split; [congruence|].
      intros Hx. by destruct (Hin _ (Ready (priority a)) Hx).
    + by apply (inv_ready _ _ Hinv).
  - intros t tcb Ht _. simpl in Ht |- *.
    destruct (decide (t = active_task m)) as [->|Hne].
    + assert (tcb = a) as -> by congruence. split; [congruence|].
      intros Hx. by destruct (Hin _ Blocked Hx).
    + by apply (inv_blocked _ _ Hinv).
Qed.

(** The active task destroys itself and the start handler picks a
    successor: the invariant holds again, the task sits at the tail of the
    exited list, and nothing has been freed. *)
Lemma task_destroy_leave_inv (m : machine) :
  sched_inv K m → active_state m = Some TASK_ACTIVE →
  ∃ m', task_destroy (select_active_task K) (active_task m) m = Ret tt m' ∧
    sched_inv K m' ∧
    exited_tasks m' = exited_tasks m ++ [active_task m] ∧
    heap_live m' = heap_live m ∧ tcbs_agree m m' ∧
    active_task m' ≠ active_task m.
Proof.
  intros Hinv Hst.
  pose proof (task_destroy_self_inv m Hinv Hst) as Hinv1.
  set (m1 := with_active NULL
               (with_exited (exited_tasks m ++ [active_task m]) m)) in *.
  destruct (select_active_task_inv K m1 Hinv1) as (m' & Hsel & Hinv' & Hh
                                                  & Hag & Hx); [done|].
  assert (Hnz : active_task m ≠ NULL).
  { intros Hz. unfold active_state in Hst.
    rewrite Hz, (inv_null _ _ (inv_tcbs _ _ Hinv)) in Hst. done. }
  exists m'. split.
  { rewrite task_destroy_self_run; [exact Hsel|].
    unfold active_state in Hst. by destruct (tcbs m !! active_task m). }
  split; [done|]. split; [done|]. split; [done|]. split; [done|].
  intros Heq.
  destruct (decide (active_task m' = NULL)) as [Hz|Hz]; [congruence|].
  destruct (wf_active _ _ (inv_wf _ _ Hinv') Hz) as [Hfree _].
  apply Hfree. apply elem_of_members. exists Exited. simpl.
  rewrite Hx, Heq. simpl. apply elem_of_app. right. by left.
Qed.

(** Every operation keeps the invariant. *)
Lemma sched_step_inv (m m' : machine) :
  sched_step K m m' → sched_inv K m → sched_inv K m'.
Proof.
  intros Hstep Hinv.
  destruct Hstep as [fn a cfg m m' task Hfresh Hrun
                    |m m' Hrun|reason m m' Hrun
                    |task reason m m' Hna Hrun
                    |task tsk m m' Hna Ht Hst Hrun
                    |m m' Hst Hrun
                    |fuel m m' Hrun].
  - by destruct (task_create_inv K fn a cfg m m' task Hinv Hfresh Hrun).
  - destruct (tcbs m !! active_task m) as [y|] eqn:Hy.
    + destruct (yield_select_inv K m Hinv) as (m2 & Hrun2 & Hinv2 & _);
        [by eexists|]. congruence.
    + unfold bind, task_yield, bind, get, store_tcb in Hrun.
      by rewrite Hy in Hrun.
  - destruct (tcbs m !! active_task m) as [y|] eqn:Hy.
    + destruct (block_select_inv K m reason Hinv) as (m2 & Hrun2 & Hinv2 & _);
        [by eexists|]. congruence.
    + unfold bind, block_active_task, bind, get, store_tcb in Hrun.
      by rewrite Hy in Hrun.
  - destruct (tcbs m !! task) as [y|] eqn:Hy.
    + destruct (unblock_task_inv K m task reason y Hinv Hna Hy)
        as (m2 & Hrun2 & Hinv2 & _). congruence.
    + unfold unblock_task, bind, load_tcb in Hrun. by rewrite Hy in Hrun.
  - assert (Hnx : task ∉ exited_tasks m).
    { intros Hx.
      destruct (NoDup_members_elim m (wf_nodup _ _ (inv_wf _ _ Hinv)))
        as [_ Huniq].
      destruct Hst as [Hs|Hs].
      - apply (inv_ready _ _ Hinv task tsk Ht Hna) in Hs.
        by pose proof (Huniq _ Exited task Hs Hx).
      - apply (inv_blocked _ _ Hinv task tsk Ht Hna) in Hs.
        by pose proof (Huniq Blocked Exited task Hs Hx). }
    destruct (task_destroy_inv K (ret tt) m task tsk Hinv Hna Ht Hnx)
      as (m2 & Hrun2 & Hinv2 & _). congruence.
  - destruct (task_destroy_leave_inv m Hinv Hst) as (m2 & Hrun2 & Hinv2 & _).
    congruence.
  - destruct (decide (length (exited_tasks m) ≤ fuel)%nat) as [Hle|Hgt].
    + destruct (reap_exited_tasks_inv K fuel m Hinv Hle)
        as (m2 & Hrun2 & Hinv2 & _). congruence.
    + rewrite (reap_exited_tasks_fuel K fuel m Hinv) in Hrun by lia. done.
Qed.

(** X14.  The invariant holds along every sequence of these operations,
    each taken when it returns: [task_create] with fresh blocks from the
    allocator; [task_yield] or [block_active_task] followed by the
    scheduler pass of the context switch; [unblock_task] on a task other
    than the active one; [task_destroy] on a READY or BLOCKED task other
    than the active one; [task_destroy] of the active task, its state
    ACTIVE, on itself, followed by the scheduler pass; the idle task's
    reaping loop run to its end.  ([task_destroy] on a task already on the
    exited list is not among them: it frees a block the list still
    names.) *)
Lemma sched_steps_inv (m m' : machine) :
  sched_steps K m m' → sched_inv K m → sched_inv K m'.
Proof.
  induction 1 as [m|m1 m2 m3 Hstep _ IH]; [done|].
  intros Hinv. apply IH. by eapply sched_step_inv.
Qed.

End Steps.

(** ** The initial frame, written and read back *)

Lemma initialize_task_stack_words (exithandler sp pc a0 : Z) :
  0 ≤ sp < 2 ^ 32 →
  initialize_task_stack exithandler sp pc a0 =
    (frame_slot (sp - sp mod 4) 16,
     [ (frame_slot (sp - sp mod 4) 0, INITIAL_xPSR);
       (frame_slot (sp - sp mod 4) 1, pc);
       (frame_slot (sp - sp mod 4) 2, exithandler);
       (frame_slot (sp - sp mod 4) 3, 0x12121212);
       (frame_slot (sp - sp mod 4) 4, 0x03030303);
       (frame_slot (sp - sp mod 4) 5, 0x02020202);
       (frame_slot (sp - sp mod 4) 6, 0x01010101);
       (frame_slot (sp - sp mod 4) 7, a0);
       (frame_slot (sp - sp mod 4) 8, INITIAL_EXEC_RETURN);
       (frame_slot (sp - sp mod 4) 9, 0x11111111);
       (frame_slot (sp - sp mod 4) 10, 0x10101010);
       (frame_slot (sp - sp mod 4) 11, 0x09090909);
       (frame_slot (sp - sp mod 4) 12, 0x08080808);
       (frame_slot (sp - sp mod 4) 13, 0x07070707);
       (frame_slot (sp - sp mod 4) 14, 0x06060606);
       (frame_slot (sp - sp mod 4) 15, 0x05050505);
       (frame_slot (sp - sp mod 4) 16, 0x04040404) ]).
Proof.
  intros Hsp. set (a := sp - sp mod 4).
  assert (Hs : ∀ k, ptr_dec (frame_slot a k) = frame_slot a (k + 1)).
  { intros k. unfold frame_slot. rewrite ptr_dec_wrap32. f_equal. lia. }
  unfold initialize_task_stack. cbv zeta.
  rewrite align_loop_enough by lia.
  fold a. replace a with (frame_slot a 0) at 1 by (by apply frame_slot_0).
  rewrite !store_dec_pair, !Hs. reflexivity.
Qed.

Lemma frame_slot_ne (a j k : Z) :
  0 ≤ j < 2 ^ 30 → 0 ≤ k < 2 ^ 30 → j ≠ k →
  frame_slot a j ≠ frame_slot a k.
Proof.
  unfold frame_slot, wrap32. change (2 ^ 30) with 1073741824.
  change (2 ^ 32) with 4294967296. intros Hj Hk Hne.
  Z.div_mod_to_equations. lia.
Qed.

Lemma ptr_inc_frame_slot (a k j : Z) :
  k = j + 1 → ptr_inc (frame_slot a k) = frame_slot a j.
Proof.
  intros ->. unfold ptr_inc, frame_slot, wrap32.
  rewrite Zplus_mod_idemp_l. f_equal. lia.
Qed.

Lemma frame_slot_aligned (a k : Z) :
  a mod 4 = 0 → frame_slot a k mod 4 = 0.
Proof.
  unfold frame_slot, wrap32. change (2 ^ 32) with 4294967296. intros Ha.
  Z.div_mod_to_equations. lia.
Qed.

Lemma load_words_cons (r : gmap Z Z) (p w : Z) (n : nat) (ws : list Z) :
  r !! p = Some w → load_words r (ptr_inc p) n = Some ws →
  load_words r p (S n) = Some (w :: ws).
Proof. intros Hp Hws. simpl. by rewrite Hp, Hws. Qed.

(** The frame [initialize_task_stack] writes, read back by the restore
    sequence of the handlers from the pointer it returns. *)
Lemma initialize_task_stack_restore (exithandler sp pc a0 : Z)
    (r : gmap Z Z) :
  0 ≤ sp < 2 ^ 32 →
  restore_context
    (write_words (initialize_task_stack exithandler sp pc a0).2 r)
    (initialize_task_stack exithandler sp pc a0).1 =
  Some (mk_cpu_context 0x04040404 0x05050505 0x06060606 0x07070707
          0x08080808 0x09090909 0x10101010 0x11111111 INITIAL_EXEC_RETURN
          a0 0x01010101 0x02020202 0x03030303 0x12121212
          exithandler pc INITIAL_xPSR).
Proof.
  intros Hsp. rewrite initialize_task_stack_words by done.
  set (a := sp - sp mod 4). unfold restore_context.
  cbn [fst snd write_words foldl].
  assert (Hload : load_words
    (<[frame_slot a 16 := 0x04040404]>
       (<[frame_slot a 15 := 0x05050505]>
       (<[frame_slot a 14 := 0x06060606]>
       (<[frame_slot a 13 := 0x07070707]>
       (<[frame_slot a 12 := 0x08080808]>
       (<[frame_slot a 11 := 0x09090909]>
       (<[frame_slot a 10 := 0x10101010]>
       (<[frame_slot a 9 := 0x11111111]>
       (<[frame_slot a 8 := INITIAL_EXEC_RETURN]>
       (<[frame_slot a 7 := a0]>
       (<[frame_slot a 6 := 0x01010101]>
       (<[frame_slot a 5 := 0x02020202]>
       (<[frame_slot a 4 := 0x03030303]>
       (<[frame_slot a 3 := 0x12121212]>
       (<[frame_slot a 2 := exithandler]>
       (<[frame_slot a 1 := pc]>
       (<[frame_slot a 0 := INITIAL_xPSR]> r)))))))))))))))))
    (frame_slot a 16) 17 =
    Some [0x04040404; 0x05050505; 0x06060606; 0x07070707; 0x08080808;
          0x09090909; 0x10101010; 0x11111111; INITIAL_EXEC_RETURN;
          a0; 0x01010101; 0x02020202; 0x03030303; 0x12121212;
          exithandler; pc; INITIAL_xPSR]).
  { assert (Hne : ∀ j k, 0 ≤ j ≤ 16 → 0 ≤ k ≤ 16 → j ≠ k →
                         frame_slot a j ≠ frame_slot a k).
    { intros j k Hj Hk Hjk. apply frame_slot_ne; [| |done];
        change (2 ^ 30) with 1073741824; lia. }
    do 17 (apply load_words_cons;
      [ rewrite ?lookup_insert_ne by (apply Hne; lia);
        by rewrite lookup_insert_eq
      | match goal with
        | |- context [ptr_inc (frame_slot a ?k)] =>
            let j := eval vm_compute in (k - 1) in
            rewrite (ptr_inc_frame_slot a k j) by reflexivity
        end ]).
    reflexivity. }
  cbn [fst snd]. rewrite Hload. by rewrite decide_True.
Qed.

Lemma initialize_task_stack_length (exithandler sp pc a0 : Z) :
  length (initialize_task_stack exithandler sp pc a0).2 = 17%nat.
Proof.
  unfold initialize_task_stack. cbv zeta.
  rewrite !store_dec_pair. reflexivity.
Qed.

(** A frame that fits its stack region leaves the stack start a 32-bit
    address. *)
Lemma frame_ok_range (sz : Z) (tc : gmap Z task_status_t)
    (exithandler s_end s_start pc a0 : Z) :
  frame_ok sz tc s_end s_start
    (initialize_task_stack exithandler s_start pc a0).2 →
  0 ≤ s_start < 2 ^ 32.
Proof.
  intros (H0 & Htop & Hall).
  pose proof (initialize_task_stack_length exithandler s_start pc a0) as Hl.
  destruct (initialize_task_stack exithandler s_start pc a0).2
    as [|w ws]; [done|].
  apply Forall_cons in Hall as [[[Hlo Hhi] _] _]. lia.
Qed.

(** X17.  For every 32-bit initial stack pointer, every store of
    [initialize_task_stack], and the pointer it returns, is word aligned. *)
Lemma initialize_task_stack_aligned (exithandler sp pc a0 : Z) :
  0 ≤ sp < 2 ^ 32 →
  (initialize_task_stack exithandler sp pc a0).1 mod 4 = 0 ∧
  Forall (λ w, w.1 mod 4 = 0)
    (initialize_task_stack exithandler sp pc a0).2.
Proof.
  intros Hsp. rewrite initialize_task_stack_words by done.
  assert (Ha : (sp - sp mod 4) mod 4 = 0) by (Z.div_mod_to_equations; lia).
  cbn [fst snd]. split; [by apply frame_slot_aligned|].
  repeat (apply Forall_cons; split; [by apply frame_slot_aligned|]).
  apply Forall_nil_2.
Qed.

(** X18.  A stack region of [size] bytes from [s_end] whose end is word
    aligned and that holds at least 68 bytes takes the whole frame: the
    pointer returned is 68 bytes below the end of the region, and every
    word stored lies between [s_end] and the address [task_create]
    passes. *)
Lemma initialize_task_stack_within (exithandler pc a0 s_end size : Z) :
  0 ≤ s_end → 68 ≤ size → s_end + size ≤ 2 ^ 32 →
  (s_end + size) mod 4 = 0 →
  (initialize_task_stack exithandler (s_end + (size - 1)) pc a0).1 =
    s_end + size - 68 ∧
  Forall (λ w, s_end ≤ w.1 ∧ w.1 + 3 ≤ s_end + (size - 1))
    (initialize_task_stack exithandler (s_end + (size - 1)) pc a0).2.
Proof.
  intros Hs Hsz Htop Hal. change (2 ^ 32) with 4294967296 in Htop.
  rewrite initialize_task_stack_words
    by (change (2 ^ 32) with 4294967296; lia).
  assert (Ha : s_end + (size - 1) - (s_end + (size - 1)) mod 4
               = s_end + size - 4) by (Z.div_mod_to_equations; lia).
  rewrite Ha. cbn [fst snd].
  assert (Hk : ∀ k, 0 ≤ k ≤ 16 →
            frame_slot (s_end + size - 4) k = s_end + size - 4 - 4 * k).
  { intros k Hk. apply frame_slot_no_wrap; [lia|].
    change (2 ^ 32) with 4294967296. lia. }
  split; [rewrite Hk by lia; lia|].
  repeat (apply Forall_cons; split; [cbn [fst]; rewrite Hk by lia; lia|]).
  apply Forall_nil_2.
Qed.

(** X19.  The size of the stack region is not looked at: with 64 bytes or
    fewer the pointer [initialize_task_stack] returns lies below
    [s_end]. *)
Lemma initialize_task_stack_short (exithandler pc a0 s_end size : Z) :
  64 ≤ s_end → 1 ≤ size ≤ 64 → s_end + size ≤ 2 ^ 32 →
  (initialize_task_stack exithandler (s_end + (size - 1)) pc a0).1 < s_end.
Proof.
  intros Hs Hsz Htop. change (2 ^ 32) with 4294967296 in Htop.
  rewrite initialize_task_stack_words
    by (change (2 ^ 32) with 4294967296; lia).
  cbn [fst]. rewrite frame_slot_no_wrap; [|lia|].
  - Z.div_mod_to_equations; lia.
  - change (2 ^ 32) with 4294967296. Z.div_mod_to_equations; lia.
Qed.

(** ** What an operation leaves alone *)

Section Keeps.

Context {B : Type} (f : machine → B).

Lemma keeps_ret {A : Type} (a : A) : keeps f (ret a).
Proof. by intros m. Qed.

Lemma keeps_get : keeps f get.
Proof. by intros m. Qed.

Lemma keeps_undefined {A : Type} : keeps f (@undefined A).
Proof. by intros m. Qed.

Lemma keeps_bind {A C : Type} (c : M A) (k : A → M C) :
  keeps f c → (∀ a, keeps f (k a)) → keeps f (bind c k).
Proof.
  intros Hc Hk m. unfold bind. specialize (Hc m).
  destruct (c m) as [a m1|code m1|m1|]; try done.
  specialize (Hk a m1). destruct (k a m1); congruence.
Qed.

Lemma keeps_modify (g : machine → machine) :
  (∀ m, f (g m) = f m) → keeps f (modify g).
Proof. intros Hg m. apply Hg. Qed.

Lemma keeps_exit {A : Type} (code : syserr_t) : keeps f (@exit A code).
Proof. by intros m. Qed.

Lemma keeps_load_tcb (p : Z) : keeps f (load_tcb p).
Proof. intros m. unfold load_tcb. by destruct (tcbs m !! p). Qed.

Lemma keeps_store_tcb (p : Z) (h : task_status_t → task_status_t) :
  (∀ g m, f (with_tcbs g m) = f m) → keeps f (store_tcb p h).
Proof. intros Hg m. unfold store_tcb. by destruct (tcbs m !! p). Qed.

Lemma keeps_load_ready (i : nat) : keeps f (load_ready i).
Proof. intros m. unfold load_ready. by destruct (ready_tasks m !! i). Qed.

Lemma keeps_store_ready (i : nat) (q : list Z) :
  (∀ r m, f (with_ready r m) = f m) → keeps f (store_ready i q).
Proof. intros Hg m. unfold store_ready. by case_decide. Qed.

Lemma keeps_scan_ready_tasks (i : nat) : keeps f (scan_ready_tasks i).
Proof.
  intros m. unfold scan_ready_tasks. by destruct (scan_ready _ _).
Qed.

Lemma keeps_log (lvl : loglevel) (tag msg : string) :
  (∀ t m, f (with_trace t m) = f m) → keeps f (log lvl tag msg).
Proof. intros Hg. apply keeps_modify. intros m. apply Hg. Qed.

Lemma keeps_malloc (size : Z) :
  (∀ l o m, f (with_heap l o m) = f m) → keeps f (malloc size).
Proof. intros Hg m. unfold malloc. by destruct (malloc_oracle m). Qed.

Lemma keeps_free (p : Z) :
  (∀ g m, f (with_tcbs g m) = f m) →
  (∀ l o m, f (with_heap l o m) = f m) → keeps f (free p).
Proof.
  intros Ht Hh. apply keeps_modify. intros m. by rewrite Ht, Hh.
Qed.

Lemma keeps_store_frame (K : config) (s_end s_start : Z)
    (ws : list (Z * Z)) :
  (∀ g m, f (with_ram g m) = f m) →
  keeps f (store_frame K s_end s_start ws).
Proof. intros Hg m. unfold store_frame. by case_decide. Qed.

Lemma keeps_set_pendsv :
  (∀ v m, f (with_ICSR v m) = f m) → keeps f set_pendsv.
Proof. intros Hg. apply keeps_modify. intros m. apply Hg. Qed.

Lemma keeps_Ret {A : Type} (c : M A) (m m' : machine) (a : A) :
  keeps f c → c m = Ret a m' → f m' = f m.
Proof. intros Hk Hc. specialize (Hk m). by rewrite Hc in Hk. Qed.

Lemma keeps_Dispatched {A : Type} (c : M A) (m m' : machine) :
  keeps f c → c m = Dispatched m' → f m' = f m.
Proof. intros Hk Hc. specialize (Hk m). by rewrite Hc in Hk. Qed.

End Keeps.

(** Side conditions: the component does not depend on the field written. *)
Ltac keeps_side := first [ assumption | by intros | intros; solve [eauto] ].

(** One rule of the list above, chosen by the head of the computation. *)
Ltac keeps_step :=
  lazymatch goal with
  | |- keeps _ (bind _ _) => apply keeps_bind; [|intros ?]
  | |- keeps _ (ret _) => apply keeps_ret
  | |- keeps _ get => apply keeps_get
  | |- keeps _ undefined => apply keeps_undefined
  | |- keeps _ (exit _) => apply keeps_exit
  | |- keeps _ (load_tcb _) => apply keeps_load_tcb
  | |- keeps _ (load_ready _) => apply keeps_load_ready
  | |- keeps _ (scan_ready_tasks _) => apply keeps_scan_ready_tasks
  | |- keeps _ (store_tcb _ _) => apply keeps_store_tcb; keeps_side
  | |- keeps _ (store_ready _ _) => apply keeps_store_ready; keeps_side
  | |- keeps _ (log _ _ _) => apply keeps_log; keeps_side
  | |- keeps _ (LOG_E _ _) => unfold LOG_E
  | |- keeps _ (LOG_W _ _) => unfold LOG_W
  | |- keeps _ (LOG_I _ _) => unfold LOG_I
  | |- keeps _ (LOG_MIN _ _ _) => unfold LOG_MIN
  | |- keeps _ (malloc _) => apply keeps_malloc; keeps_side
  | |- keeps _ (free _) => apply keeps_free; keeps_side
  | |- keeps _ set_pendsv => apply keeps_set_pendsv; keeps_side
  | |- keeps _ (store_frame _ _ _ _) => apply keeps_store_frame; keeps_side
  | |- keeps _ (modify _) => apply keeps_modify; keeps_side
  | |- keeps _ (if decide ?c then _ else _) => destruct (decide c)
  | |- keeps _ (if ?c then _ else _) => destruct c
  | |- keeps _ (match ?x with _ => _ end) => destruct x
  end.

Ltac solve_keeps := repeat keeps_step.

Section KeepsTask.

Context (K : config) {B : Type} (f : machine → B).

Hypothesis f_tcbs : ∀ g m, f (with_tcbs g m) = f m.

Lemma select_active_task_keeps :
  (∀ r m, f (with_ready r m) = f m) →
  (∀ b m, f (with_blocked b m) = f m) →
  (∀ a m, f (with_active a m) = f m) →
  keeps f (select_active_task K).
Proof.
  intros Hr Hb Ha. unfold select_active_task. cbv zeta. solve_keeps.
Qed.

Lemma task_yield_keeps :
  (∀ v m, f (with_ICSR v m) = f m) → keeps f task_yield.
Proof. intros Hi. unfold task_yield. solve_keeps. Qed.

Lemma block_active_task_keeps (reason : Z) :
  (∀ v m, f (with_ICSR v m) = f m) → keeps f (block_active_task reason).
Proof. intros Hi. unfold block_active_task. solve_keeps. Qed.

Lemma unblock_task_keeps (task reason : Z) :
  (∀ r m, f (with_ready r m) = f m) →
  (∀ b m, f (with_blocked b m) = f m) →
  keeps f (unblock_task K task reason).
Proof. intros Hr Hb. unfold unblock_task. solve_keeps. Qed.

Lemma enable_systick_keeps :
  (∀ t m, f (with_trace t m) = f m) →
  (∀ l c m, f (with_SysTick l c m) = f m) →
  keeps f (enable_systick K).
Proof. intros Ht Hs. unfold enable_systick. cbv zeta. solve_keeps. Qed.

Lemma task_create_keeps (fn a : Z) (cfg : option task_config_t) :
  (∀ g m, f (with_ram g m) = f m) →
  (∀ l o m, f (with_heap l o m) = f m) →
  (∀ r m, f (with_ready r m) = f m) →
  (∀ t m, f (with_trace t m) = f m) →
  keeps f (task_create K fn a cfg).
Proof.
  intros Hram Hh Hr Ht. unfold task_create, LOG_E. cbv zeta. solve_keeps.
Qed.

Lemma task_destroy_keeps (trigger_svcall : M unit) (task : Z) :
  (∀ l o m, f (with_heap l o m) = f m) →
  (∀ r m, f (with_ready r m) = f m) →
  (∀ b m, f (with_blocked b m) = f m) →
  (∀ e m, f (with_exited e m) = f m) →
  (∀ a m, f (with_active a m) = f m) →
  (∀ t m, f (with_trace t m) = f m) →
  keeps f trigger_svcall →
  keeps f (task_destroy trigger_svcall task).
Proof.
  intros Hh Hr Hb He Ha Ht Hsvc. unfold task_destroy, LOG_W. solve_keeps.
  all: done.
Qed.

Lemma reap_task_keeps :
  (∀ l o m, f (with_heap l o m) = f m) →
  (∀ e m, f (with_exited e m) = f m) →
  (∀ t m, f (with_trace t m) = f m) →
  keeps f reap_task.
Proof. intros Hh He Ht. unfold reap_task. cbv zeta. solve_keeps. Qed.

End KeepsTask.

(** ** Starting the scheduler, the idle pass, the exit handler *)

Section Boot.

Context (K : config).

Local Abbreviation P := (RTOS_PRIORITY_COUNT K).

(** Fields outside the scheduler's lists and control blocks do not matter
    to the invariant. *)
Lemma sched_inv_same (m m' : machine) :
  sched_inv K m →
  tcbs m' = tcbs m → heap_live m' = heap_live m →
  ready_tasks m' = ready_tasks m → blocked_tasks m' = blocked_tasks m →
  exited_tasks m' = exited_tasks m → active_task m' = active_task m →
  sched_inv K m'.
Proof.
  intros Hinv Htc Hh Hr Hb Hx Ha.
  eapply (sched_inv_moved K m m' None None); try done.
  - by apply lists_moved_same.
  - by rewrite Hr.
  - eapply (tcbs_inv_heap_grow K m); [apply (inv_tcbs _ _ Hinv)|done|].
    intros p. by rewrite Hh.
  - intros u _ _. by rewrite Htc.
Qed.

Lemma select_active_task_dispatches (m : machine) :
  sched_inv K m →
  (active_task m ≠ NULL →
   active_state m = Some TASK_READY ∨ active_state m = Some TASK_BLOCKED) →
  ¬ Forall (λ q, q = []) (ready_tasks m) →
  ∃ m', select_active_task K m = Ret tt m' ∧ sched_inv K m' ∧
        active_state m' = Some TASK_ACTIVE ∧
        heap_live m' = heap_live m ∧ tcbs_agree m m' ∧
        exited_tasks m' = exited_tasks m.
Proof.
  intros Hinv Hst Hsome. pose proof (inv_wf _ _ Hinv) as Hwf.
  destruct (select_active_task_inv K m Hinv Hst)
    as (m' & Hrun & Hinv' & Hh & Hag & Hx).
  destruct (highest_nonempty_exists (ready_tasks m))
    as (i & t & q & Hi & Hab);
    [rewrite (wf_count _ _ Hwf); apply (wf_positive _ _ Hwf)|done|].
  rewrite (wf_count _ _ Hwf) in Hab.
  destruct (select_active_task_dispatch_wf K m i t q Hwf Hi Hab)
    as (tcb & m2 & Hrun2 & _ & _ & _ & Hact & _).
  assert (m2 = m') as -> by congruence.
  by exists m'.
Qed.

Lemma enable_systick_run (m : machine) :
  0 < SYSTICK_FREQ K → 0 ≤ hclk_freq m < 2 ^ 32 →
  hclk_freq m / 8 / SYSTICK_FREQ K ≤ 0xFFFFFF →
  enable_systick K m =
    Ret tt (with_SysTick (wrap32 (hclk_freq m / 8 / SYSTICK_FREQ K - 1))
              (Z.lor (SysTick_CTRL m) 3) m).
Proof.
  intros Hf Hh Hle.
  set (reload_val := hclk_freq m / 8 / SYSTICK_FREQ K) in *.
  assert (Hrv : wrap32 (Z.quot (Z.shiftr (hclk_freq m) 3) (SYSTICK_FREQ K))
                = reload_val).
  { rewrite Z.shiftr_div_pow2 by lia. change (2 ^ 3) with 8.
    assert (0 ≤ hclk_freq m / 8) by (apply Z.div_pos; lia).
    rewrite Z.quot_div_nonneg by lia. fold reload_val.
    unfold wrap32. apply Z.mod_small.
    assert (0 ≤ reload_val) by (subst reload_val; apply Z.div_pos; lia).
    change (2 ^ 32) with 4294967296. lia. }
  unfold enable_systick, bind, get, LOG_E, log, modify, exit, ret.
  rewrite (decide_False (P := SYSTICK_FREQ K = 0)) by lia. rewrite Hrv.
  unfold SysTick_LOAD_RELOAD_Msk.
  rewrite decide_False by lia. reflexivity.
Qed.

(** X16.  The registers [enable_systick] leaves when it returns: the
    reload register holds the reload value less one, within the 24-bit
    field, when the tick frequency does not exceed an eighth of the clock;
    when it does, the reload value is zero and the register is written with
    0xFFFFFFFF.  Of the control register, bits 0 and 1 are set and every
    other bit is as before. *)
Lemma enable_systick_load (m : machine) :
  0 < SYSTICK_FREQ K → 0 ≤ hclk_freq m < 2 ^ 32 →
  hclk_freq m / 8 / SYSTICK_FREQ K ≤ 0xFFFFFF →
  ∃ m', enable_systick K m = Ret tt m' ∧
    (SYSTICK_FREQ K ≤ hclk_freq m / 8 →
       SysTick_LOAD m' = hclk_freq m / 8 / SYSTICK_FREQ K - 1 ∧
       0 ≤ SysTick_LOAD m' < SysTick_LOAD_RELOAD_Msk) ∧
    (hclk_freq m / 8 < SYSTICK_FREQ K → SysTick_LOAD m' = 0xFFFFFFFF) ∧
    (∀ n, 0 ≤ n →
       Z.testbit (SysTick_CTRL m') n =
       Z.testbit (SysTick_CTRL m) n || bool_decide (n = 0 ∨ n = 1)).
Proof.
  intros Hf Hh Hle. eexists. split; [by apply enable_systick_run|].
  cbn [SysTick_LOAD SysTick_CTRL with_SysTick].
  assert (H8 : 0 ≤ hclk_freq m / 8) by (apply Z.div_pos; lia).
  split; [|split].
  - intros Hge.
    assert (1 ≤ hclk_freq m / 8 / SYSTICK_FREQ K).
    { apply Z.div_le_lower_bound; lia. }
    unfold wrap32, SysTick_LOAD_RELOAD_Msk.
    rewrite Z.mod_small by (change (2 ^ 32) with 4294967296; lia). lia.
  - intros Hlt. rewrite Z.div_small by lia. reflexivity.
  - intros n Hn. rewrite Z.lor_spec. f_equal.
    destruct (decide (n = 0)) as [->|H0]; [done|].
    destruct (decide (n = 1)) as [->|H1]; [done|].
    rewrite bool_decide_eq_false_2 by lia.
    apply Z.bits_above_log2; [lia|]. change (Z.log2 3) with 1. lia.
Qed.

Lemma enable_systick_exit (m : machine) :
  0 < SYSTICK_FREQ K → 0 ≤ hclk_freq m < 2 ^ 32 →
  ¬ hclk_freq m / 8 / SYSTICK_FREQ K ≤ 0xFFFFFF →
  enable_systick K m =
    Exit ERR_BADPARAM
      (with_trace (trace m ++ [EvLog SYSLOGLEVEL_ERROR TAG
                                 "Oversized systick reload value"]) m).
Proof.
  intros Hf Hh Hgt.
  set (reload_val := hclk_freq m / 8 / SYSTICK_FREQ K) in *.
  assert (Hrv : wrap32 (Z.quot (Z.shiftr (hclk_freq m) 3) (SYSTICK_FREQ K))
                = reload_val).
  { rewrite Z.shiftr_div_pow2 by lia. change (2 ^ 3) with 8.
    assert (0 ≤ hclk_freq m / 8) by (apply Z.div_pos; lia).
    rewrite Z.quot_div_nonneg by lia. fold reload_val.
    unfold wrap32. apply Z.mod_small.
    assert (0 ≤ reload_val ≤ hclk_freq m / 8).
    { subst reload_val. split.
      - apply Z.div_pos; lia.
      - apply Z.div_le_upper_bound; [lia|]. nia. }
    assert (hclk_freq m / 8 ≤ hclk_freq m)
      by (apply Z.div_le_upper_bound; lia).
    change (2 ^ 32) with 4294967296 in *. lia. }
  unfold enable_systick, bind, get, LOG_E, log, modify, exit, ret.
  rewrite (decide_False (P := SYSTICK_FREQ K = 0)) by lia. rewrite Hrv.
  unfold SysTick_LOAD_RELOAD_Msk.
  rewrite decide_True by lia. reflexivity.
Qed.

(** X15.  [rtos_start] with the start handler in the vector table, from a
    state that satisfies the invariant with no active task, fresh blocks
    from the allocator, a tick frequency above zero and a 32-bit clock
    frequency: once [task_create] has returned a handle for the idle task,
    [rtos_start] does not return.  When the reload value (an eighth of the
    clock frequency over the tick frequency) fits the 24-bit reload field,
    the handler dispatches a task, its state ACTIVE, with the tick timer
    enabled and its interrupt on; the idle task has a control block and the
    invariant holds.  When it does not fit, [enable_systick] logs at error
    level and [rtos_start] ends in [exit] with [ERR_BADPARAM], the timer not
    enabled. *)
Lemma rtos_start_dispatches (m m1 : machine) (idle_task : Z) :
  sched_inv K m → malloc_fresh m → active_task m = NULL →
  0 < SYSTICK_FREQ K → 0 ≤ hclk_freq m < 2 ^ 32 →
  task_create K (idle_entry K) NULL
    (Some (mk_task_config (task_stack (DEFAULT_TASK_CONFIG K))
             (IDLE_TASK_STACK_SIZE K) (Some IDLE_TASK_NAME)
             (IDLE_TASK_PRIORITY K))) m = Ret idle_task m1 →
  idle_task ≠ NULL →
  if decide (hclk_freq m / 8 / SYSTICK_FREQ K ≤ 0xFFFFFF) then
    ∃ m', rtos_start K (SVCallHandler K) m = Dispatched m' ∧
      sched_inv K m' ∧ active_state m' = Some TASK_ACTIVE ∧
      is_Some (tcbs m' !! idle_task) ∧
      Z.testbit (SysTick_CTRL m') 0 = true ∧
      Z.testbit (SysTick_CTRL m') 1 = true
  else
    ∃ m', rtos_start K (SVCallHandler K) m = Exit ERR_BADPARAM m' ∧
      trace m' =
        trace m1 ++ [EvLog SYSLOGLEVEL_ERROR TAG
                       "Oversized systick reload value"] ∧
      SysTick_CTRL m' = SysTick_CTRL m ∧ SysTick_LOAD m' = SysTick_LOAD m.
Proof.
  intros Hinv Hfresh Hnull Hf Hh Hc Hnz.
  destruct (task_create_inv K _ _ _ m m1 idle_task Hinv Hfresh Hc)
    as (Hinv1 & _ & Hnew).
  destruct (Hnew Hnz) as (_ & _ & tcb & Htc & Hmv).
  destruct (task_create_run K _ _ _ m m1 idle_task Hc)
    as (Ha1 & _ & _ & _ & _).
  assert (Hsome : ¬ Forall (λ q, q = []) (ready_tasks m1)).
  { intros Hall.
    assert (Hin : idle_task ∈ list_of m1 (Ready (priority tcb))).
    { apply (lists_moved_elem _ _ _ _ _ _ Hmv). by right. }
    simpl in Hin.
    destruct (ready_tasks m1 !! priority tcb) as [q|] eqn:Hq;
      [|by apply elem_of_nil in Hin].
    rewrite Forall_lookup in Hall. rewrite (Hall _ _ Hq) in Hin.
    by apply elem_of_nil in Hin. }
  destruct (select_active_task_dispatches m1 Hinv1)
    as (m2 & Hsel & Hinv2 & Hact2 & _ & Hag & _); [congruence|done|].
  assert (Hfrom : ∀ (B : Type) (f : machine → B),
            (∀ g x, f (with_tcbs g x) = f x) →
            (∀ g x, f (with_ram g x) = f x) →
            (∀ l o x, f (with_heap l o x) = f x) →
            (∀ r x, f (with_ready r x) = f x) →
            (∀ b x, f (with_blocked b x) = f x) →
            (∀ t x, f (with_active t x) = f x) →
            (∀ t x, f (with_trace t x) = f x) →
            f m2 = f m).
  { intros B f H1 H2 H3 H4 H5 H6 H7.
    rewrite (keeps_Ret f _ m1 m2 tt
               (select_active_task_keeps K f H1 H4 H5 H6) Hsel).
    apply (keeps_Ret f _ m m1 idle_task
             (task_create_keeps K f H1 _ _ _ H2 H3 H4 H7) Hc). }
  assert (Hclk : hclk_freq m2 = hclk_freq m) by (by apply Hfrom).
  assert (Htr : trace m2 = trace m1).
  { apply (keeps_Ret trace _ m1 m2 tt
             (select_active_task_keeps K trace ltac:(done) ltac:(done)
                ltac:(done) ltac:(done)) Hsel). }
  case_decide as Hle.
  - assert (Hsys : enable_systick K m2 =
              Ret tt (with_SysTick
                        (wrap32 (hclk_freq m2 / 8 / SYSTICK_FREQ K - 1))
                        (Z.lor (SysTick_CTRL m2) 3) m2)).
    { apply enable_systick_run; [done|by rewrite Hclk..]. }
    set (m3 := with_SysTick _ _ m2) in Hsys.
    assert (Hinv3 : sched_inv K m3) by (by apply (sched_inv_same m2)).
    assert (Hidle : is_Some (tcbs m3 !! idle_task)).
    { apply (tcbs_agree_is_Some m1 m2); [done|].
      rewrite Htc, lookup_insert_eq. by eexists. }
    unfold active_state in Hact2.
    destruct (tcbs m2 !! active_task m2) as [y|] eqn:Hy; [|done].
    exists m3. split.
    { rewrite rtos_start_unfold, Hc. rewrite decide_False by done.
      unfold SVCallHandler, bind. rewrite Hsel, Hsys.
      unfold exception_return. cbn [tcbs active_task m3 with_SysTick].
      by rewrite Hy. }
    split; [done|]. split.
    { unfold active_state. cbn [tcbs active_task m3 with_SysTick].
      by rewrite Hy. }
    split; [done|].
    cbn [SysTick_CTRL m3 with_SysTick]. rewrite !Z.lor_spec.
    split; [|apply orb_true_r]. apply orb_true_r.
  - assert (Hsys : enable_systick K m2 =
              Exit ERR_BADPARAM
                (with_trace (trace m2 ++ [EvLog SYSLOGLEVEL_ERROR TAG
                               "Oversized systick reload value"]) m2)).
    { apply enable_systick_exit; [done|by rewrite Hclk..]. }
    eexists. split.
    { rewrite rtos_start_unfold, Hc. rewrite decide_False by done.
      unfold SVCallHandler, bind. by rewrite Hsel, Hsys. }
    cbn [trace SysTick_CTRL SysTick_LOAD with_trace].
    split; [by rewrite Htr|]. split; by apply Hfrom.
Qed.

End Boot.

(** ** Leaving through the start handler, the exit handler, the idle pass *)

Section Leave.

Context (K : config).

Lemma SVCallHandler_run (m m2 : machine) :
  select_active_task K m = Ret tt m2 →
  0 < SYSTICK_FREQ K → 0 ≤ hclk_freq m < 2 ^ 32 →
  hclk_freq m / 8 / SYSTICK_FREQ K ≤ 0xFFFFFF →
  SVCallHandler K m =
    exception_return
      (with_SysTick (wrap32 (hclk_freq m / 8 / SYSTICK_FREQ K - 1))
         (Z.lor (SysTick_CTRL m2) 3) m2).
Proof.
  intros Hsel Hf Hh Hle.
  assert (Hclk : hclk_freq m2 = hclk_freq m).
  { apply (keeps_Ret hclk_freq _ m m2 tt
             (select_active_task_keeps K hclk_freq ltac:(done) ltac:(done)
                ltac:(done) ltac:(done)) Hsel). }
  unfold SVCallHandler, bind. rewrite Hsel.
  rewrite enable_systick_run by (by rewrite ?Hclk). by rewrite Hclk.
Qed.


(** X7.  The active task destroys itself while no task is ready (no idle
    task was created, or the idle task destroys itself): the start handler
    returns from [select_active_task] with the active pointer null and
    loads the stack pointer of no control block, which is undefined
    behaviour. *)
Lemma task_destroy_self_last (m : machine) :
  sched_inv K m → active_state m = Some TASK_ACTIVE →
  Forall (λ q, q = []) (ready_tasks m) →
  0 < SYSTICK_FREQ K → 0 ≤ hclk_freq m < 2 ^ 32 →
  hclk_freq m / 8 / SYSTICK_FREQ K ≤ 0xFFFFFF →
  task_destroy (SVCallHandler K) (active_task m) m = Undefined.
Proof.
  intros Hinv Hst Hall Hf Hh Hle.
  pose proof (task_destroy_self_inv K m Hinv Hst) as Hinv1.
  set (m1 := with_active NULL
               (with_exited (exited_tasks m ++ [active_task m]) m)) in *.
  assert (Hsel : select_active_task K m1 = Ret tt m1).
  { apply select_active_task_idle; [apply (inv_wf _ _ Hinv1)|done]. }
  rewrite task_destroy_self_run
    by (unfold active_state in Hst; by destruct (tcbs m !! active_task m)).
  fold m1. rewrite (SVCallHandler_run m1 m1 Hsel Hf Hh Hle).
  unfold exception_return. cbn [tcbs active_task m1 with_SysTick with_active].
  change (tcbs (with_exited (exited_tasks m ++ [active_task m]) m))
    with (tcbs m).
  by rewrite (inv_null _ _ (inv_tcbs _ _ Hinv)).
Qed.



End Leave.

(** ** Yield, block and unblock through the scheduler pass *)

Section Trips.

Context (K : config).

Local Abbreviation P := (RTOS_PRIORITY_COUNT K).

Lemma list_remove_notin (l : list Z) (x : Z) :
  (x ∉ l) → list_remove l x = l.
Proof.
  intros Hx. rewrite <- filter_ne_remove. apply filter_ne_notin.
  by intros ? [= <-].
Qed.

Lemma list_remove_app_last (l : list Z) (x : Z) :
  (x ∉ l) → list_remove (l ++ [x]) x = l.
Proof.
  intros Hx. unfold list_remove. rewrite filter_app.
  fold (list_remove l x). rewrite (list_remove_notin l x Hx).
  rewrite filter_cons_False by (by intros []). by rewrite app_nil_r.
Qed.




End Trips.

(** ** Creating and destroying; the context of a new task *)

Section CreateDestroy.

Context (K : config).

(** X10.  A task for which [task_create], given fresh blocks by the
    allocator, returned a handle (its frame then fits its stack, clear of
    every control block), destroyed by [task_destroy] before it ever ran:
    the control blocks, every list, the active pointer and the set of live
    blocks are what they were before [task_create], and the invariant
    holds. *)
Lemma create_destroy_trip (trigger_svcall : M unit) (fn a : Z)
    (cfg : option task_config_t) (m m1 : machine) (task : Z) :
  sched_inv K m → malloc_fresh m →
  task_create K fn a cfg m = Ret task m1 → task ≠ NULL →
  ∃ m2, task_destroy trigger_svcall task m1 = Ret tt m2 ∧
    tcbs m2 = tcbs m ∧ ready_tasks m2 = ready_tasks m ∧
    blocked_tasks m2 = blocked_tasks m ∧ exited_tasks m2 = exited_tasks m ∧
    active_task m2 = active_task m ∧
    (∀ p, p ∈ heap_live m2 ↔ p ∈ heap_live m) ∧
    sched_inv K m2.
Proof.
  intros Hinv Hfresh Hc Hnz.
  destruct (task_create_inv K fn a cfg m m1 task Hinv Hfresh Hc)
    as (Hinv1 & _ & Hnew).
  destruct (Hnew Hnz) as (Hnone & Hnmem & _).
  destruct (task_create_run K fn a cfg m m1 task Hc)
    as (Ha & Hb & Hx & _ & [[? _]|(_ & _ & Hcase)]); [done|].
  destruct Hcase as (tcb & q & rest & Ho & Htc & Hst & _ & _ & _ & Hprio
                     & Hq & Hr & Hh & Hal & _).
  destruct (malloc_fresh_first m task rest Hfresh Ho Hnz) as [Hn Hsnd].
  assert (Ht1 : tcbs m1 !! task = Some tcb).
  { rewrite Htc. apply lookup_insert_eq. }
  assert (Hna : task ≠ active_task m1).
  { rewrite Ha. intros Heq.
    destruct (decide (active_task m = NULL)) as [Hz|Hz]; [congruence|].
    destruct (wf_active _ _ (inv_wf _ _ Hinv) Hz) as (_ & y & Hy & _).
    congruence. }
  assert (Hnx : task ∉ exited_tasks m1).
  { rewrite Hx. intros Hin. apply Hnmem. apply elem_of_members.
    by exists Exited. }
  destruct (task_destroy_inactive_run trigger_svcall m1 task tcb Hna Ht1)
    as (m2 & Hrun & Hb2 & Hr2 & Hh2 & _ & Hact2 & Hx2 & _).
  { intros _. rewrite Hr, length_insert. by eapply lookup_lt_Some. }
  destruct (task_destroy_inv K trigger_svcall m1 task tcb Hinv1 Hna Ht1 Hnx)
    as (m2' & Hrun' & Hinv2 & _ & Htc2 & _).
  assert (m2' = m2) as -> by congruence.
  exists m2. split; [done|]. split.
  { rewrite Htc2, Htc. by apply delete_insert_id. }
  split.
  { rewrite Hr2. rewrite decide_True by done. rewrite Hr.
    rewrite list_lookup_insert_eq by (by eapply lookup_lt_Some). simpl.
    rewrite list_insert_insert_eq. rewrite list_remove_app_last.
    - by apply list_insert_id.
    - intros Hin. apply Hnmem. apply elem_of_members.
      exists (Ready (priority tcb)). simpl. by rewrite Hq. }
  split.
  { rewrite Hb2. rewrite decide_False by congruence. done. }
  split; [congruence|]. split; [congruence|]. split; [|done].
  intros p. rewrite Hh2, Hh. rewrite list_elem_of_filter.
  destruct (stack_allocated tcb) eqn:Hal'.
  - destruct (Hal eq_refl) as (Hsn & rest' & ->).
    destruct (Hsnd _ _ eq_refl Hsn) as [Hst' Hsl].
    rewrite list_elem_of_filter, elem_of_app, !elem_of_cons, elem_of_nil.
    split.
    + intros (? & ? & [?|[?|[?|[]]]]); done.
    + intros Hp. split; [by intros ->|]. split; [by intros ->|]. by left.
  - rewrite elem_of_app, elem_of_cons, elem_of_nil. split.
    + intros (? & [?|[?|[]]]); done.
    + intros Hp. split; [by intros ->|]. by left.
Qed.

(** X11.  The context [task_create] saves for a new task, as the restore
    sequence of the handlers reads it from the stack pointer stored in the
    control block, whenever [task_create] returns a handle (the frame then
    lies in the stack region, clear of every control block): the program
    counter is the entry function, [R0] the argument, the link register the
    exit handler, the status word has the Thumb bit, the exception return
    value is 0xFFFFFFFD, and the other registers hold the sentinels. *)
Lemma task_create_context (fn a : Z) (cfg : option task_config_t)
    (m m' : machine) (task : Z) :
  task_create K fn a cfg m = Ret task m' → task ≠ NULL →
  ∃ tcb, tcbs m' !! task = Some tcb ∧
    frame_ok (sizeof_task_status_t K) (tcbs m') (stack_end tcb)
      (stack_start tcb)
      (initialize_task_stack (task_exithandler K) (stack_start tcb)
         fn a).2 ∧
    restore_context (ram m') (stack_ptr tcb) =
      Some (mk_cpu_context 0x04040404 0x05050505 0x06060606 0x07070707
              0x08080808 0x09090909 0x10101010 0x11111111
              INITIAL_EXEC_RETURN
              a 0x01010101 0x02020202 0x03030303 0x12121212
              (task_exithandler K) fn INITIAL_xPSR).
Proof.
  intros Hc Hnz.
  destruct (task_create_run K fn a cfg m m' task Hc)
    as (_ & _ & _ & _ & [[? _]|(_ & _ & Hcase)]); [done|].
  destruct Hcase as (tcb & q & rest & _ & Htc & _ & _ & _ & _ & _ & _ & _ & _
                     & _ & Hsp & Hram & Hok).
  exists tcb. split; [rewrite Htc; apply lookup_insert_eq|].
  split; [done|].
  rewrite Hsp, Hram. apply initialize_task_stack_restore.
  by eapply frame_ok_range.
Qed.

End CreateDestroy.

(** ** The program break *)

(** X22.  With a heap size of zero every call of [_sbrk] returns
    [(void * )-1] and the break does not move. *)
Lemma sbrk_calls_disabled (incrs : list Z) (b : Z) :
  Syscalls.sbrk_calls 0 incrs b =
    (replicate (length incrs) Syscalls.SBRK_FAILED, b).
Proof.
  induction incrs as [|i incrs IH]; [done|].
  simpl. by rewrite IH.
Qed.

Lemma wrap32_add_l (x y : Z) : wrap32 (wrap32 x + y) = wrap32 (x + y).
Proof. unfold wrap32. by rewrite Zplus_mod_idemp_l. Qed.

(** X20.  With a heap size other than zero no call of [_sbrk] fails and
    none is checked against the heap size: each call returns the break its
    predecessors left (the start plus the sum of their increments, modulo
    2^32), so the blocks handed out are adjacent. *)
Lemma sbrk_calls_enabled (size : Z) (incrs : list Z) (b : Z) :
  size ≠ 0 →
  (Syscalls.sbrk_calls size incrs b).2 = (if incrs is [] then b
                                 else wrap32 (b + foldr Z.add 0 incrs)) ∧
  length (Syscalls.sbrk_calls size incrs b).1 = length incrs ∧
  ∀ k p, (Syscalls.sbrk_calls size incrs b).1 !! k = Some p →
         p = (if k is O then b
              else wrap32 (b + foldr Z.add 0 (take k incrs))).
Proof.
  intros Hsz. revert b. induction incrs as [|i incrs IH]; intros b.
  { split; [done|]. split; [done|]. by intros k p. }
  simpl. unfold Syscalls._sbrk. rewrite decide_True by done. cbv zeta.
  destruct (Syscalls.sbrk_calls size incrs (wrap32 (b + i)))
    as [ps b'] eqn:Hrec.
  destruct (IH (wrap32 (b + i))) as (Hb & Hlen & Hk).
  rewrite Hrec in Hb, Hlen, Hk. simpl in Hb, Hlen, Hk. simpl.
  split; [|split].
  - rewrite Hb. destruct incrs as [|j incrs]; simpl.
    + f_equal. lia.
    + rewrite wrap32_add_l. f_equal. lia.
  - by rewrite Hlen.
  - intros [|k] p Hp; simpl in Hp.
    + by injection Hp as <-.
    + rewrite (Hk k p Hp). destruct k as [|k]; simpl.
      * destruct incrs; simpl; f_equal; lia.
      * rewrite wrap32_add_l. f_equal. lia.
Qed.

(** X21.  Raising the break by [incr] and lowering it by as much: the
    second call returns the end of the block the first one handed out, and
    the break is back where it was. *)
Lemma sbrk_up_down (size incr b : Z) :
  size ≠ 0 → 0 ≤ b < 2 ^ 32 →
  Syscalls.sbrk_calls size [incr; - incr] b = ([b; wrap32 (b + incr)], b).
Proof.
  intros Hsz Hb. simpl. unfold Syscalls._sbrk. rewrite !decide_True by done.
  cbv zeta. rewrite wrap32_add_l. do 2 f_equal.
  unfold wrap32. replace (b + incr + - incr) with b by lia.
  by apply Z.mod_small.
Qed.


(** ** The concrete states satisfy the invariant *)

(** A lookup in a map given by its insertions, entry by entry. *)
Ltac lookup_cases H :=
  repeat (apply lookup_insert_Some in H as [[<- <-]|[? H]]);
  try (by rewrite lookup_empty in H).

Ltac elem_now := first [ done | apply (bool_decide_unpack _); by vm_compute ].

Lemma m_run_inv : sched_inv K4 m_run.
Proof.
  split.
  - exact m_run_wf.
  - split.
    + reflexivity.
    + intros t tcb H. unfold m_run in H. cbn [tcbs] in H. lookup_cases H;
        cbn; lia.
    + intros t tcb H. unfold m_run in H. cbn [tcbs] in H. lookup_cases H;
        elem_now.
    + intros t tcb H. unfold m_run in H. cbn [tcbs] in H. lookup_cases H;
        discriminate.
    + intros t u tcb tcb' H _. unfold m_run in H. cbn [tcbs] in H.
      lookup_cases H; discriminate.
  - intros t H. unfold members, m_run in H. cbn in H. solve_elem;
      by eexists.
  - intros t tcb H Hne. unfold m_run in H. cbn [tcbs] in H. lookup_cases H.
    + by destruct Hne.
    + split; intros Hx; elem_now.
    + split; intros Hx; elem_now.
    + split; intros Hx; [discriminate|cbn in Hx; solve_elem].
  - intros t tcb H Hne. unfold m_run in H. cbn [tcbs] in H. lookup_cases H.
    + by destruct Hne.
    + split; intros Hx; [discriminate|cbn in Hx; solve_elem].
    + split; intros Hx; [discriminate|cbn in Hx; solve_elem].
    + split; intros Hx; elem_now.
Qed.

Lemma m_alloc_inv : sched_inv K4 m_alloc.
Proof. by apply (sched_inv_same K4 m_run); [exact m_run_inv|..]. Qed.

Lemma m_alloc_fresh : malloc_fresh m_alloc.
Proof.
  split.
  - apply (bool_decide_unpack _). by vm_compute.
  - apply (bool_decide_unpack _). by vm_compute.
Qed.

Lemma m_created_reached :
  task_create K4 0x08000401 7 None m_alloc = Ret 500 m_created.
Proof. by vm_compute. Qed.

Lemma m_left_reached :
  task_destroy (select_active_task K4) 100 m_run = Ret tt m_left.
Proof. by vm_compute. Qed.

Lemma m_left_inv : sched_inv K4 m_left.
Proof.
  destruct (task_destroy_leave_inv K4 m_run m_run_inv) as (m' & Hrun & H & _);
    [reflexivity|].
  change (active_task m_run) with 100 in Hrun.
  rewrite m_left_reached in Hrun. by injection Hrun as <-.
Qed.

Lemma m_last_inv : sched_inv K4 m_last.
Proof.
  split.
  - split.
    + reflexivity.
    + cbn. lia.
    + apply (bool_decide_unpack _). by vm_compute.
    + intros p q t Hq Ht.
      destruct p as [|[|[|[|p]]]]; simpl in Hq; simplify_eq; solve_elem.
    + intros _. split.
      * apply (bool_decide_unpack _). by vm_compute.
      * eexists. split; [by vm_compute|]. cbn. lia.
  - split.
    + reflexivity.
    + intros t tcb H. unfold m_last, m_idle in H. cbn [tcbs with_tcbs] in H.
      lookup_cases H; cbn; lia.
    + intros t tcb H. unfold m_last, m_idle in H. cbn [tcbs with_tcbs] in H.
      lookup_cases H; elem_now.
    + intros t tcb H. unfold m_last, m_idle in H. cbn [tcbs with_tcbs] in H.
      lookup_cases H; discriminate.
    + intros t u tcb tcb' H _. unfold m_last, m_idle in H.
      cbn [tcbs with_tcbs] in H. lookup_cases H; discriminate.
  - intros t H. unfold members, m_last, m_idle in H. cbn in H. solve_elem.
  - intros t tcb H Hne. unfold m_last, m_idle in H.
    cbn [tcbs with_tcbs] in H. lookup_cases H; by destruct Hne.
  - intros t tcb H Hne. unfold m_last, m_idle in H.
    cbn [tcbs with_tcbs] in H. lookup_cases H; by destruct Hne.
Qed.

Lemma m_cold_inv : sched_inv K4 m_cold.
Proof.
  split.
  - split.
    + reflexivity.
    + cbn. lia.
    + apply (bool_decide_unpack _). by vm_compute.
    + intros p q t Hq Ht.
      destruct p as [|[|[|[|p]]]]; simpl in Hq; simplify_eq; solve_elem.
    + intros H. by destruct H.
  - split; try done.
  - intros t H. unfold members, m_cold, m_boot in H. cbn in H. solve_elem.
  - intros t tcb H. done.
  - intros t tcb H. done.
Qed.

Lemma m_cold_fresh : malloc_fresh m_cold.
Proof.
  split.
  - apply (bool_decide_unpack _). by vm_compute.
  - apply (bool_decide_unpack _). by vm_compute.
Qed.

Lemma m_cold_idle_reached :
  task_create K4 (idle_entry K4) NULL
    (Some (mk_task_config (task_stack (DEFAULT_TASK_CONFIG K4))
             (IDLE_TASK_STACK_SIZE K4) (Some IDLE_TASK_NAME)
             (IDLE_TASK_PRIORITY K4))) m_cold = Ret 100 m_cold_idle.
Proof. by vm_compute. Qed.

(** ** More of the task API *)

(** X2.  However [select_active_task] ends, it has touched nothing but the
    ready queues, the blocked list, the active pointer and the control
    blocks: memory, the allocator, the exited list, the pending-interrupt
    register, the tick timer, the clock and the log are as before. *)
Theorem select_active_task_leaves_alone (K : config) :
  keeps (λ m, (ram m, heap_live m, malloc_oracle m, exited_tasks m,
               SCB_ICSR m, SysTick_LOAD m, SysTick_CTRL m, hclk_freq m,
               trace m))
    (select_active_task K).
Proof. unfold select_active_task. cbv zeta. solve_keeps. Qed.

(** X9.  However [task_create] ends, the active pointer, the blocked and
    exited lists, the pending-interrupt register, the tick timer and the
    clock are as before: a new task is never dispatched by its creation. *)
Theorem task_create_leaves_alone (K : config) (fn a : Z)
    (cfg : option task_config_t) :
  keeps (λ m, (active_task m, blocked_tasks m, exited_tasks m, SCB_ICSR m,
               SysTick_LOAD m, SysTick_CTRL m, hclk_freq m))
    (task_create K fn a cfg).
Proof. unfold task_create. cbv zeta. solve_keeps. Qed.

(** X5.  [task_destroy] on a READY or BLOCKED task other than the active
    one: the handle leaves the list it was in and every other list is as
    before, the control block is gone and no other has changed, the live
    blocks are the previous ones without the control block and, when
    [task_create] allocated it, the stack; the invariant holds. *)
Theorem task_destroy_inactive_frees (K : config) (trigger_svcall : M unit)
    (m : machine) (task : Z) (tsk : task_status_t) :
  sched_inv K m → task ≠ active_task m → tcbs m !! task = Some tsk →
  state tsk = TASK_READY ∨ state tsk = TASK_BLOCKED →
  ∃ m', task_destroy trigger_svcall task m = Ret tt m' ∧
    sched_inv K m' ∧
    tcbs m' = delete task (tcbs m) ∧
    (∀ L, list_of m' L = list_remove (list_of m L) task) ∧
    (task ∉ members m') ∧
    (∀ p, p ∈ heap_live m' ↔
          p ∈ heap_live m ∧ p ≠ task ∧
          ¬ (stack_allocated tsk = true ∧ p = stack_end tsk)) ∧
    active_task m' = active_task m.
Proof.
  intros Hinv Hna Ht Hst.
  assert (Hnx : task ∉ exited_tasks m).
  { intros Hx.
    destruct (NoDup_members_elim m (wf_nodup _ _ (inv_wf _ _ Hinv)))
      as [_ Huniq].
    destruct Hst as [Hs|Hs].
    - apply (inv_ready _ _ Hinv task tsk Ht Hna) in Hs.
      by pose proof (Huniq _ Exited task Hs Hx).
    - apply (inv_blocked _ _ Hinv task tsk Ht Hna) in Hs.
      by pose proof (Huniq Blocked Exited task Hs Hx). }
  destruct (task_destroy_inv K trigger_svcall m task tsk Hinv Hna Ht Hnx)
    as (m' & Hrun & Hinv' & Hmv & Htc & Hh & Hact).
  exists m'. split; [done|]. split; [done|]. split; [done|].
  assert (Hl : ∀ L, list_of m' L = list_remove (list_of m L) task).
  { intros L. by rewrite (Hmv L), app_nil_r, filter_ne_remove. }
  split; [done|]. split.
  { intros Hin. apply elem_of_members in Hin as [L HL]. rewrite Hl in HL.
    by apply list_remove_not_elem in HL. }
  split; [|done].
  intros p. rewrite Hh, list_elem_of_filter.
  destruct (stack_allocated tsk).
  - rewrite list_elem_of_filter. split.
    + intros (? & ? & ?). split; [done|]. split; [done|]. by intros [_ ?].
    + intros (? & ? & Hn). split; [done|]. split; [|done].
      intros ->. by apply Hn.
  - split.
    + intros (? & ?). split; [done|]. split; [done|]. by intros [? _].
    + by intros (? & ? & _).
Qed.


(** X12.  The reaping loop of the idle task, from a state that satisfies
    the invariant: it ends after exactly one turn per task on the exited
    list (fewer turns do not finish it); the exited list is then empty, the
    control block of every exited task is gone and no other has changed,
    the live blocks are the previous ones without those control blocks and
    the stacks allocated for them, the other lists and the active pointer
    are untouched, and the invariant holds. *)
Theorem reap_exited_tasks_total (K : config) (m : machine) :
  sched_inv K m →
  ∃ m',
    (∀ fuel, reap_exited_tasks fuel m =
             if decide (length (exited_tasks m) ≤ fuel)%nat
             then Some (Ret tt m') else None) ∧
    sched_inv K m' ∧
    exited_tasks m' = [] ∧
    ready_tasks m' = ready_tasks m ∧
    blocked_tasks m' = blocked_tasks m ∧
    active_task m' = active_task m ∧
    (∀ u, tcbs m' !! u =
          if decide (u ∈ exited_tasks m) then None else tcbs m !! u) ∧
    (∀ p, p ∈ heap_live m' ↔ p ∈ heap_live m ∧ ¬ reaped m p).
Proof.
  intros Hinv.
  destruct (reap_exited_tasks_inv K (length (exited_tasks m)) m Hinv)
    as (m' & Hrun & Hinv' & He & Hr & Hb & Ha & Htc & Hh & _); [done|].
  exists m'. split; [|done].
  intros fuel. destruct (decide (length (exited_tasks m) ≤ fuel)%nat).
  - by apply (reap_exited_tasks_mono (length (exited_tasks m))).
  - apply (reap_exited_tasks_fuel K); [done|lia].
Qed.

(** ** Instances *)

Lemma select_active_task_wf_witness :
  sched_wf K4 m_run ∧
  ∃ m', select_active_task K4 m_run = Ret tt m' ∧ sched_wf K4 m'.
Proof.
  split; [exact m_run_wf|].
  destruct (select_active_task_wf K4 m_run m_run_wf) as (m' & H1 & H2 & _).
  by exists m'.
Defined.





Lemma task_destroy_inactive_frees_witness :
  sched_inv K4 m_run ∧ 200 ≠ active_task m_run ∧
  tcbs m_run !! 200 = Some (tcb_demo TASK_READY 0 1) ∧
  ∃ m', task_destroy (ret tt) 200 m_run = Ret tt m' ∧ sched_inv K4 m' ∧
        tcbs m' = delete 200 (tcbs m_run) ∧ (200 ∉ members m').
Proof.
  assert (Hne : 200 ≠ active_task m_run) by (by vm_compute).
  split; [exact m_run_inv|]. split; [exact Hne|]. split; [reflexivity|].
  destruct (task_destroy_inactive_frees K4 (ret tt) m_run 200
              (tcb_demo TASK_READY 0 1) m_run_inv Hne eq_refl
              (or_introl eq_refl))
    as (m' & H1 & H2 & H3 & _ & H5 & _).
  by exists m'.
Defined.

Lemma K4_tick_ok (m : machine) :
  hclk_freq m = 80000000 →
  0 < SYSTICK_FREQ K4 ∧ 0 ≤ hclk_freq m < 2 ^ 32 ∧
  hclk_freq m / 8 / SYSTICK_FREQ K4 ≤ 0xFFFFFF.
Proof. intros ->. split; [done|]. split; [by split|]. by vm_compute. Qed.


Lemma task_destroy_self_last_witness :
  sched_inv K4 m_last ∧ active_state m_last = Some TASK_ACTIVE ∧
  Forall (λ q, q = []) (ready_tasks m_last) ∧
  task_destroy (SVCallHandler K4) (active_task m_last) m_last = Undefined.
Proof.
  assert (Hall : Forall (λ q : list Z, q = []) (ready_tasks m_last)).
  { repeat constructor. }
  destruct (K4_tick_ok m_last eq_refl) as (Hf & Hh & Hle).
  split; [exact m_last_inv|]. split; [reflexivity|]. split; [exact Hall|].
  exact (task_destroy_self_last K4 m_last m_last_inv eq_refl Hall Hf Hh Hle).
Defined.


Lemma create_destroy_trip_witness :
  sched_inv K4 m_alloc ∧ malloc_fresh m_alloc ∧
  task_create K4 0x08000401 7 None m_alloc = Ret 500 m_created ∧
  500 ≠ NULL ∧
  ∃ m2, task_destroy (ret tt) 500 m_created = Ret tt m2 ∧
        tcbs m2 = tcbs m_alloc ∧ ready_tasks m2 = ready_tasks m_alloc ∧
        sched_inv K4 m2.
Proof.
  assert (Hnz : 500 ≠ NULL) by (by vm_compute).
  split; [exact m_alloc_inv|]. split; [exact m_alloc_fresh|].
  split; [exact m_created_reached|]. split; [exact Hnz|].
  destruct (create_destroy_trip K4 (ret tt) 0x08000401 7 None m_alloc
              m_created 500 m_alloc_inv m_alloc_fresh m_created_reached Hnz)
    as (m2 & H1 & H2 & H3 & _ & _ & _ & _ & H8).
  exists m2. split; [exact H1|]. split; [exact H2|].
  split; [exact H3 | exact H8].
Defined.

Lemma task_create_context_witness :
  task_create K4 0x08000401 7 None m_alloc = Ret 500 m_created ∧ 500 ≠ NULL ∧
  ∃ tcb, tcbs m_created !! 500 = Some tcb ∧
    PC <$> restore_context (ram m_created) (stack_ptr tcb) =
      Some 0x08000401 ∧
    R0 <$> restore_context (ram m_created) (stack_ptr tcb) = Some 7 ∧
    LR <$> restore_context (ram m_created) (stack_ptr tcb) =
      Some (task_exithandler K4).
Proof.
  assert (Hnz : 500 ≠ NULL) by (by vm_compute).
  split; [exact m_created_reached|]. split; [exact Hnz|].
  destruct (task_create_context K4 0x08000401 7 None m_alloc m_created 500
              m_created_reached Hnz) as (tcb & Htcb & _ & Hctx).
  exists tcb. split; [exact Htcb|].
  rewrite Hctx. by repeat split.
Defined.

Lemma reap_exited_tasks_total_witness :
  sched_inv K4 m_left ∧ exited_tasks m_left = [100] ∧
  ∃ m', reap_exited_tasks 0 m_left = None ∧
        reap_exited_tasks 1 m_left = Some (Ret tt m') ∧
        exited_tasks m' = [] ∧ tcbs m' !! 100 = None ∧ sched_inv K4 m'.
Proof.
  split; [exact m_left_inv|]. split; [reflexivity|].
  destruct (reap_exited_tasks_total K4 m_left m_left_inv)
    as (m' & H1 & H2 & H3 & _ & _ & _ & H7 & _).
  exists m'. split; [exact (H1 0%nat)|]. split; [exact (H1 1%nat)|].
  split; [exact H3|]. split; [exact (H7 100)|exact H2].
Defined.


Lemma sched_steps_inv_witness :
  sched_steps K4 m_run m_left ∧ sched_inv K4 m_run ∧ sched_inv K4 m_left.
Proof.
  assert (Hsteps : sched_steps K4 m_run m_left).
  { apply (steps_step K4 m_run m_left m_left); [|apply steps_refl].
    apply step_leave; [reflexivity|exact m_left_reached]. }
  split; [exact Hsteps|]. split; [exact m_run_inv|].
  exact (sched_steps_inv K4 m_run m_left Hsteps m_run_inv).
Defined.

Lemma rtos_start_dispatches_witness :
  sched_inv K4 m_cold ∧ malloc_fresh m_cold ∧ active_task m_cold = NULL ∧
  ∃ m', rtos_start K4 (SVCallHandler K4) m_cold = Dispatched m' ∧
        sched_inv K4 m' ∧ active_state m' = Some TASK_ACTIVE ∧
        is_Some (tcbs m' !! 100).
Proof.
  split; [exact m_cold_inv|]. split; [exact m_cold_fresh|].
  split; [reflexivity|].
  destruct (K4_tick_ok m_cold eq_refl) as (Hf & Hh & Hle).
  assert (Hnz : 100 ≠ NULL) by (by vm_compute).
  pose proof (rtos_start_dispatches K4 m_cold m_cold_idle 100 m_cold_inv
                m_cold_fresh eq_refl Hf Hh m_cold_idle_reached Hnz) as H.
  rewrite decide_True in H by exact Hle.
  destruct H as (m' & H1 & H2 & H3 & H4 & _).
  exists m'. split; [exact H1|]. split; [exact H2|].
  split; [exact H3 | exact H4].
Defined.

Lemma enable_systick_load_witness :
  0 < SYSTICK_FREQ K4 ∧ 0 ≤ hclk_freq m_boot < 2 ^ 32 ∧
  hclk_freq m_boot / 8 / SYSTICK_FREQ K4 ≤ 0xFFFFFF ∧
  ∃ m', enable_systick K4 m_boot = Ret tt m' ∧ SysTick_LOAD m' = 49999.
Proof.
  destruct (K4_tick_ok m_boot eq_refl) as (Hf & Hh & Hle).
  split; [exact Hf|]. split; [exact Hh|]. split; [exact Hle|].
  destruct (enable_systick_load K4 m_boot Hf Hh Hle) as (m' & H1 & H2 & _).
  exists m'. split; [exact H1|].
  assert (Hge : SYSTICK_FREQ K4 ≤ hclk_freq m_boot / 8) by (by vm_compute).
  by destruct (H2 Hge) as [-> _].
Defined.

Lemma initialize_task_stack_aligned_witness :
  0 ≤ 0x20000FFE < 2 ^ 32 ∧
  (initialize_task_stack 0x08000101 0x20000FFE 0x08000301 7).1 mod 4 = 0.
Proof.
  assert (H : 0 ≤ 0x20000FFE < 2 ^ 32) by (by split).
  split; [exact H|].
  exact (proj1 (initialize_task_stack_aligned 0x08000101 0x20000FFE
                  0x08000301 7 H)).
Defined.

Lemma initialize_task_stack_within_witness :
  0 ≤ 0x20000F00 ∧ 68 ≤ 256 ∧ 0x20000F00 + 256 ≤ 2 ^ 32 ∧
  (0x20000F00 + 256) mod 4 = 0 ∧
  (initialize_task_stack 0x08000101 (0x20000F00 + (256 - 1)) 0x08000301 7).1
    = 0x20000F00 + 256 - 68.
Proof.
  assert (H1 : 0 ≤ 0x20000F00) by done.
  assert (H2 : 68 ≤ 256) by done.
  assert (H3 : 0x20000F00 + 256 ≤ 2 ^ 32) by done.
  assert (H4 : (0x20000F00 + 256) mod 4 = 0) by reflexivity.
  split; [exact H1|]. split; [exact H2|]. split; [exact H3|].
  split; [exact H4|].
  exact (proj1 (initialize_task_stack_within 0x08000101 0x08000301 7
                  0x20000F00 256 H1 H2 H3 H4)).
Defined.

Lemma initialize_task_stack_short_witness :
  64 ≤ 0x20000F00 ∧ 1 ≤ 64 ≤ 64 ∧ 0x20000F00 + 64 ≤ 2 ^ 32 ∧
  (initialize_task_stack 0x08000101 (0x20000F00 + (64 - 1)) 0x08000301 7).1
    < 0x20000F00.
Proof.
  assert (H1 : 64 ≤ 0x20000F00) by done.
  assert (H2 : 1 ≤ 64 ≤ 64) by (by split).
  assert (H3 : 0x20000F00 + 64 ≤ 2 ^ 32) by done.
  split; [exact H1|]. split; [exact H2|]. split; [exact H3|].
  exact (initialize_task_stack_short 0x08000101 0x08000301 7
           0x20000F00 64 H1 H2 H3).
Defined.

Lemma sbrk_calls_enabled_witness :
  16384 ≠ 0 ∧
  (Syscalls.sbrk_calls 16384 [8; 16] 0x20001000).2 =
    wrap32 (0x20001000 + foldr Z.add 0 [8; 16]).
Proof.
  assert (H : 16384 ≠ 0) by done.
  split; [exact H|].
  exact (proj1 (sbrk_calls_enabled 16384 [8; 16] 0x20001000 H)).
Defined.

Lemma sbrk_up_down_witness :
  16384 ≠ 0 ∧ 0 ≤ 0x20001000 < 2 ^ 32 ∧
  Syscalls.sbrk_calls 16384 [64; - 64] 0x20001000 =
    ([0x20001000; wrap32 (0x20001000 + 64)], 0x20001000).
Proof.
  assert (H1 : 16384 ≠ 0) by done.
  assert (H2 : 0 ≤ 0x20001000 < 2 ^ 32) by (by split).
  split; [exact H1|]. split; [exact H2|].
  exact (sbrk_up_down 16384 64 0x20001000 H1 H2).
Defined.
